(** * Narwhalyzer runtime: section registry, context stack, statistics, report

    A shallow embedding of [src/narwhalyzer.c].  The process-wide globals
    ([g_sections], [g_section_count], ...) become one record that is threaded
    through every call; the [__thread] variables become a second record, one
    per thread.  The monotonic clock is an input: every entry point that calls
    [__narwhalyzer_get_timestamp_ns] receives the value it reads as [now].

    Calls are atomic in this model: threads interleave between calls, not
    inside them.  The relaxed atomics and the compare-and-swap loops of the
    source are therefore modelled by their uncontended behaviour. *)

From Stdlib Require Import ZArith List Lia String Sorting Permutation.
From stdpp Require Import base list gmap strings.

Local Open Scope Z_scope.

(** ** Machine integers *)

Definition UINT64_MAX : Z := 2 ^ 64 - 1.

(** Arithmetic on [uint64_t] wraps around. *)
Definition wrap64 (z : Z) : Z := z mod 2 ^ 64.

(** Closes a goal about concrete integers once everything is evaluated. *)
Ltac decide_by_evaluation :=
  vm_compute; repeat split;
  first [reflexivity | discriminate | intro; discriminate].

(** ** C arrays

    An array is a list of the array's length, indexed by an [int].  A read or
    write outside the array is undefined behaviour in C; here a read yields
    the default element and a write changes nothing.  The invariants below
    show that the runtime never does either. *)

Definition array_get {A : Type} (d : A) (arr : list A) (i : Z) : A :=
  if i <? 0 then d else default d (arr !! Z.to_nat i).

Definition array_set {A : Type} (arr : list A) (i : Z) (x : A) : list A :=
  if i <? 0 then arr else <[Z.to_nat i := x]> arr.

(** ** Data model *)

(** A [const char *]: [None] is the null pointer, [Some s] points to the
    C string [s]. *)
Definition c_string : Type := option string.

(** Modelled from the spec: the declaration of this struct, in narwhalyzer.h,
    is not among the sources.  The fields are those of the specification's
    Section, under the names narwhalyzer.c gives them; the counters and
    times are [uint64_t], [line], [parent_index] and [depth] are [int]. *)
Record narwhalyzer_section_stats_t : Type := mk_section {
  name : c_string;
  file : c_string;
  line : Z;
  entry_count : Z;
  cumulative_time_ns : Z;
  min_time_ns : Z;
  max_time_ns : Z;
  parent_index : Z;
  depth : Z
}.

(** Modelled from the spec: the declaration of this struct, in narwhalyzer.h,
    is not among the sources.  The fields are those of the specification's
    Context, under the names narwhalyzer.c gives them. *)
Record narwhalyzer_context_t : Type := mk_context {
  section_index : Z;
  start_time_ns : Z;
  parent_context_index : Z
}.

(** What [memset(..., 0, ...)] and static zero initialisation leave behind. *)
Definition zero_section : narwhalyzer_section_stats_t :=
  mk_section None None 0 0 0 0 0 0 0.

Definition zero_context : narwhalyzer_context_t := mk_context 0 0 0.

Definition set_entry_count (v : Z) (s : narwhalyzer_section_stats_t) :=
  mk_section (name s) (file s) (line s) v (cumulative_time_ns s)
             (min_time_ns s) (max_time_ns s) (parent_index s) (depth s).

Definition set_cumulative_time_ns (v : Z) (s : narwhalyzer_section_stats_t) :=
  mk_section (name s) (file s) (line s) (entry_count s) v
             (min_time_ns s) (max_time_ns s) (parent_index s) (depth s).

Definition set_min_time_ns (v : Z) (s : narwhalyzer_section_stats_t) :=
  mk_section (name s) (file s) (line s) (entry_count s) (cumulative_time_ns s)
             v (max_time_ns s) (parent_index s) (depth s).

Definition set_max_time_ns (v : Z) (s : narwhalyzer_section_stats_t) :=
  mk_section (name s) (file s) (line s) (entry_count s) (cumulative_time_ns s)
             (min_time_ns s) v (parent_index s) (depth s).

Definition set_parent_index (v : Z) (s : narwhalyzer_section_stats_t) :=
  mk_section (name s) (file s) (line s) (entry_count s) (cumulative_time_ns s)
             (min_time_ns s) (max_time_ns s) v (depth s).

Definition set_depth (v : Z) (s : narwhalyzer_section_stats_t) :=
  mk_section (name s) (file s) (line s) (entry_count s) (cumulative_time_ns s)
             (min_time_ns s) (max_time_ns s) (parent_index s) v.

(** ** Report output

    The report is kept as a list of structured lines rather than as text:
    [format_time] and the percentage column go through [double] formatting,
    so a line records the integers that are formatted, and the index of the
    section it is about. *)

Inductive out_line : Type :=
| NoSectionsExecuted                      (* "No instrumented sections were executed." *)
| Banner                                  (* the boxed report title *)
| TotalProgramTime (total_ns : Z)
| SectionsInstrumented (n : Z)
| FlatSummaryTitle
| TableSeparator (name_width : Z)
| TableHeader (name_width : Z)
| TableRow (idx : Z) (name_width : Z) (name_buf : string)
           (entries cumul mean min_ns max_ns : Z)
           (percent : option (Z * Z))     (* 100 * cumul / total, or 0.0 *)
| HierarchyTitle
| HierarchyRoot (idx : Z) (nm : c_string) (cumul : Z)
| HierarchyNode (idx : Z) (prefix : string) (is_last : bool)
                (nm : c_string) (cumul : Z)
| BlankLine
| SectionDetailsTitle
| SectionDetail (idx : Z) (nm : c_string) (location : string) (ln : Z)
                (entries : Z)
| EndOfReport.

(** ** Global and thread-local state *)

Record globals : Type := mk_globals {
  g_sections : list narwhalyzer_section_stats_t;
  g_section_count : Z;
  g_initialized : Z;
  g_program_start_time_ns : Z;
  g_program_end_time_ns : Z;
  g_report_printed : Z;
  g_atexit : list string;       (* handlers registered with atexit *)
  g_stderr : list string;       (* diagnostics written so far *)
  g_stdout : list out_line      (* report lines written so far *)
}.

Record thread_local : Type := mk_thread_local {
  g_context_stack : list narwhalyzer_context_t;
  g_context_stack_top : Z
}.

Definition set_g_sections (v : list narwhalyzer_section_stats_t) (g : globals) :=
  mk_globals v (g_section_count g) (g_initialized g)
             (g_program_start_time_ns g) (g_program_end_time_ns g)
             (g_report_printed g) (g_atexit g) (g_stderr g) (g_stdout g).

Definition set_g_section_count (v : Z) (g : globals) :=
  mk_globals (g_sections g) v (g_initialized g)
             (g_program_start_time_ns g) (g_program_end_time_ns g)
             (g_report_printed g) (g_atexit g) (g_stderr g) (g_stdout g).

Definition fprintf_stderr (msg : string) (g : globals) :=
  mk_globals (g_sections g) (g_section_count g) (g_initialized g)
             (g_program_start_time_ns g) (g_program_end_time_ns g)
             (g_report_printed g) (g_atexit g) (g_stderr g ++ [msg])
             (g_stdout g).

Definition printf_lines (ls : list out_line) (g : globals) :=
  mk_globals (g_sections g) (g_section_count g) (g_initialized g)
             (g_program_start_time_ns g) (g_program_end_time_ns g)
             (g_report_printed g) (g_atexit g) (g_stderr g)
             (g_stdout g ++ ls).

Definition warn_max_sections : string :=
  "narwhalyzer: warning: maximum section count exceeded".

Definition warn_max_nesting : string :=
  "narwhalyzer: warning: maximum nesting depth exceeded".

(** [strcmp(a, b) == 0] for a stored pointer [a] and a C string [b]. *)
Definition strcmp_eq (a : c_string) (b : string) : bool :=
  match a with
  | Some s => String.eqb s b
  | None => false
  end.

(** The test of the registration loop, in the source's order:
    line, stored file non-null, argument file non-null, files equal,
    names equal. *)
Definition section_matches (a_name : string) (a_file : c_string) (a_line : Z)
           (s : narwhalyzer_section_stats_t) : bool :=
  (line s =? a_line) &&
  match file s, a_file with
  | Some _, Some f => strcmp_eq (file s) f && strcmp_eq (name s) a_name
  | _, _ => false
  end.

Section Runtime.

(** The two compile-time capacities.  Their definitions, in narwhalyzer.h,
    are not among the sources; they are parameters here. *)
Variable NARWHALYZER_MAX_SECTIONS : Z.
Variable NARWHALYZER_MAX_NESTING_DEPTH : Z.

(** Process start: statics are zero, [g_context_stack_top] is -1. *)
Definition initial_globals : globals :=
  mk_globals (replicate (Z.to_nat NARWHALYZER_MAX_SECTIONS) zero_section)
             0 0 0 0 0 [] [] [].

Definition initial_thread_local : thread_local :=
  mk_thread_local
    (replicate (Z.to_nat NARWHALYZER_MAX_NESTING_DEPTH) zero_context) (-1).

(** ** __narwhalyzer_init *)

Definition __narwhalyzer_init (now : Z) (g : globals) : globals :=
  if g_initialized g =? 0 then
    mk_globals (replicate (Z.to_nat NARWHALYZER_MAX_SECTIONS) zero_section)
               (g_section_count g) 1 now (g_program_end_time_ns g)
               (g_report_printed g)
               (g_atexit g ++ ["__narwhalyzer_fini"%string])
               (g_stderr g) (g_stdout g)
  else g.

(** ** __narwhalyzer_register_section *)

(** The loop [for (i = 0; i < count; i++)]: the first matching slot. *)
Definition find_section (a_name : string) (a_file : c_string) (a_line : Z)
           (g : globals) : option Z :=
  match list_find (fun s => section_matches a_name a_file a_line s = true)
                  (take (Z.to_nat (g_section_count g)) (g_sections g)) with
  | Some (i, _) => Some (Z.of_nat i)
  | None => None
  end.

Definition new_section (a_name : string) (a_file : c_string) (a_line : Z)
  : narwhalyzer_section_stats_t :=
  mk_section (Some a_name) a_file a_line 0 0 UINT64_MAX 0 (-1) 0.

Definition __narwhalyzer_register_section
           (now : Z) (a_name : string) (a_file : c_string) (a_line : Z)
           (g : globals) : Z * globals :=
  let g := if g_initialized g =? 0 then __narwhalyzer_init now g else g in
  match find_section a_name a_file a_line g with
  | Some i => (i, g)
  | None =>
      let idx := g_section_count g in                      (* fetch_add *)
      let g := set_g_section_count (g_section_count g + 1) g in
      if idx >=? NARWHALYZER_MAX_SECTIONS then
        let g := set_g_section_count (g_section_count g - 1) g in  (* fetch_sub *)
        (-1, fprintf_stderr warn_max_sections g)
      else
        (idx, set_g_sections
                (array_set (g_sections g) idx
                           (new_section a_name a_file a_line)) g)
  end.

(** ** __narwhalyzer_section_enter *)

Definition __narwhalyzer_section_enter (now : Z) (a_section_index : Z)
           (g : globals) (tl : thread_local) : Z * globals * thread_local :=
  if (a_section_index <? 0) || (a_section_index >=? g_section_count g) then
    (-1, g, tl)
  else
    let ctx_idx := g_context_stack_top tl + 1 in           (* ++top *)
    if ctx_idx >=? NARWHALYZER_MAX_NESTING_DEPTH then
      (-1, fprintf_stderr warn_max_nesting g,
       mk_thread_local (g_context_stack tl) (ctx_idx - 1)) (* top-- *)
    else
      let ctx := mk_context a_section_index now
                            (if ctx_idx >? 0 then ctx_idx - 1 else -1) in
      let stack := array_set (g_context_stack tl) ctx_idx ctx in
      let s := array_get zero_section (g_sections g) a_section_index in
      let s := set_entry_count (wrap64 (entry_count s + 1)) s in
      let s :=
        if (parent_index s =? -1) && (ctx_idx >? 0) then
          set_parent_index
            (section_index (array_get zero_context stack (ctx_idx - 1))) s
        else s in
      let s := set_depth ctx_idx s in
      (ctx_idx,
       set_g_sections (array_set (g_sections g) a_section_index s) g,
       mk_thread_local stack ctx_idx).

(** ** __narwhalyzer_section_exit *)

(** [while (elapsed < old_min) if (CAS(&min, &old_min, elapsed)) break;]
    with no other writer between the read and the exchange. *)
Definition update_min (elapsed_ns : Z) (s : narwhalyzer_section_stats_t) :=
  let old_min := min_time_ns s in
  if elapsed_ns <? old_min then set_min_time_ns elapsed_ns s else s.

Definition update_max (elapsed_ns : Z) (s : narwhalyzer_section_stats_t) :=
  let old_max := max_time_ns s in
  if elapsed_ns >? old_max then set_max_time_ns elapsed_ns s else s.

Definition __narwhalyzer_section_exit (now : Z) (a_context_index : Z)
           (g : globals) (tl : thread_local) : globals * thread_local :=
  if (a_context_index <? 0) || (a_context_index >? g_context_stack_top tl) then
    (g, tl)
  else
    let end_time_ns := now in
    let ctx := array_get zero_context (g_context_stack tl) a_context_index in
    let elapsed_ns := wrap64 (end_time_ns - start_time_ns ctx) in
    let s := array_get zero_section (g_sections g) (section_index ctx) in
    let s := set_cumulative_time_ns
               (wrap64 (cumulative_time_ns s + elapsed_ns)) s in
    let s := update_min elapsed_ns s in
    let s := update_max elapsed_ns s in
    let g := set_g_sections
               (array_set (g_sections g) (section_index ctx) s) g in
    if a_context_index =? g_context_stack_top tl then
      (g, mk_thread_local (g_context_stack tl) (g_context_stack_top tl - 1))
    else (g, tl).

(** ** Report generation *)

(** [compare_sections_by_time]: the comparator handed to [qsort]. *)
Definition compare_sections_by_time (g : globals) (ia ib : Z) : Z :=
  let time_a := cumulative_time_ns (array_get zero_section (g_sections g) ia) in
  let time_b := cumulative_time_ns (array_get zero_section (g_sections g) ib) in
  if time_b >? time_a then 1
  else if time_b <? time_a then -1
  else 0.

Definition c_strlen (s : c_string) : Z :=
  match s with
  | Some str => Z.of_nat (String.length str)
  | None => 0
  end.

Definition c_str (s : c_string) : string :=
  match s with
  | Some str => str
  | None => EmptyString
  end.

(** The loop computing the width of the name column. *)
Definition max_name_width (section_count : Z) (g : globals) : Z :=
  let w :=
    fold_left
      (fun w i =>
         let len := c_strlen (name (array_get zero_section (g_sections g) i)) in
         if len >? w then len else w)
      (seqZ 0 section_count) 12 in
  if w >? 40 then 40 else w.

(** One iteration of the row loop of [print_flat_summary]. *)
Definition flat_row (g : globals) (total_time_ns width idx : Z)
  : list out_line :=
  let s := array_get zero_section (g_sections g) idx in
  if entry_count s =? 0 then []
  else
    let mean_time := cumulative_time_ns s / entry_count s in
    let percent :=
      if total_time_ns >? 0
      then Some (100 * cumulative_time_ns s, total_time_ns)
      else None in
    let name_buf :=
      if c_strlen (name s) >? width
      then (substring 0 (Z.to_nat (width - 3)) (c_str (name s)) ++ "...")%string
      else c_str (name s) in
    [TableRow idx width name_buf (entry_count s) (cumulative_time_ns s)
              mean_time (min_time_ns s) (max_time_ns s) percent].

Section Report.

(** The C library's [qsort], applied to an array of [int] with a comparator.
    It is not part of the repository; what is known about it is its
    contract, [qsort_contract] below. *)
Variable qsort : (Z -> Z -> Z) -> list Z -> list Z.

Definition print_flat_summary (section_count total_time_ns : Z) (g : globals)
  : list out_line :=
  if section_count =? 0 then [NoSectionsExecuted]
  else
    let sorted_indices :=
      qsort (compare_sections_by_time g) (seqZ 0 section_count) in
    let width := max_name_width section_count g in
    [BlankLine; Banner; BlankLine;
     TotalProgramTime total_time_ns; SectionsInstrumented section_count;
     BlankLine; FlatSummaryTitle; BlankLine;
     TableSeparator width; TableHeader width; TableSeparator width]
    ++ flat_map (flat_row g total_time_ns width) sorted_indices
    ++ [TableSeparator width].

(** [hierarchy_node_t]; [child_count] is the length of [children], and the
    growth of the [children] buffer by [realloc] is left out. *)
Record hierarchy_node_t : Type := mk_node {
  node_section_index : Z;
  children : list Z
}.

Definition zero_node : hierarchy_node_t := mk_node 0 [].

Definition add_child (nodes : list hierarchy_node_t) (parent child_idx : Z)
  : list hierarchy_node_t :=
  let node := array_get zero_node nodes parent in
  array_set nodes parent
            (mk_node (node_section_index node) (children node ++ [child_idx])).

(** The loop that builds the nodes and the roots.  Slot [i] is reset at
    iteration [i], as in the source, whatever was added to it before. *)
Definition build_hierarchy (section_count : Z) (g : globals)
  : list hierarchy_node_t * list Z :=
  fold_left
    (fun (acc : list hierarchy_node_t * list Z) i =>
       let nodes := array_set (fst acc) i (mk_node i []) in
       let parent :=
         parent_index (array_get zero_section (g_sections g) i) in
       if parent <? 0 then (nodes, snd acc ++ [i])
       else if parent <? section_count then (add_child nodes parent i, snd acc)
       else (nodes, snd acc))
    (seqZ 0 section_count)
    (replicate (Z.to_nat section_count) zero_node, []).

(** [for (i = 0; i < child_count; i++) f(children[i], i == child_count - 1)] *)
Fixpoint for_each_child (f : Z -> bool -> option (list out_line))
         (cs : list Z) : option (list out_line) :=
  match cs with
  | [] => Some []
  | c :: cs' =>
      match f c (match cs' with [] => true | _ => false end) with
      | None => None
      | Some ls =>
          match for_each_child f cs' with
          | None => None
          | Some ls' => Some (ls ++ ls')
          end
      end
  end.

(** [print_hierarchy_recursive]; [None] when [fuel] nested calls do not
    suffice. *)
Fixpoint print_hierarchy_recursive (fuel : nat) (g : globals)
         (nodes : list hierarchy_node_t) (idx : Z) (prefix : string)
         (is_last : bool) : option (list out_line) :=
  match fuel with
  | O => None
  | S fuel' =>
      let s := array_get zero_section (g_sections g) idx in
      let new_prefix :=
        (prefix ++ (if is_last then "    " else "│   "))%string in
      let node := array_get zero_node nodes idx in
      match for_each_child
              (fun c last =>
                 print_hierarchy_recursive fuel' g nodes c new_prefix last)
              (children node) with
      | None => None
      | Some ls =>
          Some (HierarchyNode idx prefix is_last (name s)
                              (cumulative_time_ns s) :: ls)
      end
  end.

(** The root loop of [print_hierarchy_view]. *)
Fixpoint print_roots (fuel : nat) (g : globals)
         (nodes : list hierarchy_node_t) (roots : list Z)
  : option (list out_line) :=
  match roots with
  | [] => Some []
  | idx :: roots' =>
      let s := array_get zero_section (g_sections g) idx in
      let this :=
        if entry_count s =? 0 then Some []
        else
          match for_each_child
                  (fun c last =>
                     print_hierarchy_recursive fuel g nodes c EmptyString last)
                  (children (array_get zero_node nodes idx)) with
          | None => None
          | Some ls =>
              Some (HierarchyRoot idx (name s) (cumulative_time_ns s)
                    :: ls ++ [BlankLine])
          end in
      match this, print_roots fuel g nodes roots' with
      | Some ls, Some ls' => Some (ls ++ ls')
      | _, _ => None
      end
  end.

(** A chain of children never repeats a section, so [section_count] nested
    calls always suffice (lemma [print_hierarchy_view_total]). *)
Definition print_hierarchy_view (section_count : Z) (g : globals)
  : option (list out_line) :=
  if section_count =? 0 then Some []
  else
    let '(nodes, roots) := build_hierarchy section_count g in
    match print_roots (Z.to_nat section_count) g nodes roots with
    | None => None
    | Some ls => Some (BlankLine :: HierarchyTitle :: BlankLine :: ls)
    end.

Definition section_detail (g : globals) (i : Z) : list out_line :=
  let s := array_get zero_section (g_sections g) i in
  if entry_count s =? 0 then []
  else
    [SectionDetail i (name s)
                   (match file s with
                    | Some f => f
                    | None => "<unknown>"%string
                    end)
                   (line s) (entry_count s);
     BlankLine].

Definition print_section_details (section_count : Z) (g : globals)
  : list out_line :=
  [SectionDetailsTitle; BlankLine]
  ++ flat_map (section_detail g) (seqZ 0 section_count).

(** ** __narwhalyzer_fini *)

Definition set_report_printed (now : Z) (g : globals) : globals :=
  mk_globals (g_sections g) (g_section_count g) (g_initialized g)
             (g_program_start_time_ns g) now 1
             (g_atexit g) (g_stderr g) (g_stdout g).

Definition __narwhalyzer_fini (now : Z) (g : globals) : option globals :=
  if g_report_printed g =? 0 then
    let g := set_report_printed now g in
    let total_time_ns :=
      wrap64 (g_program_end_time_ns g - g_program_start_time_ns g) in
    let section_count := g_section_count g in
    if section_count =? 0 then Some g
    else
      match print_hierarchy_view section_count g with
      | None => None
      | Some hier =>
          Some (printf_lines
                  (print_flat_summary section_count total_time_ns g
                   ++ hier
                   ++ print_section_details section_count g
                   ++ [EndOfReport; BlankLine]) g)
      end
  else Some g.

End Report.

(** ** Threads and call sequences *)

(** The process: the globals and, per thread, its thread-local variables.
    A thread that has not run yet has the initial ones. *)
Record world : Type := mk_world {
  w_globals : globals;
  w_threads : gmap nat thread_local
}.

Definition thread_of (w : world) (t : nat) : thread_local :=
  default initial_thread_local (w_threads w !! t).

Definition initial_world : world := mk_world initial_globals ∅.

(** A call into the runtime, with the thread that makes it and the clock
    value it reads. *)
Inductive call : Type :=
| CallInit (now : Z)
| CallRegister (now : Z) (a_name : string) (a_file : c_string) (a_line : Z)
| CallEnter (t : nat) (now : Z) (a_section_index : Z)
| CallExit (t : nat) (now : Z) (a_context_index : Z).

(** One call; the result is the returned [int], if any. *)
Definition step (c : call) (w : world) : option Z * world :=
  match c with
  | CallInit now =>
      (None, mk_world (__narwhalyzer_init now (w_globals w)) (w_threads w))
  | CallRegister now a_name a_file a_line =>
      let '(r, g) :=
        __narwhalyzer_register_section now a_name a_file a_line (w_globals w) in
      (Some r, mk_world g (w_threads w))
  | CallEnter t now idx =>
      let '(r, g, tl) :=
        __narwhalyzer_section_enter now idx (w_globals w) (thread_of w t) in
      (Some r, mk_world g (<[t := tl]> (w_threads w)))
  | CallExit t now ctx =>
      let '(g, tl) :=
        __narwhalyzer_section_exit now ctx (w_globals w) (thread_of w t) in
      (None, mk_world g (<[t := tl]> (w_threads w)))
  end.

(** A sequence of calls; the log pairs every call with its result. *)
Fixpoint run (cs : list call) (w : world) : list (call * option Z) * world :=
  match cs with
  | [] => ([], w)
  | c :: cs' =>
      let '(r, w1) := step c w in
      let '(log, w2) := run cs' w1 in
      ((c, r) :: log, w2)
  end.

(** [g_sections[i]] *)
Definition section_at (g : globals) (i : Z) : narwhalyzer_section_stats_t :=
  array_get zero_section (g_sections g) i.

(** [g_context_stack[i]] *)
Definition context_at (tl : thread_local) (i : Z) : narwhalyzer_context_t :=
  array_get zero_context (g_context_stack tl) i.

(** ** Well-formed states *)

(** The identity of a section. *)
Definition triple_of (s : narwhalyzer_section_stats_t)
  : c_string * c_string * Z := (name s, file s, line s).

(** What holds of the globals in every state the runtime reaches. *)
Record globals_ok (g : globals) : Prop := mk_globals_ok {
  ok_length : length (g_sections g) = Z.to_nat NARWHALYZER_MAX_SECTIONS;
  ok_count : 0 <= g_section_count g <= NARWHALYZER_MAX_SECTIONS;
  ok_init : g_initialized g = 0 -> g_section_count g = 0;
  ok_name : forall i, 0 <= i < g_section_count g ->
            name (section_at g i) <> None;
  ok_unique : forall i j,
      0 <= i < g_section_count g -> 0 <= j < g_section_count g ->
      file (section_at g i) <> None ->
      triple_of (section_at g i) = triple_of (section_at g j) -> i = j;
  ok_parent : forall i, 0 <= i < g_section_count g ->
              -1 <= parent_index (section_at g i) < g_section_count g
}.

(** What holds of a thread's stack: every cell up to the top names a
    registered section. *)
Record thread_ok (g : globals) (tl : thread_local) : Prop := mk_thread_ok {
  ok_stack_length :
    length (g_context_stack tl) = Z.to_nat NARWHALYZER_MAX_NESTING_DEPTH;
  ok_top : -1 <= g_context_stack_top tl < NARWHALYZER_MAX_NESTING_DEPTH;
  ok_cells : forall i, 0 <= i <= g_context_stack_top tl ->
             0 <= section_index (context_at tl i) < g_section_count g
}.

Definition world_ok (w : world) : Prop :=
  globals_ok (w_globals w) /\ forall t, thread_ok (w_globals w) (thread_of w t).

(** The worlds the runtime reaches from process start. *)
Definition reachable (w : world) : Prop :=
  exists cs, snd (run cs initial_world) = w.

(** The value stored back into the entered section: the entry count, the
    parent when it is still unset and a context lies beneath, the depth. *)
Definition entered_section (ctx_idx parent_section : Z)
           (s : narwhalyzer_section_stats_t) : narwhalyzer_section_stats_t :=
  let s := set_entry_count (wrap64 (entry_count s + 1)) s in
  let s :=
    if (parent_index s =? -1) && (ctx_idx >? 0)
    then set_parent_index parent_section s else s in
  set_depth ctx_idx s.

(** The value stored back into the exited section. *)
Definition exited_section (elapsed : Z) (s : narwhalyzer_section_stats_t)
  : narwhalyzer_section_stats_t :=
  update_max elapsed
    (update_min elapsed
       (set_cumulative_time_ns (wrap64 (cumulative_time_ns s + elapsed)) s)).

(** What is known about the calls to [register_section] made so far:
    a returned index holds the registered triple; the sentinel was returned
    with the registry full and no slot matching. *)
Definition registered_as (g : globals) (e : call * option Z) : Prop :=
  match e with
  | (CallRegister _ a_name a_file a_line, Some r) =>
      g_initialized g <> 0 /\
      ((0 <= r < g_section_count g /\
        triple_of (section_at g r) = (Some a_name, a_file, a_line))
       \/
       (r = -1 /\ g_section_count g = NARWHALYZER_MAX_SECTIONS /\
        forall j, 0 <= j < g_section_count g ->
                  section_matches a_name a_file a_line (section_at g j) = false))
  | _ => True
  end.

(** A set parent was written by a nested enter that is in the log. *)
Definition parents_logged (log : list (call * option Z)) (w : world) : Prop :=
  forall B, 0 <= B < g_section_count (w_globals w) ->
    parent_index (section_at (w_globals w) B) <> -1 ->
    exists t now r, In (CallEnter t now B, Some r) log /\ 0 < r.

(** ** Activations, as a caller sees them

    A ledger is kept beside the log of calls: the activations that are still
    open, most recent first, each with the context id its [section_enter]
    returned, and the activations that are complete, each with the duration
    measured at its [section_exit]. *)

Record activation : Type := mk_activation {
  a_thread : nat;
  a_context : Z;
  a_section : Z;
  a_start : Z
}.

Record ledger : Type := mk_ledger {
  pending : list activation;
  completed : list (Z * Z)            (* section, elapsed time *)
}.

Definition empty_ledger : ledger := mk_ledger [] [].

(** The most recent open activation of thread [t], and the others. *)
Fixpoint pop_thread (t : nat) (p : list activation)
  : option (activation * list activation) :=
  match p with
  | [] => None
  | a :: rest =>
      if Nat.eqb (a_thread a) t then Some (a, rest)
      else match pop_thread t rest with
           | Some (b, rest') => Some (b, a :: rest')
           | None => None
           end
  end.

(** One logged call.  An exit must pass the context id of the most recent
    open activation of its thread; otherwise the calls are not balanced and
    the result is [None].  An activation whose enter failed (-1) completes
    without a measurement. *)
Definition observe (e : call * option Z) (L : ledger) : option ledger :=
  match e with
  | (CallEnter t now s, Some r) =>
      Some (mk_ledger (mk_activation t r s now :: pending L) (completed L))
  | (CallExit t now c, _) =>
      match pop_thread t (pending L) with
      | Some (a, rest) =>
          if a_context a =? c then
            Some (mk_ledger rest
                    (if c <? 0 then completed L
                     else (a_section a, wrap64 (now - a_start a))
                          :: completed L))
          else None
      | None => None
      end
  | _ => Some L
  end.

Fixpoint observe_all (log : list (call * option Z)) (L : ledger)
  : option ledger :=
  match log with
  | [] => Some L
  | e :: log' =>
      match observe e L with
      | Some L' => observe_all log' L'
      | None => None
      end
  end.

(** The measured durations of the complete activations of section [s]. *)
Fixpoint durations (s : Z) (c : list (Z * Z)) : list Z :=
  match c with
  | [] => []
  | (s', d) :: c' => if s' =? s then d :: durations s c' else durations s c'
  end.

Fixpoint sum_durations (ds : list Z) : Z :=
  match ds with
  | [] => 0
  | d :: ds' => d + sum_durations ds'
  end.

(** [m] is the least, respectively the greatest, element of [ds]. *)
Definition is_minimum (m : Z) (ds : list Z) : Prop :=
  In m ds /\ forall d, In d ds -> m <= d.

Definition is_maximum (m : Z) (ds : list Z) : Prop :=
  In m ds /\ forall d, In d ds -> d <= m.

(** The open activations of section [s] whose enter succeeded. *)
Fixpoint pending_count (s : Z) (p : list activation) : Z :=
  match p with
  | [] => 0
  | a :: p' =>
      (if (a_section a =? s) && (0 <=? a_context a) then 1 else 0)
      + pending_count s p'
  end.

(** The open activations of thread [t] whose enter succeeded. *)
Fixpoint thread_pending (t : nat) (p : list activation) : list activation :=
  match p with
  | [] => []
  | a :: p' =>
      if Nat.eqb (a_thread a) t && (0 <=? a_context a)
      then a :: thread_pending t p' else thread_pending t p'
  end.

(** The cells of a stack from [top] down are the given activations. *)
Fixpoint stack_agrees (tl : thread_local) (top : Z) (p : list activation)
  : Prop :=
  match p with
  | [] => top = -1
  | a :: p' =>
      a_context a = top /\
      section_index (context_at tl top) = a_section a /\
      start_time_ns (context_at tl top) = a_start a /\
      stack_agrees tl (top - 1) p'
  end.

(** How the ledger and the runtime's state correspond. *)
Record ledger_inv (L : ledger) (w : world) : Prop := mk_ledger_inv {
  inv_stacks : forall t,
      stack_agrees (thread_of w t) (g_context_stack_top (thread_of w t))
                   (thread_pending t (pending L));
  inv_outside : forall s,
      ~ (0 <= s < g_section_count (w_globals w)) ->
      pending_count s (pending L) = 0 /\ durations s (completed L) = [];
  inv_range : Forall (fun d => 0 <= snd d < 2 ^ 64) (completed L);
  inv_stats : forall s,
      0 <= s < g_section_count (w_globals w) ->
      let ds := durations s (completed L) in
      let sec := section_at (w_globals w) s in
      entry_count sec
        = wrap64 (Z.of_nat (length ds) + pending_count s (pending L)) /\
      cumulative_time_ns sec = wrap64 (sum_durations ds) /\
      min_time_ns sec = fold_right Z.min UINT64_MAX ds /\
      max_time_ns sec = fold_right Z.max 0 ds
}.

(** ** Reading the report *)

(** What the C standard promises of [qsort]: for a comparator that is a
    total preorder, the result is a rearrangement of the array in which no
    element compares greater than a later one.  The order of elements that
    compare equal is unspecified. *)
Definition qsort_contract (qsort : (Z -> Z -> Z) -> list Z -> list Z) : Prop :=
  forall (cmp : Z -> Z -> Z) (l : list Z),
    (forall a b, cmp a b <= 0 \/ cmp b a <= 0) ->
    (forall a b c, cmp a b <= 0 -> cmp b c <= 0 -> cmp a c <= 0) ->
    Permutation l (qsort cmp l) /\
    StronglySorted (fun a b => cmp a b <= 0) (qsort cmp l).

(** One conforming [qsort]: insertion sort, each element placed after the
    elements that compare equal to it. *)
Fixpoint insert_after (cmp : Z -> Z -> Z) (x : Z) (l : list Z) : list Z :=
  match l with
  | [] => [x]
  | y :: l' => if cmp y x <=? 0 then y :: insert_after cmp x l' else x :: l
  end.

Definition insertion_qsort (cmp : Z -> Z -> Z) (l : list Z) : list Z :=
  fold_right (insert_after cmp) [] l.

(** What a stable [qsort] adds to the contract, as the merge sort of a C
    library does: the elements that compare equal to any given one come out
    in the order they went in. *)
Definition qsort_stable (qsort : (Z -> Z -> Z) -> list Z -> list Z) : Prop :=
  forall (cmp : Z -> Z -> Z) (l : list Z),
    (forall a b, cmp a b <= 0 \/ cmp b a <= 0) ->
    (forall a b c, cmp a b <= 0 -> cmp b c <= 0 -> cmp a c <= 0) ->
    forall x,
      List.filter (fun y => (cmp x y <=? 0) && (cmp y x <=? 0)) (qsort cmp l)
      = List.filter (fun y => (cmp x y <=? 0) && (cmp y x <=? 0)) l.

(** One stable [qsort]: insertion sort, each element placed before the
    elements that compare equal to it and came after it. *)
Fixpoint insert_before (cmp : Z -> Z -> Z) (x : Z) (l : list Z) : list Z :=
  match l with
  | [] => [x]
  | y :: l' => if cmp x y <=? 0 then x :: l else y :: insert_before cmp x l'
  end.

Definition stable_qsort (cmp : Z -> Z -> Z) (l : list Z) : list Z :=
  fold_right (insert_before cmp) [] l.

(** ** The C library's in-place sort

    In the GNU C library (2.36) [qsort] is a merge sort in a temporary
    buffer, which is stable.  For an array of 1024 bytes or more, 256
    [int]s, the buffer comes from [malloc], and when [malloc] returns null
    the array is sorted in place by [_quicksort] (stdlib/qsort.c) instead: a
    median-of-three quicksort with an explicit stack that leaves partitions
    of at most [MAX_THRESH] elements to a final insertion sort.  Below is
    [_quicksort] for an array of [int], with positions for pointers and a
    list for the stack. *)

Definition SWAP (arr : list Z) (a b : Z) : list Z :=
  array_set (array_set arr a (array_get 0 arr b)) b (array_get 0 arr a).

Definition MAX_THRESH : Z := 4.

(** [while (cmp (left_ptr, mid) < 0) left_ptr += size] *)
Fixpoint scan_left (cmp : Z -> Z -> Z) (fuel : nat) (arr : list Z)
         (left_ptr mid : Z) : Z :=
  match fuel with
  | O => left_ptr
  | S fuel' =>
      if cmp (array_get 0 arr left_ptr) (array_get 0 arr mid) <? 0
      then scan_left cmp fuel' arr (left_ptr + 1) mid
      else left_ptr
  end.

(** [while (cmp (mid, right_ptr) < 0) right_ptr -= size] *)
Fixpoint scan_right (cmp : Z -> Z -> Z) (fuel : nat) (arr : list Z)
         (right_ptr mid : Z) : Z :=
  match fuel with
  | O => right_ptr
  | S fuel' =>
      if cmp (array_get 0 arr mid) (array_get 0 arr right_ptr) <? 0
      then scan_right cmp fuel' arr (right_ptr - 1) mid
      else right_ptr
  end.

(** The [do ... while (left_ptr <= right_ptr)] loop that collapses the
    walls; it returns the array and the two pointers. *)
Fixpoint collapse_walls (cmp : Z -> Z -> Z) (fuel : nat) (arr : list Z)
         (left_ptr right_ptr mid : Z) : list Z * Z * Z :=
  match fuel with
  | O => (arr, left_ptr, right_ptr)
  | S fuel' =>
      let left_ptr := scan_left cmp (length arr) arr left_ptr mid in
      let right_ptr := scan_right cmp (length arr) arr right_ptr mid in
      if left_ptr <? right_ptr then
        let arr := SWAP arr left_ptr right_ptr in
        let mid :=
          if mid =? left_ptr then right_ptr
          else if mid =? right_ptr then left_ptr else mid in
        let left_ptr := left_ptr + 1 in
        let right_ptr := right_ptr - 1 in
        if left_ptr <=? right_ptr
        then collapse_walls cmp fuel' arr left_ptr right_ptr mid
        else (arr, left_ptr, right_ptr)
      else if left_ptr =? right_ptr then (arr, left_ptr + 1, right_ptr - 1)
      else (arr, left_ptr, right_ptr)
  end.

(** [(size_t) d <= max_thresh], in elements: a negative difference is a
    large [size_t]. *)
Definition within_thresh (d : Z) : bool := (0 <=? d) && (d <=? MAX_THRESH).

(** The [while (STACK_NOT_EMPTY)] loop; popping from the empty list is
    popping the entry pushed before the loop, which ends it. *)
Fixpoint sort_partitions (cmp : Z -> Z -> Z) (fuel : nat) (arr : list Z)
         (lo hi : Z) (stack : list (Z * Z)) : list Z :=
  match fuel with
  | O => arr
  | S fuel' =>
      let mid := lo + Z.shiftr (hi - lo) 1 in
      let arr :=
        if cmp (array_get 0 arr mid) (array_get 0 arr lo) <? 0
        then SWAP arr mid lo else arr in
      let arr :=
        if cmp (array_get 0 arr hi) (array_get 0 arr mid) <? 0
        then
          let arr := SWAP arr mid hi in
          if cmp (array_get 0 arr mid) (array_get 0 arr lo) <? 0
          then SWAP arr mid lo else arr
        else arr in
      let '(arr, left_ptr, right_ptr) :=
        collapse_walls cmp (length arr) arr (lo + 1) (hi - 1) mid in
      if within_thresh (right_ptr - lo) then
        if within_thresh (hi - left_ptr) then
          match stack with
          | [] => arr
          | (lo', hi') :: stack' => sort_partitions cmp fuel' arr lo' hi' stack'
          end
        else sort_partitions cmp fuel' arr left_ptr hi stack
      else if within_thresh (hi - left_ptr) then
        sort_partitions cmp fuel' arr lo right_ptr stack
      else if right_ptr - lo >? hi - left_ptr then
        sort_partitions cmp fuel' arr left_ptr hi ((lo, right_ptr) :: stack)
      else
        sort_partitions cmp fuel' arr lo right_ptr ((left_ptr, hi) :: stack)
  end.

(** The loop that finds the smallest element of the first threshold. *)
Fixpoint smallest_in (cmp : Z -> Z -> Z) (arr : list Z) (run_ptrs : list Z)
         (tmp_ptr : Z) : Z :=
  match run_ptrs with
  | [] => tmp_ptr
  | run_ptr :: run_ptrs' =>
      smallest_in cmp arr run_ptrs'
        (if cmp (array_get 0 arr run_ptr) (array_get 0 arr tmp_ptr) <? 0
         then run_ptr else tmp_ptr)
  end.

(** [while (cmp (run_ptr, tmp_ptr) < 0) tmp_ptr -= size], then
    [tmp_ptr += size]. *)
Fixpoint insertion_point (cmp : Z -> Z -> Z) (fuel : nat) (arr : list Z)
         (run_ptr tmp_ptr : Z) : Z :=
  match fuel with
  | O => tmp_ptr + 1
  | S fuel' =>
      if cmp (array_get 0 arr run_ptr) (array_get 0 arr tmp_ptr) <? 0
      then insertion_point cmp fuel' arr run_ptr (tmp_ptr - 1)
      else tmp_ptr + 1
  end.

(** The element at [run_ptr] is moved down to [tmp_ptr] and the elements in
    between are moved up by one. *)
Definition move_down (arr : list Z) (tmp_ptr run_ptr : Z) : list Z :=
  take (Z.to_nat tmp_ptr) arr
  ++ array_get 0 arr run_ptr
     :: take (Z.to_nat (run_ptr - tmp_ptr)) (drop (Z.to_nat tmp_ptr) arr)
  ++ drop (Z.to_nat (run_ptr + 1)) arr.

Fixpoint final_insertion_sort (cmp : Z -> Z -> Z) (arr : list Z)
         (run_ptrs : list Z) : list Z :=
  match run_ptrs with
  | [] => arr
  | run_ptr :: run_ptrs' =>
      let tmp_ptr :=
        insertion_point cmp (length arr) arr run_ptr (run_ptr - 1) in
      final_insertion_sort cmp
        (if tmp_ptr =? run_ptr then arr else move_down arr tmp_ptr run_ptr)
        run_ptrs'
  end.

Definition _quicksort (cmp : Z -> Z -> Z) (arr : list Z) : list Z :=
  let total_elems := Z.of_nat (length arr) in
  if total_elems =? 0 then arr
  else
    let arr :=
      if total_elems >? MAX_THRESH
      then sort_partitions cmp (length arr) arr 0 (total_elems - 1) []
      else arr in
    let end_ptr := total_elems - 1 in
    let thresh := Z.min end_ptr MAX_THRESH in
    let tmp_ptr := smallest_in cmp arr (seqZ 1 thresh) 0 in
    let arr := if tmp_ptr =? 0 then arr else SWAP arr tmp_ptr 0 in
    final_insertion_sort cmp arr (seqZ 2 (end_ptr - 1)).

(** The section a report line is about. *)
Definition line_section (o : out_line) : option Z :=
  match o with
  | TableRow idx _ _ _ _ _ _ _ _ => Some idx
  | HierarchyRoot idx _ _ => Some idx
  | HierarchyNode idx _ _ _ _ => Some idx
  | SectionDetail idx _ _ _ _ => Some idx
  | _ => None
  end.

(** The sections of the rows of the flat table, top to bottom. *)
Fixpoint row_indices (ls : list out_line) : list Z :=
  match ls with
  | [] => []
  | TableRow idx _ _ _ _ _ _ _ _ :: ls' => idx :: row_indices ls'
  | _ :: ls' => row_indices ls'
  end.

Definition executed (g : globals) (i : Z) : bool :=
  negb (entry_count (section_at g i) =? 0).

(** A path of sections, each the parent of the one before, ending at a
    section without parent. *)
Fixpoint chain (g : globals) (l : list Z) : Prop :=
  match l with
  | [] => True
  | x :: l' =>
      match l' with
      | [] => parent_index (section_at g x) < 0
      | y :: _ => parent_index (section_at g x) = y
      end /\ chain g l'
  end.

(** Entry counts along a run short enough for no 64-bit counter to wrap:
    a count is at most the number of calls made, and a section whose parent
    is set has been entered. *)
Definition entries_counted (log : list (call * option Z)) (w : world) : Prop :=
  Z.of_nat (length log) < 2 ^ 64 ->
  forall i, 0 <= i < g_section_count (w_globals w) ->
    0 <= entry_count (section_at (w_globals w) i) <= Z.of_nat (length log) /\
    (parent_index (section_at (w_globals w) i) <> -1 ->
     1 <= entry_count (section_at (w_globals w) i)).

(** The report of a run that registered sections and entered none. *)
Definition report_frame (now : Z) (g : globals) : list out_line :=
  let width := max_name_width (g_section_count g) g in
  [BlankLine; Banner; BlankLine;
   TotalProgramTime (wrap64 (now - g_program_start_time_ns g));
   SectionsInstrumented (g_section_count g);
   BlankLine; FlatSummaryTitle; BlankLine;
   TableSeparator width; TableHeader width; TableSeparator width;
   TableSeparator width;
   BlankLine; HierarchyTitle; BlankLine;
   SectionDetailsTitle; BlankLine;
   EndOfReport; BlankLine].

(** Every child recorded in a node is a registered section whose parent
    index is that node; every root is a registered section without parent. *)
Definition hierarchy_ok (g : globals) (section_count : Z)
           (acc : list hierarchy_node_t * list Z) : Prop :=
  (forall p c, In c (children (array_get zero_node (fst acc) p)) ->
               0 <= c < section_count /\
               parent_index (section_at g c) = p /\ 0 <= p) /\
  (forall r, In r (snd acc) ->
             0 <= r < section_count /\ parent_index (section_at g r) < 0).

(** ** The rest of the runtime's entry points *)

(** [__narwhalyzer_get_timestamp_ns], as a function of the [timespec] that
    [clock_gettime] fills in: both fields are converted to [uint64_t], and
    the product and the sum are taken in [uint64_t]. *)
Definition __narwhalyzer_get_timestamp_ns (tv_sec tv_nsec : Z) : Z :=
  wrap64 (wrap64 (wrap64 tv_sec * 1000000000) + wrap64 tv_nsec).

(** [__narwhalyzer_is_initialized] *)
Definition __narwhalyzer_is_initialized (g : globals) : Z := g_initialized g.

(** Modelled from the spec: the declaration of this struct, in narwhalyzer.h,
    is not among the sources.  It is the specification's (context id,
    valid flag) pair, under the field names narwhalyzer.c uses. *)
Record narwhalyzer_scope_guard_t : Type := mk_scope_guard {
  context_index : Z;
  valid : Z
}.

(** [__narwhalyzer_scope_guard_cleanup]; the guard is passed by pointer,
    [None] being the null pointer, and the guard as the call leaves it is
    returned with the state. *)
Definition __narwhalyzer_scope_guard_cleanup (now : Z)
           (guard : option narwhalyzer_scope_guard_t)
           (g : globals) (tl : thread_local)
  : option narwhalyzer_scope_guard_t * globals * thread_local :=
  match guard with
  | Some gd =>
      if negb (valid gd =? 0) then
        let '(g', tl') :=
          __narwhalyzer_section_exit now (context_index gd) g tl in
        (Some (mk_scope_guard (context_index gd) 0), g', tl')
      else (guard, g, tl)
  | None => (guard, g, tl)
  end.

(** The statements [NARWHALYZER_FUNCTION(name)] expands to
    (narwhalyzer_macros.h; [NARWHALYZER_GUARDED_SECTION] expands to the same
    calls under other variable names): the static index is registered while
    it is negative, with [__FILE__] and [__LINE__] of the macro's use; the
    section is entered; a guard holding the context is declared valid.  The
    static [_nw_func_idx_] is passed in, and returned as the expansion
    leaves it, with the guard. *)
Definition NARWHALYZER_FUNCTION (now_register now_enter : Z)
           (a_name a_file : string) (a_line : Z) (_nw_func_idx_ : Z)
           (g : globals) (tl : thread_local)
  : Z * narwhalyzer_scope_guard_t * globals * thread_local :=
  let '(_nw_func_idx_, g) :=
    if _nw_func_idx_ <? 0
    then __narwhalyzer_register_section now_register a_name (Some a_file)
                                        a_line g
    else (_nw_func_idx_, g) in
  let '(_nw_func_ctx_, g, tl) :=
    __narwhalyzer_section_enter now_enter _nw_func_idx_ g tl in
  (_nw_func_idx_, mk_scope_guard _nw_func_ctx_ 1, g, tl).

(** The sections of the entries of the section details, top to bottom. *)
Fixpoint detail_indices (ls : list out_line) : list Z :=
  match ls with
  | [] => []
  | SectionDetail idx _ _ _ _ :: ls' => idx :: detail_indices ls'
  | _ :: ls' => detail_indices ls'
  end.

(** The sections printed as roots of the hierarchical view, top to bottom. *)
Fixpoint root_indices (ls : list out_line) : list Z :=
  match ls with
  | [] => []
  | HierarchyRoot idx _ _ :: ls' => idx :: root_indices ls'
  | _ :: ls' => root_indices ls'
  end.

(** Every slot below the count was handed out by a registration in the
    log and holds the triple that registration passed. *)
Definition slots_registered (log : list (call * option Z)) (w : world) : Prop :=
  forall i, 0 <= i < g_section_count (w_globals w) ->
    exists now a_name a_file a_line,
      In (CallRegister now a_name a_file a_line, Some i) log /\
      triple_of (section_at (w_globals w) i) = (Some a_name, a_file, a_line).

(** The counters of a section are 64-bit values, and its extrema are either
    still the initial ones or ordered. *)
Definition counters_sane (s : narwhalyzer_section_stats_t) : Prop :=
  0 <= entry_count s < 2 ^ 64 /\
  0 <= cumulative_time_ns s < 2 ^ 64 /\
  0 <= min_time_ns s < 2 ^ 64 /\
  0 <= max_time_ns s < 2 ^ 64 /\
  ((min_time_ns s = UINT64_MAX /\ max_time_ns s = 0 /\
    cumulative_time_ns s = 0) \/
   min_time_ns s <= max_time_ns s).

(** Whether section [c] is in the child list of node [p] once the loop of
    [print_hierarchy_view] has run over the indices below [k]: [p] must be
    the parent of [c], and [c] must not have been added before slot [p] was
    reset at iteration [p]. *)
Definition child_kept (g : globals) (k p c : Z) : bool :=
  (parent_index (section_at g c) =? p) && ((p <=? c) || (k <=? p)).

(** A line of the hierarchical view is in place: a root has no parent and
    has been entered; a node has a parent, whose index is not above its
    own. *)
Definition hierarchy_line_ok (g : globals) (section_count : Z)
           (o : out_line) : Prop :=
  match o with
  | HierarchyRoot idx _ _ =>
      parent_index (section_at g idx) < 0 /\
      entry_count (section_at g idx) <> 0
  | HierarchyNode idx _ _ _ _ =>
      0 <= parent_index (section_at g idx) <= idx /\ idx < section_count
  | _ => True
  end.

(** ** Sample runs

    Call sequences used below to exercise the statements on concrete
    inputs.  The header's documented default capacities are 2048 sections
    and 128 nested contexts; capacities of 2 are used where the point is to
    reach them. *)

Definition demo_register_outer : call :=
  CallRegister 0 "outer"%string (Some "demo.c"%string) 10.
Definition demo_register_inner : call :=
  CallRegister 0 "inner"%string (Some "demo.c"%string) 20.

(** The same name and line with a null file. *)
Definition register_anonymous : call := CallRegister 0 "anon"%string None 7.

(** Two sections, [inner] entered inside [outer] on thread 0. *)
Definition demo_calls : list call :=
  [demo_register_outer; demo_register_inner;
   CallEnter 0 100 0; CallEnter 0 110 1; CallExit 0 150 1; CallExit 0 200 0].

(** The ledger of [demo_calls]. *)
Definition demo_ledger : ledger := mk_ledger [] [(0, 100); (1, 40)].

Definition demo_twice : list call :=
  [demo_register_outer; demo_register_inner; demo_register_outer].

(** [inner] is entered at top level, then under [outer]; later it is
    entered at top level and under itself on another thread. *)
Definition demo_nest_before : list call :=
  [demo_register_outer; demo_register_inner;
   CallEnter 0 50 1; CallExit 0 60 0; CallEnter 0 100 0].

Definition demo_nest_after : list call :=
  [CallExit 0 150 1; CallExit 0 200 0;
   CallEnter 1 300 1; CallEnter 1 310 1; CallExit 1 320 1; CallExit 1 330 0].

(** Two sections with the same cumulative time. *)
Definition demo_tie_calls : list call :=
  [demo_register_outer; demo_register_inner;
   CallEnter 0 100 0; CallExit 0 150 0; CallEnter 0 200 1; CallExit 0 250 0].

Definition demo_registered : world :=
  snd (run [demo_register_outer; demo_register_inner] initial_world).

Definition demo_entered : world :=
  snd (run [demo_register_outer; demo_register_inner; CallEnter 0 100 0]
          initial_world).

Definition demo_tie : globals :=
  w_globals (snd (run demo_tie_calls initial_world)).

(** One section, registered and never entered. *)
Definition demo_never_entered : globals :=
  w_globals (snd (run [demo_register_outer] initial_world)).

(** One section whose name, of 45 characters, is longer than the widest
    name column; it is entered once. *)
Definition demo_long_name_calls : list call :=
  [CallRegister 0 "a_section_name_that_is_longer_than_the_column"%string
                (Some "demo.c"%string) 30;
   CallEnter 0 100 0; CallExit 0 150 0].

Definition demo_long_name : globals :=
  w_globals (snd (run demo_long_name_calls initial_world)).

(** 300 sections, each entered once for 50 ns: an index array of 1200
    bytes, all cumulative times equal. *)
Definition demo_equal_times_calls : list call :=
  map (fun i => CallRegister 0 "work"%string (Some "demo.c"%string) i)
      (seqZ 0 300)
  ++ flat_map (fun i => [CallEnter 0 (100 * i) i; CallExit 0 (100 * i + 50) 0])
              (seqZ 0 300).

Definition demo_equal_times : globals :=
  w_globals (snd (run demo_equal_times_calls initial_world)).

(** The state [demo_calls] ends in. *)
Definition demo_run : globals :=
  w_globals (snd (run demo_calls initial_world)).

(** [outer], registered first, is entered inside [inner]: a child whose
    index is below its parent's. *)
Definition demo_child_first_calls : list call :=
  [demo_register_outer; demo_register_inner;
   CallEnter 0 100 1; CallEnter 0 110 0; CallExit 0 150 1; CallExit 0 200 0].

Definition demo_child_first : globals :=
  w_globals (snd (run demo_child_first_calls initial_world)).

(** * Properties *)

(** ** Array lemmas *)

Lemma array_get_set_eq {A : Type} (d : A) (arr : list A) (i : Z) (x : A) :
  0 <= i < Z.of_nat (length arr) ->
  array_get d (array_set arr i x) i = x.
Proof.
  intros Hi. unfold array_get, array_set.
  destruct (Z.ltb_spec i 0) as [Hneg|_]; [lia|].
  rewrite list_lookup_insert_eq by lia. reflexivity.
Qed.

Lemma array_get_set_ne {A : Type} (d : A) (arr : list A) (i j : Z) (x : A) :
  i <> j ->
  array_get d (array_set arr i x) j = array_get d arr j.
Proof.
  intros Hne. unfold array_get, array_set.
  destruct (Z.ltb_spec j 0) as [Hj|Hj]; [reflexivity|].
  destruct (Z.ltb_spec i 0) as [Hi|Hi]; [reflexivity|].
  rewrite list_lookup_insert_ne by lia. reflexivity.
Qed.

Lemma length_array_set {A : Type} (arr : list A) (i : Z) (x : A) :
  length (array_set arr i x) = length arr.
Proof.
  unfold array_set. destruct (i <? 0); [reflexivity|apply length_insert].
Qed.

Lemma section_at_set_eq (g : globals) (i : Z) (x : narwhalyzer_section_stats_t) :
  0 <= i < Z.of_nat (length (g_sections g)) ->
  section_at (set_g_sections (array_set (g_sections g) i x) g) i = x.
Proof. intros Hi. unfold section_at. cbn. apply array_get_set_eq, Hi. Qed.

Lemma section_at_set_ne (g : globals) (i j : Z) (x : narwhalyzer_section_stats_t) :
  i <> j ->
  section_at (set_g_sections (array_set (g_sections g) i x) g) j
  = section_at g j.
Proof. intros Hi. unfold section_at. cbn. apply array_get_set_ne, Hi. Qed.

(** ** section_enter, one call *)

(** C6.  [section_enter] returns -1 and changes nothing for a negative or
    out-of-range section index; when the calling thread's stack is full it
    returns -1 and leaves the stack (cells and top) as it was; otherwise it
    writes one context above the old top, leaves every other cell alone, and
    returns the index of the new top, which is the nesting depth it records
    in the section ([s->depth = ctx_idx]). *)
Theorem section_enter_result (now idx : Z) (g : globals) (tl : thread_local) :
  length (g_context_stack tl) = Z.to_nat NARWHALYZER_MAX_NESTING_DEPTH ->
  -1 <= g_context_stack_top tl < NARWHALYZER_MAX_NESTING_DEPTH ->
  length (g_sections g) = Z.to_nat NARWHALYZER_MAX_SECTIONS ->
  g_section_count g <= NARWHALYZER_MAX_SECTIONS ->
  let '(r, g', tl') := __narwhalyzer_section_enter now idx g tl in
  (idx < 0 \/ g_section_count g <= idx -> r = -1 /\ g' = g /\ tl' = tl) /\
  (g_context_stack_top tl = NARWHALYZER_MAX_NESTING_DEPTH - 1 ->
   r = -1 /\ tl' = tl /\ g_sections g' = g_sections g) /\
  (0 <= idx < g_section_count g ->
   g_context_stack_top tl < NARWHALYZER_MAX_NESTING_DEPTH - 1 ->
   r = g_context_stack_top tl + 1 /\
   g_context_stack_top tl' = r /\
   context_at tl' r =
     mk_context idx now (if r >? 0 then r - 1 else -1) /\
   (forall i, i <> r -> context_at tl' i = context_at tl i) /\
   length (g_context_stack tl') = length (g_context_stack tl) /\
   depth (section_at g' idx) = r).
Proof.
  intros Hlen Htop Hslen Hcnt. unfold __narwhalyzer_section_enter.
  destruct (Z.ltb_spec idx 0) as [Hneg|Hnn]; cbn [orb].
  { repeat split; try reflexivity; intros; lia. }
  destruct (Z.geb_spec idx (g_section_count g)) as [Hge|Hlt].
  { repeat split; try reflexivity; intros; lia. }
  destruct (Z.geb_spec (g_context_stack_top tl + 1)
                       NARWHALYZER_MAX_NESTING_DEPTH) as [Hfull|Hroom].
  - split; [intros; lia|]. split; [|intros; lia].
    intros _. split; [reflexivity|]. split; [|reflexivity].
    destruct tl as [st tp]; cbn in *. f_equal. lia.
  - split; [intros; lia|]. split; [intros; lia|].
    intros _ _. cbn [g_context_stack_top g_context_stack].
    split; [reflexivity|]. split; [reflexivity|].
    unfold context_at; cbn [g_context_stack].
    split; [apply array_get_set_eq; lia|].
    split; [intros i Hi; apply array_get_set_ne; lia|].
    split; [apply length_array_set|].
    unfold section_at, set_g_sections; cbn [g_sections].
    rewrite array_get_set_eq by lia. reflexivity.
Qed.

(** ** section_exit, one call *)

Lemma update_min_fields (e : Z) (s : narwhalyzer_section_stats_t) :
  min_time_ns (update_min e s) = Z.min (min_time_ns s) e /\
  max_time_ns (update_min e s) = max_time_ns s /\
  cumulative_time_ns (update_min e s) = cumulative_time_ns s /\
  entry_count (update_min e s) = entry_count s /\
  parent_index (update_min e s) = parent_index s /\
  (name (update_min e s), file (update_min e s), line (update_min e s))
  = (name s, file s, line s).
Proof.
  unfold update_min. destruct (Z.ltb_spec e (min_time_ns s)); cbn;
    repeat split; lia.
Qed.

Lemma update_max_fields (e : Z) (s : narwhalyzer_section_stats_t) :
  max_time_ns (update_max e s) = Z.max (max_time_ns s) e /\
  min_time_ns (update_max e s) = min_time_ns s /\
  cumulative_time_ns (update_max e s) = cumulative_time_ns s /\
  entry_count (update_max e s) = entry_count s /\
  parent_index (update_max e s) = parent_index s /\
  (name (update_max e s), file (update_max e s), line (update_max e s))
  = (name s, file s, line s).
Proof.
  unfold update_max. destruct (Z.gtb_spec e (max_time_ns s)); cbn;
    repeat split; lia.
Qed.

Lemma exited_section_fields (e : Z) (s : narwhalyzer_section_stats_t) :
  cumulative_time_ns (exited_section e s)
    = wrap64 (cumulative_time_ns s + e) /\
  min_time_ns (exited_section e s) = Z.min (min_time_ns s) e /\
  max_time_ns (exited_section e s) = Z.max (max_time_ns s) e /\
  entry_count (exited_section e s) = entry_count s /\
  parent_index (exited_section e s) = parent_index s /\
  (name (exited_section e s), file (exited_section e s),
   line (exited_section e s)) = (name s, file s, line s).
Proof.
  unfold exited_section.
  set (s1 := set_cumulative_time_ns _ s).
  destruct (update_max_fields e (update_min e s1))
    as (Hx1 & Hx2 & Hx3 & Hx4 & Hx5 & Hx6).
  destruct (update_min_fields e s1) as (Hn1 & Hn2 & Hn3 & Hn4 & Hn5 & Hn6).
  rewrite Hx1, Hx2, Hx3, Hx4, Hx5, Hx6, Hn1, Hn2, Hn3, Hn4, Hn5, Hn6.
  subst s1. cbn. repeat split; reflexivity.
Qed.

Lemma section_exit_out_of_range (now ctx : Z) (g : globals) (tl : thread_local) :
  ctx < 0 \/ g_context_stack_top tl < ctx ->
  __narwhalyzer_section_exit now ctx g tl = (g, tl).
Proof.
  intros H. unfold __narwhalyzer_section_exit.
  destruct (Z.ltb_spec ctx 0); cbn [orb]; [reflexivity|].
  destruct (Z.gtb_spec ctx (g_context_stack_top tl)); [reflexivity|lia].
Qed.

Lemma section_exit_in_range (now ctx : Z) (g : globals) (tl : thread_local) :
  0 <= ctx <= g_context_stack_top tl ->
  __narwhalyzer_section_exit now ctx g tl =
  let c := context_at tl ctx in
  (set_g_sections
     (array_set (g_sections g) (section_index c)
        (exited_section (wrap64 (now - start_time_ns c))
                        (section_at g (section_index c)))) g,
   mk_thread_local (g_context_stack tl)
     (if ctx =? g_context_stack_top tl
      then g_context_stack_top tl - 1 else g_context_stack_top tl)).
Proof.
  intros H. unfold __narwhalyzer_section_exit.
  destruct (Z.ltb_spec ctx 0); cbn [orb]; [lia|].
  destruct (Z.gtb_spec ctx (g_context_stack_top tl)); [lia|].
  cbv zeta. unfold exited_section, section_at, context_at.
  destruct (ctx =? g_context_stack_top tl); [reflexivity|].
  destruct tl; reflexivity.
Qed.

(** C7.  [section_exit] changes nothing at all for a context id below 0 or
    above the top of the calling thread's stack.  For an id in range it never
    writes a stack cell; it lowers the top by one exactly when the id is the
    top and leaves it alone otherwise; it changes no section other than the
    one recorded in the exited context; and in that section it adds the
    elapsed time to the cumulative time and folds it into the minimum and
    the maximum, leaving the entry count, the parent and the identity. *)
Theorem section_exit_result (now ctx : Z) (g : globals) (tl : thread_local) :
  let '(g', tl') := __narwhalyzer_section_exit now ctx g tl in
  (ctx < 0 \/ g_context_stack_top tl < ctx -> g' = g /\ tl' = tl) /\
  (0 <= ctx <= g_context_stack_top tl ->
   let c := context_at tl ctx in
   let elapsed := wrap64 (now - start_time_ns c) in
   g_context_stack tl' = g_context_stack tl /\
   g_context_stack_top tl' =
     (if ctx =? g_context_stack_top tl
      then g_context_stack_top tl - 1 else g_context_stack_top tl) /\
   ctx - 1 <= g_context_stack_top tl' /\
   g_section_count g' = g_section_count g /\
   (forall j, j <> section_index c -> section_at g' j = section_at g j) /\
   (0 <= section_index c < Z.of_nat (length (g_sections g)) ->
    let s := section_at g (section_index c) in
    let s' := section_at g' (section_index c) in
    cumulative_time_ns s' = wrap64 (cumulative_time_ns s + elapsed) /\
    min_time_ns s' = Z.min (min_time_ns s) elapsed /\
    max_time_ns s' = Z.max (max_time_ns s) elapsed /\
    entry_count s' = entry_count s /\
    parent_index s' = parent_index s /\
    (name s', file s', line s') = (name s, file s, line s))).
Proof.
  destruct (Z_lt_le_dec ctx 0) as [Hneg|Hnn];
    [|destruct (Z_lt_le_dec (g_context_stack_top tl) ctx) as [Hgt|Hle]].
  - rewrite section_exit_out_of_range by lia.
    split; [intros; split; reflexivity|intros; lia].
  - rewrite section_exit_out_of_range by lia.
    split; [intros; split; reflexivity|intros; lia].
  - rewrite section_exit_in_range by lia. cbv zeta.
    split; [intros; lia|]. intros _. cbn [g_context_stack g_context_stack_top].
    split; [reflexivity|]. split; [reflexivity|].
    split; [destruct (Z.eqb_spec ctx (g_context_stack_top tl)); lia|].
    split; [reflexivity|].
    split.
    + intros j Hj. apply section_at_set_ne. congruence.
    + intros Hin. rewrite section_at_set_eq by exact Hin.
      apply exited_section_fields.
Qed.

(** ** The registration loop *)

Lemma section_matches_iff (a_name : string) (a_file : c_string) (a_line : Z)
      (s : narwhalyzer_section_stats_t) :
  section_matches a_name a_file a_line s = true <->
  a_file <> None /\ triple_of s = (Some a_name, a_file, a_line).
Proof.
  unfold section_matches, triple_of, strcmp_eq.
  destruct s as [nm fl ln ec cu mn mx pa de]; cbn.
  destruct (Z.eqb_spec ln a_line) as [Hl|Hl]; cbn [andb].
  2:{ split; [discriminate|]. intros [_ H]. congruence. }
  destruct fl as [fs|], a_file as [fa|]; cbn.
  - destruct (String.eqb_spec fs fa) as [Hf|Hf]; cbn [andb].
    + destruct nm as [ns|].
      * destruct (String.eqb_spec ns a_name) as [Hn|Hn].
        -- split; [|reflexivity]. intros _. subst. split; [discriminate|reflexivity].
        -- split; [discriminate|]. intros [_ H]. congruence.
      * split; [discriminate|]. intros [_ H]. congruence.
    + split; [discriminate|]. intros [_ H]. congruence.
  - split; [discriminate|]. intros [H _]. congruence.
  - split; [discriminate|]. intros [_ H]. congruence.
  - split; [discriminate|]. intros [H _]. congruence.
Qed.

Lemma section_matches_null_file (a_name : string) (a_line : Z)
      (s : narwhalyzer_section_stats_t) :
  section_matches a_name None a_line s = false.
Proof.
  unfold section_matches. destruct (line s =? a_line), (file s); reflexivity.
Qed.

Lemma section_at_lookup (g : globals) (i : nat) (s : narwhalyzer_section_stats_t) :
  g_sections g !! i = Some s -> section_at g (Z.of_nat i) = s.
Proof.
  intros H. unfold section_at, array_get.
  destruct (Z.ltb_spec (Z.of_nat i) 0); [lia|].
  rewrite Nat2Z.id, H. reflexivity.
Qed.

Lemma lookup_section_at (g : globals) (i : Z) :
  0 <= i < Z.of_nat (length (g_sections g)) ->
  g_sections g !! Z.to_nat i = Some (section_at g i).
Proof.
  intros H. unfold section_at, array_get.
  destruct (Z.ltb_spec i 0); [lia|].
  destruct (lookup_lt_is_Some_2 (g_sections g) (Z.to_nat i)) as [s Hs]; [lia|].
  rewrite Hs. reflexivity.
Qed.

Lemma find_section_Some (a_name : string) (a_file : c_string) (a_line : Z)
      (g : globals) (i : Z) :
  find_section a_name a_file a_line g = Some i ->
  0 <= i < g_section_count g /\
  section_matches a_name a_file a_line (section_at g i) = true /\
  forall j, 0 <= j < i ->
            section_matches a_name a_file a_line (section_at g j) = false.
Proof.
  unfold find_section.
  destruct (list_find _ _) as [[k s]|] eqn:Hfind; [|discriminate].
  intros [= <-]. apply list_find_Some in Hfind as (Hk & Hm & Hfirst).
  apply lookup_take_Some in Hk as [Hk Hlt].
  split; [lia|]. split.
  - rewrite (section_at_lookup _ _ _ Hk). exact Hm.
  - intros j Hj.
    destruct (lookup_lt_is_Some_2 (g_sections g) (Z.to_nat j)) as [sj Hsj].
    { apply lookup_lt_Some in Hk. lia. }
    specialize (Hfirst (Z.to_nat j) sj).
    rewrite lookup_take_lt in Hfirst by lia.
    specialize (Hfirst Hsj ltac:(lia)).
    replace j with (Z.of_nat (Z.to_nat j)) by lia.
    rewrite (section_at_lookup _ _ _ Hsj).
    apply not_true_is_false, Hfirst.
Qed.

Lemma find_section_None (a_name : string) (a_file : c_string) (a_line : Z)
      (g : globals) :
  (Z.to_nat (g_section_count g) <= length (g_sections g))%nat ->
  find_section a_name a_file a_line g = None <->
  forall j, 0 <= j < g_section_count g ->
            section_matches a_name a_file a_line (section_at g j) = false.
Proof.
  intros Hlen. unfold find_section.
  destruct (list_find _ _) as [[k s]|] eqn:Hfind.
  - split; [discriminate|]. intros Hall.
    apply list_find_Some in Hfind as (Hk & Hm & _).
    apply lookup_take_Some in Hk as [Hk Hlt].
    specialize (Hall (Z.of_nat k) ltac:(lia)).
    rewrite (section_at_lookup _ _ _ Hk) in Hall. congruence.
  - split; [|reflexivity]. intros _ j Hj.
    apply list_find_None in Hfind.
    rewrite Forall_lookup in Hfind.
    specialize (Hfind (Z.to_nat j) (section_at g j)).
    rewrite lookup_take_lt in Hfind by lia.
    apply not_true_is_false, Hfind, lookup_section_at. lia.
Qed.

Lemma find_section_null_file (a_name : string) (a_line : Z) (g : globals) :
  find_section a_name None a_line g = None.
Proof.
  unfold find_section.
  destruct (list_find _ _) as [[k s]|] eqn:Hfind; [|reflexivity].
  apply list_find_Some in Hfind as (_ & Hm & _).
  rewrite section_matches_null_file in Hm. discriminate.
Qed.

(** ** The three outcomes of section_enter, as equations *)

Lemma section_enter_bad_index (now idx : Z) (g : globals) (tl : thread_local) :
  idx < 0 \/ g_section_count g <= idx ->
  __narwhalyzer_section_enter now idx g tl = (-1, g, tl).
Proof.
  intros H. unfold __narwhalyzer_section_enter.
  destruct (Z.ltb_spec idx 0); cbn [orb]; [reflexivity|].
  destruct (Z.geb_spec idx (g_section_count g)); [reflexivity|lia].
Qed.

Lemma section_enter_full (now idx : Z) (g : globals) (tl : thread_local) :
  0 <= idx < g_section_count g ->
  NARWHALYZER_MAX_NESTING_DEPTH <= g_context_stack_top tl + 1 ->
  __narwhalyzer_section_enter now idx g tl =
  (-1, fprintf_stderr warn_max_nesting g, tl).
Proof.
  intros Hi Hfull. unfold __narwhalyzer_section_enter.
  destruct (Z.ltb_spec idx 0); cbn [orb]; [lia|].
  destruct (Z.geb_spec idx (g_section_count g)); [lia|].
  destruct (Z.geb_spec (g_context_stack_top tl + 1)
                       NARWHALYZER_MAX_NESTING_DEPTH); [|lia].
  destruct tl as [st tp]; cbn. do 2 f_equal. lia.
Qed.

Lemma section_enter_pushed (now idx : Z) (g : globals) (tl : thread_local) :
  0 <= idx < g_section_count g ->
  g_context_stack_top tl + 1 < NARWHALYZER_MAX_NESTING_DEPTH ->
  __narwhalyzer_section_enter now idx g tl =
  let ctx_idx := g_context_stack_top tl + 1 in
  (ctx_idx,
   set_g_sections
     (array_set (g_sections g) idx
        (entered_section ctx_idx
           (section_index (context_at tl (g_context_stack_top tl)))
           (section_at g idx))) g,
   mk_thread_local
     (array_set (g_context_stack tl) ctx_idx
        (mk_context idx now (if ctx_idx >? 0 then ctx_idx - 1 else -1)))
     ctx_idx).
Proof.
  intros Hi Hroom. unfold __narwhalyzer_section_enter.
  destruct (Z.ltb_spec idx 0); cbn [orb]; [lia|].
  destruct (Z.geb_spec idx (g_section_count g)); [lia|].
  destruct (Z.geb_spec (g_context_stack_top tl + 1)
                       NARWHALYZER_MAX_NESTING_DEPTH); [lia|].
  cbv zeta. unfold entered_section, section_at, context_at.
  rewrite array_get_set_ne by lia.
  replace (g_context_stack_top tl + 1 - 1) with (g_context_stack_top tl) by lia.
  reflexivity.
Qed.

Lemma entered_section_fields (c p : Z) (s : narwhalyzer_section_stats_t) :
  entry_count (entered_section c p s) = wrap64 (entry_count s + 1) /\
  cumulative_time_ns (entered_section c p s) = cumulative_time_ns s /\
  min_time_ns (entered_section c p s) = min_time_ns s /\
  max_time_ns (entered_section c p s) = max_time_ns s /\
  parent_index (entered_section c p s) =
    (if (parent_index s =? -1) && (c >? 0) then p else parent_index s) /\
  triple_of (entered_section c p s) = triple_of s.
Proof.
  unfold entered_section. cbn.
  destruct ((parent_index s =? -1) && (c >? 0)); cbn; repeat split.
Qed.

(** ** The invariant is kept by every call *)

Lemma section_at_update (g : globals) (i j : Z) (x : narwhalyzer_section_stats_t) :
  0 <= i < Z.of_nat (length (g_sections g)) ->
  section_at (set_g_sections (array_set (g_sections g) i x) g) j
  = if Z.eq_dec j i then x else section_at g j.
Proof.
  intros Hi. destruct (Z.eq_dec j i) as [->|Hne].
  - apply section_at_set_eq, Hi.
  - apply section_at_set_ne. congruence.
Qed.

Lemma globals_ok_update (g : globals) (idx : Z) (s' : narwhalyzer_section_stats_t) :
  globals_ok g ->
  0 <= idx < g_section_count g ->
  triple_of s' = triple_of (section_at g idx) ->
  -1 <= parent_index s' < g_section_count g ->
  globals_ok (set_g_sections (array_set (g_sections g) idx s') g).
Proof.
  intros [Hlen Hcnt Hinit Hname Huniq Hpar] Hidx Htriple Hp.
  assert (Hin : 0 <= idx < Z.of_nat (length (g_sections g))) by lia.
  assert (Htr : forall j,
    triple_of (section_at (set_g_sections (array_set (g_sections g) idx s') g) j)
    = triple_of (section_at g j)).
  { intros j. rewrite section_at_update by exact Hin.
    destruct (Z.eq_dec j idx) as [->|]; [exact Htriple|reflexivity]. }
  constructor; cbn [g_sections g_section_count g_initialized set_g_sections].
  - rewrite length_array_set. exact Hlen.
  - exact Hcnt.
  - exact Hinit.
  - intros i Hi. specialize (Htr i). specialize (Hname i Hi).
    unfold triple_of in Htr. congruence.
  - intros i j Hi Hj Hf Ht. apply Huniq; [exact Hi|exact Hj| |].
    + pose proof (Htr i) as Hti. unfold triple_of in Hti. congruence.
    + rewrite <- (Htr i), <- (Htr j). exact Ht.
  - intros i Hi. rewrite section_at_update by exact Hin.
    destruct (Z.eq_dec i idx); [exact Hp|apply Hpar, Hi].
Qed.

Lemma thread_ok_same_count (g g' : globals) (tl : thread_local) :
  g_section_count g <= g_section_count g' ->
  thread_ok g tl -> thread_ok g' tl.
Proof.
  intros Hc [Hl Ht Hcells]. constructor; [exact Hl|exact Ht|].
  intros i Hi. specialize (Hcells i Hi). lia.
Qed.

Lemma init_unfold (now : Z) (g : globals) :
  (if g_initialized g =? 0 then __narwhalyzer_init now g else g)
  = __narwhalyzer_init now g.
Proof.
  unfold __narwhalyzer_init. destruct (g_initialized g =? 0); reflexivity.
Qed.

Lemma init_effect (now : Z) (g : globals) :
  globals_ok g ->
  globals_ok (__narwhalyzer_init now g) /\
  g_initialized (__narwhalyzer_init now g) <> 0 /\
  g_section_count (__narwhalyzer_init now g) = g_section_count g /\
  g_stderr (__narwhalyzer_init now g) = g_stderr g /\
  (forall i, 0 <= i < g_section_count g ->
             section_at (__narwhalyzer_init now g) i = section_at g i) /\
  (g_initialized g <> 0 -> __narwhalyzer_init now g = g).
Proof.
  intros Hok. unfold __narwhalyzer_init.
  destruct (Z.eqb_spec (g_initialized g) 0) as [Hz|Hnz].
  - pose proof (ok_init g Hok Hz) as Hc0. cbn.
    split; [|split; [lia|split; [reflexivity|split; [reflexivity|split]]]].
    + constructor; cbn; try (intros; lia).
      * apply length_replicate.
      * destruct Hok. lia.
    + intros i Hi. lia.
    + intros Hne. lia.
  - split; [exact Hok|]. split; [exact Hnz|].
    repeat split; intros; reflexivity.
Qed.

(** ** The three outcomes of register_section, as equations *)

Lemma register_found (now : Z) (a_name : string) (a_file : c_string)
      (a_line : Z) (g : globals) (i : Z) :
  find_section a_name a_file a_line (__narwhalyzer_init now g) = Some i ->
  __narwhalyzer_register_section now a_name a_file a_line g
  = (i, __narwhalyzer_init now g).
Proof.
  intros H. unfold __narwhalyzer_register_section.
  rewrite init_unfold. cbv zeta. rewrite H. reflexivity.
Qed.

Lemma register_new (now : Z) (a_name : string) (a_file : c_string)
      (a_line : Z) (g : globals) :
  let g1 := __narwhalyzer_init now g in
  find_section a_name a_file a_line g1 = None ->
  g_section_count g1 < NARWHALYZER_MAX_SECTIONS ->
  __narwhalyzer_register_section now a_name a_file a_line g
  = (g_section_count g1,
     set_g_sections
       (array_set (g_sections g1) (g_section_count g1)
                  (new_section a_name a_file a_line))
       (set_g_section_count (g_section_count g1 + 1) g1)).
Proof.
  intros g1 H Hlt. unfold __narwhalyzer_register_section.
  rewrite init_unfold. fold g1. cbv zeta. rewrite H.
  destruct (Z.geb_spec (g_section_count g1) NARWHALYZER_MAX_SECTIONS); [lia|].
  reflexivity.
Qed.

Lemma register_full (now : Z) (a_name : string) (a_file : c_string)
      (a_line : Z) (g : globals) :
  let g1 := __narwhalyzer_init now g in
  find_section a_name a_file a_line g1 = None ->
  NARWHALYZER_MAX_SECTIONS <= g_section_count g1 ->
  __narwhalyzer_register_section now a_name a_file a_line g
  = (-1, fprintf_stderr warn_max_sections g1).
Proof.
  intros g1 H Hge. unfold __narwhalyzer_register_section.
  rewrite init_unfold. fold g1. cbv zeta. rewrite H.
  destruct (Z.geb_spec (g_section_count g1) NARWHALYZER_MAX_SECTIONS); [|lia].
  f_equal. unfold fprintf_stderr, set_g_section_count. cbn.
  replace (g_section_count g1 + 1 - 1) with (g_section_count g1) by lia.
  reflexivity.
Qed.

Lemma globals_ok_stderr (msg : string) (g : globals) :
  globals_ok g -> globals_ok (fprintf_stderr msg g).
Proof. intros []. constructor; assumption. Qed.

Lemma globals_ok_new_section (a_name : string) (a_file : c_string)
      (a_line : Z) (g : globals) :
  globals_ok g ->
  g_initialized g <> 0 ->
  find_section a_name a_file a_line g = None ->
  g_section_count g < NARWHALYZER_MAX_SECTIONS ->
  globals_ok
    (set_g_sections
       (array_set (g_sections g) (g_section_count g)
                  (new_section a_name a_file a_line))
       (set_g_section_count (g_section_count g + 1) g)).
Proof.
  intros Hok Hinit Hnone Hlt.
  pose proof Hok as [Hlen Hcnt _ Hname Huniq Hpar].
  rewrite find_section_None in Hnone by lia.
  set (g' := set_g_sections _ _).
  assert (Hat : forall j, section_at g' j =
            if Z.eq_dec j (g_section_count g)
            then new_section a_name a_file a_line else section_at g j).
  { intros j. subst g'. unfold section_at. cbn.
    destruct (Z.eq_dec j (g_section_count g)) as [->|Hne].
    - apply array_get_set_eq. lia.
    - apply array_get_set_ne. congruence. }
  constructor; subst g'; cbn [g_sections g_section_count g_initialized
                               set_g_sections set_g_section_count].
  - rewrite length_array_set. exact Hlen.
  - lia.
  - intros Hz. contradiction.
  - intros i Hi. rewrite Hat.
    destruct (Z.eq_dec i (g_section_count g)); [discriminate|].
    apply Hname. lia.
  - intros i j Hi Hj. rewrite !Hat.
    destruct (Z.eq_dec i (g_section_count g)) as [->|Hni],
             (Z.eq_dec j (g_section_count g)) as [->|Hnj].
    + reflexivity.
    + intros Hf Ht. exfalso.
      specialize (Hnone j ltac:(lia)).
      apply not_true_iff_false in Hnone. apply Hnone.
      apply section_matches_iff. split; [exact Hf|]. symmetry. exact Ht.
    + intros Hf Ht. exfalso.
      specialize (Hnone i ltac:(lia)).
      apply not_true_iff_false in Hnone. apply Hnone.
      apply section_matches_iff. split; [|exact Ht].
      unfold triple_of in Ht. cbn in Ht. congruence.
    + intros Hf Ht. apply Huniq; [lia|lia|exact Hf|exact Ht].
  - intros i Hi. rewrite Hat.
    destruct (Z.eq_dec i (g_section_count g)); [cbn; lia|].
    specialize (Hpar i ltac:(lia)). lia.
Qed.

(** Registration keeps the invariant, never lowers the count, and leaves
    every section that was registered before as it was. *)
Lemma register_effect (now : Z) (a_name : string) (a_file : c_string)
      (a_line : Z) (g : globals) :
  globals_ok g ->
  let '(r, g') := __narwhalyzer_register_section now a_name a_file a_line g in
  globals_ok g' /\
  g_initialized g' <> 0 /\
  g_section_count g <= g_section_count g' /\
  (forall i, 0 <= i < g_section_count g -> section_at g' i = section_at g i).
Proof.
  intros Hok.
  destruct (init_effect now g Hok) as (Hok1 & Hi1 & Hc1 & _ & Hs1 & _).
  set (g1 := __narwhalyzer_init now g) in *.
  pose proof Hok1 as [Hlen Hcnt _ _ _ _].
  destruct (find_section a_name a_file a_line g1) as [i|] eqn:Hfind.
  - rewrite (register_found _ _ _ _ _ _ Hfind). fold g1.
    split; [exact Hok1|]. split; [exact Hi1|]. split; [lia|exact Hs1].
  - destruct (Z_lt_le_dec (g_section_count g1) NARWHALYZER_MAX_SECTIONS)
      as [Hlt|Hge].
    + pose proof (register_new now a_name a_file a_line g) as Hnew.
      cbv zeta in Hnew. rewrite (Hnew Hfind Hlt). fold g1.
      split; [apply globals_ok_new_section; assumption|].
      split; [exact Hi1|]. split; [cbn; lia|].
      intros i Hi. rewrite <- (Hs1 i Hi). unfold section_at. cbn.
      apply array_get_set_ne. lia.
    + pose proof (register_full now a_name a_file a_line g) as Hfull.
      cbv zeta in Hfull. rewrite (Hfull Hfind Hge). fold g1.
      split; [apply globals_ok_stderr, Hok1|].
      split; [exact Hi1|]. split; [cbn; lia|exact Hs1].
Qed.

Lemma enter_effect (now idx : Z) (g : globals) (tl : thread_local) :
  globals_ok g -> thread_ok g tl ->
  let '(r, g', tl') := __narwhalyzer_section_enter now idx g tl in
  globals_ok g' /\ thread_ok g' tl' /\
  g_section_count g' = g_section_count g /\
  g_initialized g' = g_initialized g.
Proof.
  intros Hok Htl.
  pose proof Hok as [Hlen Hcnt _ _ _ Hpar].
  pose proof Htl as [Hslen Htop Hcells].
  destruct (Z_lt_le_dec idx 0) as [Hneg|Hnn];
    [|destruct (Z_le_gt_dec (g_section_count g) idx) as [Hge|Hlt]].
  - rewrite section_enter_bad_index by lia.
    split; [exact Hok|split; [exact Htl|split; reflexivity]].
  - rewrite section_enter_bad_index by lia.
    split; [exact Hok|split; [exact Htl|split; reflexivity]].
  - destruct (Z_lt_le_dec (g_context_stack_top tl + 1)
                          NARWHALYZER_MAX_NESTING_DEPTH) as [Hroom|Hfull].
    + rewrite section_enter_pushed by lia. cbv zeta.
      set (e := entered_section _ _ _).
      destruct (entered_section_fields
                  (g_context_stack_top tl + 1)
                  (section_index (context_at tl (g_context_stack_top tl)))
                  (section_at g idx)) as (_ & _ & _ & _ & Hp & Ht).
      fold e in Hp, Ht.
      split; [|split; [|split; reflexivity]].
      * apply globals_ok_update; [exact Hok|lia|exact Ht|].
        rewrite Hp.
        destruct (Z.eqb_spec (parent_index (section_at g idx)) (-1));
          cbn [andb]; [|apply Hpar; lia].
        destruct (Z.gtb_spec (g_context_stack_top tl + 1) 0);
          [|apply Hpar; lia].
        specialize (Hcells (g_context_stack_top tl) ltac:(lia)). lia.
      * constructor; cbn [g_context_stack g_context_stack_top
                            g_section_count set_g_sections].
        -- rewrite length_array_set. exact Hslen.
        -- lia.
        -- intros i Hi. unfold context_at. cbn [g_context_stack].
           destruct (Z.eq_dec i (g_context_stack_top tl + 1)) as [->|Hne].
           ++ rewrite array_get_set_eq by lia. cbn. lia.
           ++ rewrite array_get_set_ne by congruence.
              apply Hcells. lia.
    + rewrite section_enter_full by lia.
      split; [apply globals_ok_stderr, Hok|].
      split; [|split; reflexivity].
      apply (thread_ok_same_count g); [cbn; lia|exact Htl].
Qed.

Lemma exit_effect (now ctx : Z) (g : globals) (tl : thread_local) :
  globals_ok g -> thread_ok g tl ->
  let '(g', tl') := __narwhalyzer_section_exit now ctx g tl in
  globals_ok g' /\ thread_ok g' tl' /\
  g_section_count g' = g_section_count g /\
  g_initialized g' = g_initialized g.
Proof.
  intros Hok Htl.
  pose proof Hok as [Hlen Hcnt _ _ _ Hpar].
  pose proof Htl as [Hslen Htop Hcells].
  destruct (Z_lt_le_dec ctx 0) as [Hneg|Hnn];
    [|destruct (Z_lt_le_dec (g_context_stack_top tl) ctx) as [Hgt|Hle]].
  - rewrite section_exit_out_of_range by lia.
    split; [exact Hok|split; [exact Htl|split; reflexivity]].
  - rewrite section_exit_out_of_range by lia.
    split; [exact Hok|split; [exact Htl|split; reflexivity]].
  - rewrite section_exit_in_range by lia. cbv zeta.
    specialize (Hcells ctx ltac:(lia)) as Hc.
    destruct (exited_section_fields
                (wrap64 (now - start_time_ns (context_at tl ctx)))
                (section_at g (section_index (context_at tl ctx))))
      as (_ & _ & _ & _ & Hp & Ht).
    split; [|split; [|split; reflexivity]].
    + apply globals_ok_update; [exact Hok|exact Hc|exact Ht|].
      rewrite Hp. apply Hpar, Hc.
    + constructor; cbn [g_context_stack g_context_stack_top
                          g_section_count set_g_sections].
      * exact Hslen.
      * destruct (Z.eqb_spec ctx (g_context_stack_top tl)); lia.
      * intros i Hi. unfold context_at. cbn [g_context_stack].
        apply Hcells.
        destruct (Z.eqb_spec ctx (g_context_stack_top tl)); lia.
Qed.

(** ** Worlds *)

(** Both capacities are array sizes. *)
Hypothesis MAX_SECTIONS_pos : 0 < NARWHALYZER_MAX_SECTIONS.
Hypothesis MAX_NESTING_DEPTH_pos : 0 < NARWHALYZER_MAX_NESTING_DEPTH.

Lemma thread_of_insert (g g' : globals) (m : gmap nat thread_local)
      (t t' : nat) (tl : thread_local) :
  thread_of (mk_world g' (<[t := tl]> m)) t'
  = if decide (t' = t) then tl else thread_of (mk_world g m) t'.
Proof.
  unfold thread_of. cbn. destruct (decide (t' = t)) as [->|Hne].
  - rewrite lookup_insert_eq. reflexivity.
  - rewrite lookup_insert_ne by congruence. reflexivity.
Qed.

Lemma initial_world_ok : world_ok initial_world.
Proof.
  split.
  - constructor; cbn; try (intros; lia).
    apply length_replicate.
  - intros t. unfold thread_of. cbn. rewrite lookup_empty. cbn.
    constructor; cbn; try (intros; lia).
    apply length_replicate.
Qed.

Lemma step_ok (c : call) (w : world) :
  world_ok w -> world_ok (snd (step c w)).
Proof.
  intros [Hg Ht]. destruct w as [g m]. cbn [w_globals] in *.
  destruct c as [now|now nm fl ln|t now idx|t now ctx]; cbn [step w_globals w_threads].
  - destruct (init_effect now g Hg) as (Hok & _ & Hc & _).
    split; [exact Hok|]. intros t. cbn.
    apply (thread_ok_same_count g); [lia|apply Ht].
  - pose proof (register_effect now nm fl ln g Hg) as He.
    destruct (__narwhalyzer_register_section now nm fl ln g) as [r g'].
    destruct He as (Hok & _ & Hc & _).
    split; [exact Hok|]. intros t. cbn.
    apply (thread_ok_same_count g); [lia|apply Ht].
  - pose proof (enter_effect now idx g _ Hg (Ht t)) as He.
    destruct (__narwhalyzer_section_enter now idx g (thread_of (mk_world g m) t))
      as [[r g'] tl'].
    destruct He as (Hok & Htl & Hc & _).
    split; [exact Hok|]. intros t'. cbn [snd w_globals].
    rewrite (thread_of_insert g).
    destruct (decide (t' = t)); [exact Htl|].
    apply (thread_ok_same_count g); [lia|apply Ht].
  - pose proof (exit_effect now ctx g _ Hg (Ht t)) as He.
    destruct (__narwhalyzer_section_exit now ctx g (thread_of (mk_world g m) t))
      as [g' tl'].
    destruct He as (Hok & Htl & Hc & _).
    split; [exact Hok|]. intros t'. cbn [snd w_globals].
    rewrite (thread_of_insert g).
    destruct (decide (t' = t)); [exact Htl|].
    apply (thread_ok_same_count g); [lia|apply Ht].
Qed.

Lemma run_cons (c : call) (cs : list call) (w : world) :
  run (c :: cs) w =
  ((c, fst (step c w)) :: fst (run cs (snd (step c w))),
   snd (run cs (snd (step c w)))).
Proof.
  cbn [run]. destruct (step c w) as [r w1]. cbn [fst snd].
  destruct (run cs w1). reflexivity.
Qed.

Lemma run_ok (cs : list call) (w : world) :
  world_ok w -> world_ok (snd (run cs w)).
Proof.
  revert w. induction cs as [|c cs IH]; intros w Hw; [exact Hw|].
  rewrite run_cons. cbn [snd]. apply IH, step_ok, Hw.
Qed.

Lemma reachable_ok (w : world) : reachable w -> world_ok w.
Proof. intros [cs <-]. apply run_ok, initial_world_ok. Qed.

(** ** Reasoning along a run *)

Lemma run_app (cs1 cs2 : list call) (w : world) :
  run (cs1 ++ cs2) w =
  (fst (run cs1 w) ++ fst (run cs2 (snd (run cs1 w))),
   snd (run cs2 (snd (run cs1 w)))).
Proof.
  revert w. induction cs1 as [|c cs1 IH]; intros w.
  - cbn. destruct (run cs2 w). reflexivity.
  - rewrite <- app_comm_cons, !run_cons, IH. reflexivity.
Qed.

Lemma run_snoc (cs : list call) (c : call) (w : world) :
  run (cs ++ [c]) w =
  (fst (run cs w) ++ [(c, fst (step c (snd (run cs w))))],
   snd (step c (snd (run cs w)))).
Proof. rewrite run_app, run_cons. reflexivity. Qed.

(** Induction over the calls made so far: a property of the log and the
    world that holds at process start and is kept by every call from a
    well-formed world holds after every run. *)
Lemma run_ind (J : list (call * option Z) -> world -> Prop) :
  J [] initial_world ->
  (forall log w c,
      world_ok w -> J log w ->
      J (log ++ [(c, fst (step c w))]) (snd (step c w))) ->
  forall cs, J (fst (run cs initial_world)) (snd (run cs initial_world)).
Proof.
  intros H0 Hstep cs. induction cs as [|c cs IH] using rev_ind; [exact H0|].
  rewrite run_snoc. cbn [fst snd].
  apply Hstep; [apply run_ok, initial_world_ok|exact IH].
Qed.

(** The sections after a call, cell by cell. *)
Lemma enter_section_at (now idx : Z) (g : globals) (tl : thread_local) :
  globals_ok g -> thread_ok g tl ->
  let '(r, g', tl') := __narwhalyzer_section_enter now idx g tl in
  forall i,
    section_at g' i =
    if Z.eq_dec i idx then
      if r <? 0 then section_at g i
      else entered_section r
             (section_index (context_at tl (g_context_stack_top tl)))
             (section_at g i)
    else section_at g i.
Proof.
  intros [Hlen Hcnt _ _ _ _] [_ Htop _].
  destruct (Z_lt_le_dec idx 0) as [Hneg|Hnn];
    [|destruct (Z_le_gt_dec (g_section_count g) idx) as [Hge|Hlt]].
  - rewrite section_enter_bad_index by lia. intros i.
    destruct (Z.eq_dec i idx); reflexivity.
  - rewrite section_enter_bad_index by lia. intros i.
    destruct (Z.eq_dec i idx); reflexivity.
  - destruct (Z_lt_le_dec (g_context_stack_top tl + 1)
                          NARWHALYZER_MAX_NESTING_DEPTH) as [Hroom|Hfull].
    + rewrite section_enter_pushed by lia. cbv zeta. intros i.
      rewrite section_at_update by lia.
      destruct (Z.eq_dec i idx) as [->|]; [|reflexivity].
      destruct (Z.ltb_spec (g_context_stack_top tl + 1) 0); [lia|reflexivity].
    + rewrite section_enter_full by lia. intros i.
      destruct (Z.eq_dec i idx); reflexivity.
Qed.

Lemma exit_section_at (now ctx : Z) (g : globals) (tl : thread_local) :
  globals_ok g -> thread_ok g tl ->
  let '(g', tl') := __narwhalyzer_section_exit now ctx g tl in
  forall i,
    section_at g' i =
    if Z.eq_dec i (section_index (context_at tl ctx)) then
      if (ctx <? 0) || (ctx >? g_context_stack_top tl) then section_at g i
      else exited_section
             (wrap64 (now - start_time_ns (context_at tl ctx)))
             (section_at g i)
    else section_at g i.
Proof.
  intros [Hlen Hcnt _ _ _ _] [_ Htop Hcells].
  destruct (Z.ltb_spec ctx 0) as [Hneg|Hnn]; cbn [orb].
  { rewrite section_exit_out_of_range by lia. intros i.
    destruct (Z.eq_dec i _); reflexivity. }
  destruct (Z.gtb_spec ctx (g_context_stack_top tl)) as [Hgt|Hle].
  { rewrite section_exit_out_of_range by lia. intros i.
    destruct (Z.eq_dec i _); reflexivity. }
  rewrite section_exit_in_range by lia. cbv zeta. intros i.
  specialize (Hcells ctx ltac:(lia)).
  rewrite section_at_update by lia.
  destruct (Z.eq_dec i _) as [->|]; reflexivity.
Qed.

(** No call lowers the section count, changes the identity of a registered
    section, or changes a parent that is already set. *)
Lemma step_frame (c : call) (w : world) :
  world_ok w ->
  let g := w_globals w in
  let g' := w_globals (snd (step c w)) in
  g_section_count g <= g_section_count g' /\
  (g_initialized g <> 0 -> g_initialized g' <> 0) /\
  forall i, 0 <= i < g_section_count g ->
    triple_of (section_at g' i) = triple_of (section_at g i) /\
    (parent_index (section_at g i) <> -1 ->
     parent_index (section_at g' i) = parent_index (section_at g i)).
Proof.
  intros [Hg Ht]. destruct w as [g m]. cbn [w_globals] in *.
  destruct c as [now|now nm fl ln|t now idx|t now ctx];
    cbn [step w_globals w_threads].
  - destruct (init_effect now g Hg) as (_ & Hi & Hc & _ & Hs & _).
    cbn [snd w_globals]. split; [lia|]. split; [intros _; exact Hi|].
    intros i Hi'. rewrite (Hs i Hi'). split; [reflexivity|intros _; reflexivity].
  - pose proof (register_effect now nm fl ln g Hg) as He.
    destruct (__narwhalyzer_register_section now nm fl ln g) as [r g'].
    destruct He as (_ & Hi & Hc & Hs). cbn [snd w_globals].
    split; [lia|]. split; [intros _; exact Hi|].
    intros i Hi'. rewrite (Hs i Hi'). split; [reflexivity|intros _; reflexivity].
  - pose proof (enter_effect now idx g _ Hg (Ht t)) as He.
    pose proof (enter_section_at now idx g _ Hg (Ht t)) as Hs.
    destruct (__narwhalyzer_section_enter now idx g (thread_of (mk_world g m) t))
      as [[r g'] tl'].
    destruct He as (_ & _ & Hc & Hi). cbn [snd w_globals].
    split; [lia|]. split; [congruence|].
    intros i Hi'. rewrite Hs.
    destruct (Z.eq_dec i idx) as [->|]; [|split; [reflexivity|intros _; reflexivity]].
    destruct (r <? 0); [split; [reflexivity|intros _; reflexivity]|].
    destruct (entered_section_fields r
                (section_index (context_at (thread_of (mk_world g m) t)
                   (g_context_stack_top (thread_of (mk_world g m) t))))
                (section_at g idx)) as (_ & _ & _ & _ & Hp & Htr).
    split; [exact Htr|]. intros Hset. rewrite Hp.
    destruct (Z.eqb_spec (parent_index (section_at g idx)) (-1));
      [contradiction|reflexivity].
  - pose proof (exit_effect now ctx g _ Hg (Ht t)) as He.
    pose proof (exit_section_at now ctx g _ Hg (Ht t)) as Hs.
    destruct (__narwhalyzer_section_exit now ctx g (thread_of (mk_world g m) t))
      as [g' tl'].
    destruct He as (_ & _ & Hc & Hi). cbn [snd w_globals].
    split; [lia|]. split; [congruence|].
    intros i Hi'. rewrite Hs.
    destruct (Z.eq_dec i _) as [->|]; [|split; [reflexivity|intros _; reflexivity]].
    destruct (_ || _); [split; [reflexivity|intros _; reflexivity]|].
    destruct (exited_section_fields
                (wrap64 (now - start_time_ns
                   (context_at (thread_of (mk_world g m) t) ctx)))
                (section_at g (section_index
                   (context_at (thread_of (mk_world g m) t) ctx))))
      as (_ & _ & _ & _ & Hp & Htr).
    split; [exact Htr|]. intros _. exact Hp.
Qed.

(** ** Registration *)

(** C8.  In a reachable state whose registry is full, registering a triple
    that no stored section has returns -1, leaves the section count at the
    capacity, appends the warning to the diagnostics, and leaves the section
    array as it was. *)
Theorem register_at_capacity (w : world) (now : Z) (a_name : string)
        (a_file : c_string) (a_line : Z) :
  reachable w ->
  g_section_count (w_globals w) = NARWHALYZER_MAX_SECTIONS ->
  (forall i, 0 <= i < NARWHALYZER_MAX_SECTIONS ->
             triple_of (section_at (w_globals w) i)
             <> (Some a_name, a_file, a_line)) ->
  let '(r, g') :=
    __narwhalyzer_register_section now a_name a_file a_line (w_globals w) in
  r = -1 /\
  g_section_count g' = NARWHALYZER_MAX_SECTIONS /\
  g_stderr g' = g_stderr (w_globals w) ++ [warn_max_sections] /\
  g_sections g' = g_sections (w_globals w).
Proof.
  intros Hreach Hfull Hdistinct.
  destruct (reachable_ok w Hreach) as [Hg _].
  set (g := w_globals w) in *.
  destruct (init_effect now g Hg) as (_ & _ & _ & _ & _ & Hsame).
  assert (Hinit : g_initialized g <> 0).
  { intros Hz. pose proof (ok_init g Hg Hz). lia. }
  specialize (Hsame Hinit).
  pose proof (register_full now a_name a_file a_line g) as Heq.
  cbv zeta in Heq. rewrite Hsame in Heq. rewrite Heq.
  - split; [reflexivity|]. split; [exact Hfull|]. split; reflexivity.
  - apply find_section_None; [destruct Hg; lia|].
    intros j Hj. apply not_true_is_false. intros Hm.
    apply section_matches_iff in Hm as [_ Hm].
    apply (Hdistinct j); [lia|exact Hm].
  - lia.
Qed.

(** C10.  With a null [file] the lookup of [register_section] matches no
    slot, whatever is stored; while a slot is free the call takes the next
    one, so calling again with the same name, null file and line returns the
    next index and not the same one; once the registry is full it returns
    -1. *)
Theorem register_null_file (w : world) (now now' : Z) (a_name : string)
        (a_line : Z) :
  reachable w ->
  let g := w_globals w in
  let '(r, g') := __narwhalyzer_register_section now a_name None a_line g in
  let '(r', g'') := __narwhalyzer_register_section now' a_name None a_line g' in
  find_section a_name None a_line g = None /\
  (g_section_count g < NARWHALYZER_MAX_SECTIONS ->
   r = g_section_count g /\
   g_section_count g' = g_section_count g + 1 /\
   triple_of (section_at g' r) = (Some a_name, None, a_line) /\
   (forall i, 0 <= i < g_section_count g ->
              section_at g' i = section_at g i)) /\
  (g_section_count g + 1 < NARWHALYZER_MAX_SECTIONS ->
   r' = r + 1 /\ r' <> r) /\
  (g_section_count g = NARWHALYZER_MAX_SECTIONS -> r = -1 /\ r' = -1).
Proof.
  intros Hreach g.
  destruct (reachable_ok w Hreach) as [Hg _]. fold g in Hg.
  pose proof (register_effect now a_name None a_line g Hg) as He.
  destruct (init_effect now g Hg) as (Hg1 & Hi1 & Hc1 & _ & Hs1 & _).
  pose proof (register_new now a_name None a_line g) as Hnew.
  pose proof (register_full now a_name None a_line g) as Hfull.
  cbv zeta in Hnew, Hfull.
  specialize (Hnew (find_section_null_file _ _ _)).
  specialize (Hfull (find_section_null_file _ _ _)).
  destruct (__narwhalyzer_register_section now a_name None a_line g)
    as [r g'] eqn:Hr.
  destruct He as (Hg' & Hi' & _ & Hkeep).
  destruct (init_effect now' g' Hg') as (_ & _ & Hc2 & _ & _ & Hsame2).
  specialize (Hsame2 Hi').
  pose proof (register_new now' a_name None a_line g') as Hnew'.
  pose proof (register_full now' a_name None a_line g') as Hfull'.
  cbv zeta in Hnew', Hfull'. rewrite Hsame2 in Hnew', Hfull'.
  specialize (Hnew' (find_section_null_file _ _ _)).
  specialize (Hfull' (find_section_null_file _ _ _)).
  destruct (__narwhalyzer_register_section now' a_name None a_line g')
    as [r' g''] eqn:Hr'.
  split; [apply find_section_null_file|].
  pose proof (ok_count g Hg) as Hcnt.
  pose proof (ok_length _ Hg1) as Hlen1.
  destruct (Z_lt_le_dec (g_section_count g) NARWHALYZER_MAX_SECTIONS)
    as [Hlt|Hge].
  - specialize (Hnew ltac:(lia)). inversion Hnew; subst r g'.
    split; [|split; [|intros; lia]].
    + intros _. split; [exact Hc1|]. split; [cbn; lia|].
      split; [|exact Hkeep].
      unfold section_at. cbn. rewrite array_get_set_eq by lia. reflexivity.
    + intros Hlt2. cbn in Hnew'. specialize (Hnew' ltac:(lia)).
      inversion Hnew'. lia.
  - specialize (Hfull ltac:(lia)). inversion Hfull; subst r g'.
    split; [intros; lia|]. split; [intros; lia|].
    intros _. split; [reflexivity|].
    cbn in Hfull'. specialize (Hfull' ltac:(lia)). inversion Hfull'.
    reflexivity.
Qed.

(** ** The history of registrations *)

Lemma section_matches_triple (a_name : string) (a_file : c_string)
      (a_line : Z) (s s' : narwhalyzer_section_stats_t) :
  triple_of s = triple_of s' ->
  section_matches a_name a_file a_line s
  = section_matches a_name a_file a_line s'.
Proof.
  unfold triple_of, section_matches. intros [= -> -> ->]. reflexivity.
Qed.

Lemma registered_as_step (c : call) (w : world) (e : call * option Z) :
  world_ok w ->
  registered_as (w_globals w) e ->
  registered_as (w_globals (snd (step c w))) e.
Proof.
  intros Hw He.
  destruct (step_frame c w Hw) as (Hc & Hi & Hs).
  destruct (step_ok c w Hw) as [Hg' _].
  pose proof (ok_count _ Hg') as Hcnt'.
  destruct e as [[now|now nm fl ln|t now idx|t now ctx] [r|]];
    cbn [registered_as] in *; try exact I.
  destruct He as [Hinit [[Hr Ht]|(Hr & Hfull & Hno)]].
  - split; [apply Hi, Hinit|]. left. split; [lia|].
    destruct (Hs r Hr) as [Htr _]. rewrite Htr. exact Ht.
  - split; [apply Hi, Hinit|]. right.
    split; [exact Hr|]. split; [lia|].
    intros j Hj. destruct (Hs j ltac:(lia)) as [Htr _].
    rewrite (section_matches_triple _ _ _ _ _ Htr). apply Hno. lia.
Qed.

Lemma registered_as_new (now : Z) (a_name : string) (a_file : c_string)
      (a_line : Z) (g : globals) :
  globals_ok g ->
  let '(r, g') := __narwhalyzer_register_section now a_name a_file a_line g in
  registered_as g' (CallRegister now a_name a_file a_line, Some r).
Proof.
  intros Hg.
  destruct (init_effect now g Hg) as (Hg1 & Hi1 & Hc1 & _ & Hs1 & _).
  set (g1 := __narwhalyzer_init now g) in *.
  pose proof Hg1 as [Hlen Hcnt _ _ _ _].
  destruct (find_section a_name a_file a_line g1) as [i|] eqn:Hfind.
  - rewrite (register_found _ _ _ _ _ _ Hfind). fold g1.
    apply find_section_Some in Hfind as (Hi & Hm & _).
    apply section_matches_iff in Hm as [_ Hm].
    split; [exact Hi1|]. left. split; [exact Hi|exact Hm].
  - destruct (Z_lt_le_dec (g_section_count g1) NARWHALYZER_MAX_SECTIONS)
      as [Hlt|Hge].
    + pose proof (register_new now a_name a_file a_line g) as Hnew.
      cbv zeta in Hnew. rewrite (Hnew Hfind Hlt). fold g1.
      split; [exact Hi1|]. left. cbn [g_section_count set_g_sections
                                       set_g_section_count].
      split; [lia|]. unfold section_at. cbn.
      rewrite array_get_set_eq by lia. reflexivity.
    + pose proof (register_full now a_name a_file a_line g) as Hfull.
      cbv zeta in Hfull. rewrite (Hfull Hfind Hge). fold g1.
      split; [exact Hi1|]. right. split; [reflexivity|].
      split; [cbn; lia|].
      rewrite find_section_None in Hfind by lia. exact Hfind.
Qed.

Lemma registered_history (cs : list call) :
  Forall (registered_as (w_globals (snd (run cs initial_world))))
         (fst (run cs initial_world)).
Proof.
  apply (run_ind (fun log w => Forall (registered_as (w_globals w)) log)).
  - constructor.
  - intros log w c Hw Hlog. apply Forall_app. split.
    + eapply Forall_impl; [exact Hlog|].
      intros e He. apply registered_as_step; assumption.
    + constructor; [|constructor].
      destruct Hw as [Hg _]. destruct w as [g m]. cbn [w_globals] in *.
      destruct c as [now|now nm fl ln|t now idx|t now ctx];
        cbn [step w_globals w_threads]; try exact I.
      pose proof (registered_as_new now nm fl ln g Hg) as Hn.
      destruct (__narwhalyzer_register_section now nm fl ln g) as [r g'].
      exact Hn.
Qed.

Lemma run_lookup (cs : list call) (w : world) (j : nat) (c : call)
      (r : option Z) :
  fst (run cs w) !! j = Some (c, r) ->
  fst (run (take j cs) w) = take j (fst (run cs w)) /\
  r = fst (step c (snd (run (take j cs) w))).
Proof.
  revert w j. induction cs as [|c0 cs IH]; intros w j; [discriminate|].
  rewrite run_cons. cbn [fst]. destruct j as [|j].
  - cbn. intros [= -> <-]. split; reflexivity.
  - cbn [lookup list_lookup take]. intros Hj.
    change (fst (run cs (snd (step c0 w))) !! j = Some (c, r)) in Hj.
    destruct (IH _ _ Hj) as [Ht Hr].
    rewrite run_cons. cbn [fst snd]. rewrite Ht. split; [reflexivity|exact Hr].
Qed.

(** A later registration against an earlier one. *)
Lemma register_after (g : globals) (now1 now2 : Z) (n1 n2 : string)
      (f1 f2 : c_string) (l1 l2 r1 : Z) :
  globals_ok g ->
  registered_as g (CallRegister now1 n1 f1 l1, Some r1) ->
  let r2 := fst (__narwhalyzer_register_section now2 n2 f2 l2 g) in
  ((n1, f1, l1) = (n2, f2, l2) -> f1 <> None -> r1 = r2) /\
  ((n1, f1, l1) <> (n2, f2, l2) -> r1 <> -1 \/ r2 <> -1 -> r1 <> r2) /\
  (f2 = None -> r2 <> -1 -> r1 <> r2).
Proof.
  intros Hg [Hinit Hreg]. cbv zeta.
  destruct (init_effect now2 g Hg) as (_ & _ & _ & _ & _ & Hsame).
  specialize (Hsame Hinit).
  pose proof Hg as [Hlen Hcnt _ _ Huniq _].
  destruct (find_section n2 f2 l2 g) as [i|] eqn:Hfind.
  - rewrite (register_found now2 n2 f2 l2 g i) by (rewrite Hsame; exact Hfind).
    cbn [fst]. pose proof Hfind as Hfind'.
    apply find_section_Some in Hfind as (Hi & Hm & _).
    apply section_matches_iff in Hm as [Hf2 Hm].
    split; [|split].
    + intros [= -> -> ->] Hf.
      destruct Hreg as [[Hr Ht]|(Hr & Hfull & Hno)].
      * apply Huniq; [exact Hr|exact Hi| |congruence].
        unfold triple_of in Ht. congruence.
      * specialize (Hno i Hi). apply not_true_iff_false in Hno.
        exfalso. apply Hno, section_matches_iff. split; assumption.
    + intros Hne _ Heq. subst i.
      destruct Hreg as [[Hr Ht]|(Hr & _)]; [|lia].
      apply Hne. congruence.
    + intros Hnull. contradiction.
  - destruct (Z_lt_le_dec (g_section_count g) NARWHALYZER_MAX_SECTIONS)
      as [Hlt|Hge].
    + pose proof (register_new now2 n2 f2 l2 g) as Hnew.
      cbv zeta in Hnew. rewrite Hsame in Hnew. rewrite (Hnew Hfind Hlt).
      cbn [fst].
      rewrite find_section_None in Hfind by lia.
      split; [|split].
      * intros [= -> -> ->] Hf.
        destruct Hreg as [[Hr Ht]|(Hr & Hfull & Hno)]; [|lia].
        specialize (Hfind r1 Hr). apply not_true_iff_false in Hfind.
        exfalso. apply Hfind, section_matches_iff. split; assumption.
      * intros _ _. destruct Hreg as [[Hr _]|(Hr & _)]; lia.
      * intros _ _. destruct Hreg as [[Hr _]|(Hr & _)]; lia.
    + pose proof (register_full now2 n2 f2 l2 g) as Hfull.
      cbv zeta in Hfull. rewrite Hsame in Hfull. rewrite (Hfull Hfind Hge).
      cbn [fst].
      rewrite find_section_None in Hfind by lia.
      split; [|split].
      * intros [= -> -> ->] Hf.
        destruct Hreg as [[Hr Ht]|(Hr & _)]; [|lia].
        specialize (Hfind r1 Hr). apply not_true_iff_false in Hfind.
        exfalso. apply Hfind, section_matches_iff. split; assumption.
      * intros _ [H|H]; lia.
      * intros _ H. lia.
Qed.

Lemma step_register_result (now : Z) (a_name : string) (a_file : c_string)
      (a_line : Z) (w : world) :
  fst (step (CallRegister now a_name a_file a_line) w)
  = Some (fst (__narwhalyzer_register_section now a_name a_file a_line
                                            (w_globals w))).
Proof.
  cbn [step]. destruct (__narwhalyzer_register_section _ _ _ _ _). reflexivity.
Qed.

Lemma register_pair (cs : list call) (i j : nat) (now1 now2 : Z)
      (n1 n2 : string) (f1 f2 : c_string) (l1 l2 r1 r2 : Z) :
  (i < j)%nat ->
  fst (run cs initial_world) !! i = Some (CallRegister now1 n1 f1 l1, Some r1) ->
  fst (run cs initial_world) !! j = Some (CallRegister now2 n2 f2 l2, Some r2) ->
  ((n1, f1, l1) = (n2, f2, l2) -> f1 <> None -> r1 = r2) /\
  ((n1, f1, l1) <> (n2, f2, l2) -> r1 <> -1 \/ r2 <> -1 -> r1 <> r2) /\
  (f2 = None -> r2 <> -1 -> r1 <> r2).
Proof.
  intros Hij Hi Hj.
  destruct (run_lookup _ _ _ _ _ Hj) as [Hpre Hr2].
  rewrite step_register_result in Hr2. injection Hr2 as ->.
  pose proof (registered_history (take j cs)) as Hhist.
  rewrite Hpre in Hhist. rewrite Forall_lookup in Hhist.
  specialize (Hhist i (CallRegister now1 n1 f1 l1, Some r1)).
  rewrite lookup_take_lt in Hhist by exact Hij.
  specialize (Hhist Hi).
  pose proof (run_ok (take j cs) _ initial_world_ok) as [Hg _].
  exact (register_after _ now1 now2 n1 n2 f1 f2 l1 l2 r1 Hg Hhist).
Qed.

(** C2, as the code has it.  Along any run from process start, two calls
    of [register_section] with the same name, the same non-null file and
    the same line return the same index, and two calls with different
    triples never return the same index unless it is the sentinel -1. *)
Theorem register_idempotent_injective (cs : list call) (i j : nat)
        (now1 now2 : Z) (n1 n2 : string) (f1 f2 : c_string)
        (l1 l2 r1 r2 : Z) :
  fst (run cs initial_world) !! i = Some (CallRegister now1 n1 f1 l1, Some r1) ->
  fst (run cs initial_world) !! j = Some (CallRegister now2 n2 f2 l2, Some r2) ->
  ((n1, f1, l1) = (n2, f2, l2) -> f1 <> None -> r1 = r2) /\
  ((n1, f1, l1) <> (n2, f2, l2) -> r1 <> -1 -> r1 <> r2).
Proof.
  intros Hi Hj.
  destruct (lt_eq_lt_dec i j) as [[Hlt|Heq]|Hgt].
  - destruct (register_pair cs i j _ _ _ _ _ _ _ _ _ _ Hlt Hi Hj)
      as (Hsame & Hdiff & _).
    split; [exact Hsame|]. intros Hne Hr. apply Hdiff; [exact Hne|left; exact Hr].
  - subst j. rewrite Hi in Hj. injection Hj as _ -> -> -> ->.
    split; [reflexivity|]. intros Hne. contradiction.
  - destruct (register_pair cs j i _ _ _ _ _ _ _ _ _ _ Hgt Hj Hi)
      as (Hsame & Hdiff & _).
    split.
    + intros Heq Hf. symmetry. apply Hsame; [congruence|].
      injection Heq as _ <- _. exact Hf.
    + intros Hne Hr Heq. apply (Hdiff ltac:(congruence)); [right; exact Hr|].
      congruence.
Qed.

(** ** The parent of a section *)

Lemma register_new_slot (now : Z) (a_name : string) (a_file : c_string)
      (a_line : Z) (g : globals) :
  globals_ok g ->
  let '(r, g') := __narwhalyzer_register_section now a_name a_file a_line g in
  g_section_count g' = g_section_count g \/
  (g_section_count g' = g_section_count g + 1 /\
   section_at g' (g_section_count g) = new_section a_name a_file a_line).
Proof.
  intros Hg.
  destruct (init_effect now g Hg) as (Hg1 & _ & Hc1 & _ & _ & _).
  set (g1 := __narwhalyzer_init now g) in *.
  pose proof Hg1 as [Hlen Hcnt _ _ _ _].
  destruct (find_section a_name a_file a_line g1) as [i|] eqn:Hfind.
  - rewrite (register_found _ _ _ _ _ _ Hfind). left. exact Hc1.
  - destruct (Z_lt_le_dec (g_section_count g1) NARWHALYZER_MAX_SECTIONS)
      as [Hlt|Hge].
    + pose proof (register_new now a_name a_file a_line g) as Hnew.
      cbv zeta in Hnew. rewrite (Hnew Hfind Hlt). fold g1. right.
      split; [cbn; lia|]. rewrite <- Hc1. unfold section_at. cbn.
      apply array_get_set_eq. lia.
    + pose proof (register_full now a_name a_file a_line g) as Hfull.
      cbv zeta in Hfull. rewrite (Hfull Hfind Hge). left. exact Hc1.
Qed.

Lemma parents_logged_run (cs : list call) :
  parents_logged (fst (run cs initial_world)) (snd (run cs initial_world)).
Proof.
  apply (run_ind parents_logged).
  - intros B HB. cbn in HB. lia.
  - intros log w c Hw IH B HB Hset.
    destruct (step_frame c w Hw) as (Hc & _ & Hs).
    assert (Hold : 0 <= B < g_section_count (w_globals w) ->
                   parent_index (section_at (w_globals w) B) <> -1 ->
                   exists t now r,
                     In (CallEnter t now B, Some r)
                        (log ++ [(c, fst (step c w))]) /\ 0 < r).
    { intros HB' Hp. destruct (IH B HB' Hp) as (t & now & r & Hin & Hr).
      exists t, now, r. split; [apply in_or_app; left; exact Hin|exact Hr]. }
    destruct Hw as [Hg Ht]. destruct w as [g m]. cbn [w_globals] in *.
    destruct c as [now|now nm fl ln|t now idx|t now ctx];
      cbn [step w_globals w_threads] in *.
    + destruct (init_effect now g Hg) as (_ & _ & Hc' & _ & Hs' & _).
      cbn [snd w_globals] in *. rewrite Hc' in HB.
      rewrite (Hs' B HB) in Hset. apply Hold; assumption.
    + pose proof (register_effect now nm fl ln g Hg) as He.
      pose proof (register_new_slot now nm fl ln g Hg) as Hn.
      destruct (__narwhalyzer_register_section now nm fl ln g) as [r g'].
      cbn [fst snd w_globals] in *.
      destruct He as (_ & _ & _ & Hkeep).
      destruct (Z_lt_le_dec B (g_section_count g)) as [Hlt|Hge].
      * rewrite (Hkeep B ltac:(lia)) in Hset. apply Hold; [lia|exact Hset].
      * destruct Hn as [Hn|[Hn Hnew]]; [lia|].
        assert (B = g_section_count g) as -> by lia.
        rewrite Hnew in Hset. cbn in Hset. contradiction.
    + pose proof (enter_effect now idx g _ Hg (Ht t)) as He.
      pose proof (enter_section_at now idx g _ Hg (Ht t)) as Hat.
      destruct (__narwhalyzer_section_enter now idx g (thread_of (mk_world g m) t))
        as [[r g'] tl'].
      cbn [fst snd w_globals] in *.
      destruct He as (_ & _ & Hc' & _). rewrite Hc' in HB.
      destruct (Z.eq_dec (parent_index (section_at g B)) (-1)) as [Hunset|Hp];
        [|apply Hold; assumption].
      rewrite Hat in Hset.
      destruct (Z.eq_dec B idx) as [->|]; [|contradiction].
      destruct (Z.ltb_spec r 0); [contradiction|].
      destruct (entered_section_fields r
                  (section_index (context_at (thread_of (mk_world g m) t)
                     (g_context_stack_top (thread_of (mk_world g m) t))))
                  (section_at g idx)) as (_ & _ & _ & _ & Hpe & _).
      rewrite Hpe, Hunset in Hset. cbn [Z.eqb andb] in Hset.
      change (-1 =? -1) with true in Hset. cbn [andb] in Hset.
      destruct (Z.gtb_spec r 0); [|contradiction].
      exists t, now, r. split; [|lia].
      apply in_or_app. right. left. reflexivity.
    + pose proof (exit_effect now ctx g _ Hg (Ht t)) as He.
      pose proof (exit_section_at now ctx g _ Hg (Ht t)) as Hat.
      destruct (__narwhalyzer_section_exit now ctx g (thread_of (mk_world g m) t))
        as [g' tl'].
      cbn [fst snd w_globals] in *.
      destruct He as (_ & _ & Hc' & _). rewrite Hc' in HB.
      apply Hold; [exact HB|]. intros Hunset. apply Hset.
      rewrite Hat. destruct (Z.eq_dec B _); [|exact Hunset].
      destruct (_ || _); [exact Hunset|].
      destruct (exited_section_fields
                  (wrap64 (now - start_time_ns
                     (context_at (thread_of (mk_world g m) t) ctx)))
                  (section_at g B)) as (_ & _ & _ & _ & Hpe & _).
      rewrite Hpe. exact Hunset.
Qed.

Lemma parent_sticky (cs : list call) (w : world) (B : Z) :
  world_ok w ->
  0 <= B < g_section_count (w_globals w) ->
  parent_index (section_at (w_globals w) B) <> -1 ->
  parent_index (section_at (w_globals (snd (run cs w))) B)
  = parent_index (section_at (w_globals w) B).
Proof.
  revert w. induction cs as [|c cs IH]; intros w Hw HB Hp; [reflexivity|].
  rewrite run_cons. cbn [snd].
  destruct (step_frame c w Hw) as (Hc & _ & Hs).
  destruct (Hs B HB) as [_ Hkeep]. specialize (Hkeep Hp).
  rewrite IH; [exact Hkeep|apply step_ok, Hw|lia|congruence].
Qed.

(** C9.  Along any run from process start: when section [B] has not yet been
    entered with a context beneath it, and a thread now enters [B] with a
    context beneath it (the call returns [r > 0]), the parent of [B] becomes
    the section [A] of the context directly beneath on that thread's stack;
    and whatever calls follow, on any thread, the parent of [B] stays [A]. *)
Theorem parent_first_writer_wins (cs1 cs2 : list call) (t : nat)
        (now B r : Z) :
  let w1 := snd (run cs1 initial_world) in
  (forall t' now' r',
      In (CallEnter t' now' B, Some r') (fst (run cs1 initial_world)) ->
      r' <= 0) ->
  fst (step (CallEnter t now B) w1) = Some r ->
  0 < r ->
  let A := section_index (context_at (thread_of w1 t) (r - 1)) in
  let w2 := snd (step (CallEnter t now B) w1) in
  0 <= A < g_section_count (w_globals w1) /\
  parent_index (section_at (w_globals w2) B) = A /\
  parent_index (section_at (w_globals (snd (run cs2 w2))) B) = A.
Proof.
  intros w1 Hfirst Hr Hpos A w2.
  pose proof (run_ok cs1 _ initial_world_ok) as Hw1. fold w1 in Hw1.
  pose proof (parents_logged_run cs1) as Hlog. fold w1 in Hlog.
  pose proof (step_ok (CallEnter t now B) w1 Hw1) as Hw2. fold w2 in Hw2.
  destruct Hw1 as [Hg Ht].
  pose proof (enter_effect now B _ _ Hg (Ht t)) as He.
  pose proof (enter_section_at now B _ _ Hg (Ht t)) as Hat.
  subst w2 A. cbn [step] in *.
  destruct (Z_lt_le_dec B 0) as [Hneg|Hnn];
    [|destruct (Z_le_gt_dec (g_section_count (w_globals w1)) B) as [Hge|Hlt]].
  { rewrite section_enter_bad_index in Hr by lia. cbn in Hr.
    injection Hr as <-. lia. }
  { rewrite section_enter_bad_index in Hr by lia. cbn in Hr.
    injection Hr as <-. lia. }
  destruct (Z_lt_le_dec (g_context_stack_top (thread_of w1 t) + 1)
                        NARWHALYZER_MAX_NESTING_DEPTH) as [Hroom|Hfull].
  2:{ rewrite section_enter_full in Hr by lia. cbn in Hr.
      injection Hr as <-. lia. }
  rewrite section_enter_pushed in Hr, He, Hat, Hw2 |- * by lia.
  cbv zeta in *. cbn [fst snd w_globals] in *. injection Hr as <-.
  rewrite Z.add_simpl_r in *.
  assert (Hunset : parent_index (section_at (w_globals w1) B) = -1).
  { destruct (Z.eq_dec (parent_index (section_at (w_globals w1) B)) (-1))
      as [|Hp]; [assumption|].
    destruct (Hlog B ltac:(lia) Hp) as (t' & now' & r' & Hin & Hr').
    specialize (Hfirst _ _ _ Hin). lia. }
  pose proof (ok_cells _ _ (Ht t) (g_context_stack_top (thread_of w1 t))
                       ltac:(lia)) as HA.
  split; [exact HA|].
  assert (Hnow : parent_index
                   (section_at
                      (set_g_sections
                         (array_set (g_sections (w_globals w1)) B
                            (entered_section
                               (g_context_stack_top (thread_of w1 t) + 1)
                               (section_index
                                  (context_at (thread_of w1 t)
                                     (g_context_stack_top (thread_of w1 t))))
                               (section_at (w_globals w1) B)))
                         (w_globals w1)) B)
                 = section_index
                     (context_at (thread_of w1 t)
                        (g_context_stack_top (thread_of w1 t)))).
  { rewrite Hat. destruct (Z.eq_dec B B); [|congruence].
    destruct (Z.ltb_spec (g_context_stack_top (thread_of w1 t) + 1) 0); [lia|].
    destruct (entered_section_fields
                (g_context_stack_top (thread_of w1 t) + 1)
                (section_index (context_at (thread_of w1 t)
                   (g_context_stack_top (thread_of w1 t))))
                (section_at (w_globals w1) B)) as (_ & _ & _ & _ & Hpe & _).
    rewrite Hpe, Hunset.
    destruct (Z.gtb_spec (g_context_stack_top (thread_of w1 t) + 1) 0);
      [reflexivity|lia]. }
  split; [exact Hnow|].
  rewrite parent_sticky; [exact Hnow|exact Hw2|cbn; lia|].
  cbn [w_globals]. rewrite Hnow. lia.
Qed.

(** ** The ledger and the runtime's state *)

Lemma observe_all_snoc (log : list (call * option Z)) (e : call * option Z)
      (L0 : ledger) :
  observe_all (log ++ [e]) L0 =
  match observe_all log L0 with
  | Some L => observe e L
  | None => None
  end.
Proof.
  revert L0. induction log as [|e0 log IH]; intros L0; cbn.
  - destruct (observe e L0); reflexivity.
  - destruct (observe e0 L0); [apply IH|reflexivity].
Qed.

Lemma pop_thread_Some (t : nat) (p rest : list activation) (a : activation) :
  pop_thread t p = Some (a, rest) ->
  a_thread a = t /\
  (forall t', thread_pending t' p =
              if Nat.eqb (a_thread a) t' && (0 <=? a_context a)
              then a :: thread_pending t' rest
              else thread_pending t' rest) /\
  (forall s, pending_count s p =
             (if (a_section a =? s) && (0 <=? a_context a) then 1 else 0)
             + pending_count s rest).
Proof.
  revert rest. induction p as [|b p IH]; intros rest; cbn; [discriminate|].
  destruct (Nat.eqb_spec (a_thread b) t) as [Hb|Hb].
  - intros [= -> ->]. split; [exact Hb|]. split; intros; reflexivity.
  - destruct (pop_thread t p) as [[a' rest']|]; [|discriminate].
    intros [= -> <-]. destruct (IH rest' eq_refl) as (Ha & Hth & Hcnt).
    split; [exact Ha|]. split.
    + intros t'. cbn. rewrite Hth.
      destruct (Nat.eqb_spec (a_thread a) t') as [Hat|Hat]; cbn [andb].
      * destruct (Nat.eqb_spec (a_thread b) t') as [Hbt|Hbt]; [congruence|].
        cbn [andb]. reflexivity.
      * reflexivity.
    + intros s. cbn. rewrite Hcnt. lia.
Qed.

Lemma stack_agrees_frame (tl tl' : thread_local) (top : Z)
      (p : list activation) :
  (forall i, i <= top -> context_at tl' i = context_at tl i) ->
  stack_agrees tl top p -> stack_agrees tl' top p.
Proof.
  revert top. induction p as [|a p IH]; intros top Hsame; cbn; [tauto|].
  intros (Hc & Hs & Ht & Hrest).
  rewrite (Hsame top) by lia.
  split; [exact Hc|]. split; [exact Hs|]. split; [exact Ht|].
  apply IH; [|exact Hrest]. intros i Hi. apply Hsame. lia.
Qed.

Lemma wrap64_add_l (a b : Z) : wrap64 (wrap64 a + b) = wrap64 (a + b).
Proof. unfold wrap64. apply Z.add_mod_idemp_l. lia. Qed.

Lemma wrap64_range (a : Z) : 0 <= wrap64 a < 2 ^ 64.
Proof. unfold wrap64. apply Z.mod_pos_bound. lia. Qed.

Lemma wrap64_small (a : Z) : 0 <= a < 2 ^ 64 -> wrap64 a = a.
Proof. intros H. unfold wrap64. apply Z.mod_small, H. Qed.

Lemma fold_min_is_minimum (ds : list Z) :
  ds <> [] ->
  Forall (fun d => 0 <= d < 2 ^ 64) ds ->
  is_minimum (fold_right Z.min UINT64_MAX ds) ds.
Proof.
  intros Hne Hall. induction Hall as [|d ds Hd Hall IH]; [congruence|].
  destruct ds as [|d' ds'].
  - cbn. unfold UINT64_MAX. split.
    + left. lia.
    + intros x [<-|[]]. lia.
  - destruct (IH ltac:(discriminate)) as [Hin Hle].
    set (m := fold_right Z.min UINT64_MAX (d' :: ds')) in *.
    change (fold_right Z.min UINT64_MAX (d :: d' :: ds')) with (Z.min d m).
    split.
    + destruct (Z.min_spec d m) as [[_ ->]|[_ ->]];
        [left; reflexivity|right; exact Hin].
    + intros x [<-|Hx]; [lia|]. specialize (Hle x Hx). lia.
Qed.

Lemma fold_max_is_maximum (ds : list Z) :
  ds <> [] ->
  Forall (fun d => 0 <= d < 2 ^ 64) ds ->
  is_maximum (fold_right Z.max 0 ds) ds.
Proof.
  intros Hne Hall. induction Hall as [|d ds Hd Hall IH]; [congruence|].
  destruct ds as [|d' ds'].
  - cbn. split.
    + left. lia.
    + intros x [<-|[]]. lia.
  - destruct (IH ltac:(discriminate)) as [Hin Hle].
    set (m := fold_right Z.max 0 (d' :: ds')) in *.
    change (fold_right Z.max 0 (d :: d' :: ds')) with (Z.max d m).
    split.
    + destruct (Z.max_spec d m) as [[_ ->]|[_ ->]];
        [right; exact Hin|left; reflexivity].
    + intros x [<-|Hx]; [lia|]. specialize (Hle x Hx). lia.
Qed.

Lemma durations_range (s : Z) (c : list (Z * Z)) :
  Forall (fun d => 0 <= snd d < 2 ^ 64) c ->
  Forall (fun d => 0 <= d < 2 ^ 64) (durations s c).
Proof.
  induction 1 as [|[s' d] c Hd Hall IH]; cbn; [constructor|].
  destruct (s' =? s); [constructor; assumption|assumption].
Qed.

(** Calls that touch no thread and no registered section keep the
    correspondence; a slot that becomes registered starts fresh. *)
Lemma ledger_frame (L : ledger) (g g' : globals) (m : gmap nat thread_local) :
  ledger_inv L (mk_world g m) ->
  g_section_count g <= g_section_count g' ->
  (forall i, 0 <= i < g_section_count g -> section_at g' i = section_at g i) ->
  (forall i, g_section_count g <= i < g_section_count g' ->
             exists n f l, section_at g' i = new_section n f l) ->
  ledger_inv L (mk_world g' m).
Proof.
  intros [Hst Hout Hrng Hstats] Hc Hkeep Hnew.
  constructor; cbn [w_globals] in *.
  - exact Hst.
  - intros s Hs. apply Hout. lia.
  - exact Hrng.
  - intros s Hs.
    destruct (Z_lt_le_dec s (g_section_count g)) as [Hlt|Hge].
    + cbv zeta. rewrite Hkeep by lia. apply Hstats. lia.
    + destruct (Hnew s ltac:(lia)) as (n & f & l & ->).
      destruct (Hout s ltac:(lia)) as [-> ->]. cbn.
      unfold wrap64. repeat split; reflexivity.
Qed.

Lemma ledger_enter (t : nat) (now idx : Z) (w : world) (L : ledger) :
  world_ok w -> ledger_inv L w ->
  let '(r, g', tl') :=
    __narwhalyzer_section_enter now idx (w_globals w) (thread_of w t) in
  ledger_inv (mk_ledger (mk_activation t r idx now :: pending L) (completed L))
             (mk_world g' (<[t := tl']> (w_threads w))).
Proof.
  intros [Hg Ht] [Hst Hout Hrng Hstats].
  destruct w as [g m]. cbn [w_globals w_threads] in *.
  set (tl := thread_of (mk_world g m) t) in *.
  pose proof Hg as [Hlen Hcnt _ _ _ _].
  pose proof (Ht t) as [Hslen Htop Hcells]. fold tl in Hslen, Htop, Hcells.
  assert (Hfail : forall g0,
    g_section_count g0 = g_section_count g ->
    (forall i, section_at g0 i = section_at g i) ->
    ledger_inv (mk_ledger (mk_activation t (-1) idx now :: pending L)
                          (completed L))
               (mk_world g0 (<[t := tl]> m))).
  { intros g0 Hc0 Hs0. constructor; cbn [w_globals pending completed].
    - intros t'. rewrite (thread_of_insert g). cbn [thread_pending a_thread a_context].
      rewrite andb_false_r.
      destruct (decide (t' = t)) as [->|]; apply Hst.
    - intros s Hs. rewrite Hc0 in Hs. cbn [pending_count a_context].
      rewrite andb_false_r. apply Hout, Hs.
    - exact Hrng.
    - intros s Hs. rewrite Hc0 in Hs. cbv zeta. rewrite Hs0.
      cbn [pending_count a_context]. rewrite andb_false_r. apply Hstats, Hs. }
  destruct (Z_lt_le_dec idx 0) as [Hneg|Hnn];
    [|destruct (Z_le_gt_dec (g_section_count g) idx) as [Hge|Hlt]].
  - rewrite section_enter_bad_index by lia. apply Hfail; reflexivity.
  - rewrite section_enter_bad_index by lia. apply Hfail; reflexivity.
  - destruct (Z_lt_le_dec (g_context_stack_top tl + 1)
                          NARWHALYZER_MAX_NESTING_DEPTH) as [Hroom|Hfull].
    2:{ rewrite section_enter_full by lia. apply Hfail; reflexivity. }
    rewrite section_enter_pushed by lia. cbv zeta.
    set (r := g_context_stack_top tl + 1).
    set (e := entered_section r _ (section_at g idx)).
    destruct (entered_section_fields r
                (section_index (context_at tl (g_context_stack_top tl)))
                (section_at g idx)) as (He1 & He2 & He3 & He4 & _ & _).
    fold e in He1, He2, He3, He4.
    constructor; cbn [w_globals pending completed g_section_count
                      set_g_sections].
    + intros t'. rewrite (thread_of_insert g).
      cbn [thread_pending a_thread a_context].
      destruct (decide (t' = t)) as [->|Hne].
      * rewrite Nat.eqb_refl.
        destruct (Z.leb_spec 0 r); [|lia]. cbn [andb stack_agrees].
        cbn [g_context_stack_top a_context a_section a_start].
        unfold context_at at 1 2. cbn [g_context_stack].
        rewrite array_get_set_eq by lia. cbn [section_index start_time_ns].
        split; [reflexivity|]. split; [reflexivity|]. split; [reflexivity|].
        apply (stack_agrees_frame tl).
        -- intros i Hi. unfold context_at. cbn [g_context_stack].
           apply array_get_set_ne. lia.
        -- replace (r - 1) with (g_context_stack_top tl) by lia. apply Hst.
      * destruct (Nat.eqb_spec t t'); [congruence|]. cbn [andb]. apply Hst.
    + intros s Hs. cbn [pending_count a_section a_context].
      destruct (Z.eqb_spec idx s); [lia|]. cbn [andb]. apply Hout, Hs.
    + exact Hrng.
    + intros s Hs. cbv zeta. rewrite section_at_update by lia.
      cbn [pending_count a_section a_context].
      destruct (Hstats s Hs) as (H1 & H2 & H3 & H4).
      destruct (Z.eq_dec s idx) as [->|Hne].
      * rewrite Z.eqb_refl. destruct (Z.leb_spec 0 r); [|lia]. cbn [andb].
        rewrite He1, He2, He3, He4, H1.
        split; [|split; [exact H2|split; [exact H3|exact H4]]].
        rewrite wrap64_add_l. f_equal. lia.
      * destruct (Z.eqb_spec idx s); [congruence|]. cbn [andb].
        split; [exact H1|split; [exact H2|split; [exact H3|exact H4]]].
Qed.

Lemma ledger_exit (t : nat) (now c : Z) (w : world) (L : ledger)
      (a : activation) (rest : list activation) :
  world_ok w -> ledger_inv L w ->
  pop_thread t (pending L) = Some (a, rest) ->
  a_context a = c ->
  let '(g', tl') :=
    __narwhalyzer_section_exit now c (w_globals w) (thread_of w t) in
  ledger_inv
    (mk_ledger rest
       (if c <? 0 then completed L
        else (a_section a, wrap64 (now - a_start a)) :: completed L))
    (mk_world g' (<[t := tl']> (w_threads w))).
Proof.
  intros [Hg Ht] [Hst Hout Hrng Hstats] Hpop Hctx.
  destruct w as [g m]. cbn [w_globals w_threads] in *.
  set (tl := thread_of (mk_world g m) t) in *.
  pose proof Hg as [Hlen Hcnt _ _ _ _].
  pose proof (Ht t) as [Hslen Htop Hcells]. fold tl in Hslen, Htop, Hcells.
  destruct (pop_thread_Some _ _ _ _ Hpop) as (Hthr & Hth & Hpc).
  destruct (Z.ltb_spec c 0) as [Hneg|Hnn].
  - rewrite section_exit_out_of_range by lia.
    assert (Hfalse : (0 <=? a_context a) = false)
      by (apply Z.leb_gt; lia).
    constructor; cbn [w_globals pending completed].
    + intros t'. rewrite (thread_of_insert g).
      specialize (Hst t'). rewrite Hth, Hfalse, andb_false_r in Hst.
      destruct (decide (t' = t)) as [->|]; exact Hst.
    + intros s Hs. destruct (Hout s Hs) as [Hp Hd]. split; [|exact Hd].
      rewrite Hpc, Hfalse, andb_false_r in Hp. lia.
    + exact Hrng.
    + intros s Hs. specialize (Hstats s Hs). cbv zeta in Hstats.
      rewrite Hpc, Hfalse, andb_false_r in Hstats. exact Hstats.
  - assert (Htrue : (0 <=? a_context a) = true) by (apply Z.leb_le; lia).
    pose proof (Hst t) as Hstack. rewrite Hth, Hthr, Nat.eqb_refl, Htrue in Hstack.
    cbn [andb stack_agrees] in Hstack. fold tl in Hstack.
    destruct Hstack as (Hc & Hsec & Hstart & Hbelow).
    rewrite Hctx in Hc.
    rewrite section_exit_in_range by lia. cbv zeta.
    destruct (Z.eqb_spec c (g_context_stack_top tl)); [|lia].
    rewrite <- Hc in Hsec, Hstart, Hbelow. rewrite Hsec, Hstart.
    set (s0 := a_section a) in *.
    set (el := wrap64 (now - a_start a)).
    assert (Hs0 : 0 <= s0 < g_section_count g).
    { rewrite <- Hsec. apply Hcells. lia. }
    destruct (exited_section_fields el (section_at g s0))
      as (Hx1 & Hx2 & Hx3 & Hx4 & _ & _).
    constructor; cbn [w_globals pending completed g_section_count
                      set_g_sections].
    + intros t'. rewrite (thread_of_insert g).
      destruct (decide (t' = t)) as [->|Hne].
      * cbn [g_context_stack_top]. rewrite <- Hc.
        apply (stack_agrees_frame tl); [|exact Hbelow].
        intros i Hi. reflexivity.
      * specialize (Hst t'). rewrite Hth in Hst.
        destruct (Nat.eqb_spec (a_thread a) t'); [congruence|].
        exact Hst.
    + intros s Hs. destruct (Hout s Hs) as [Hp Hd].
      rewrite Hpc in Hp. fold s0 in Hp.
      cbn [durations]. destruct (Z.eqb_spec s0 s); [lia|].
      cbn [andb] in Hp. split; [lia|exact Hd].
    + constructor; [cbn; apply wrap64_range|exact Hrng].
    + intros s Hs. cbv zeta. rewrite section_at_update by lia.
      destruct (Hstats s Hs) as (H1 & H2 & H3 & H4).
      rewrite Hpc, Htrue in H1. cbn [durations]. fold s0 in H1.
      destruct (Z.eq_dec s s0) as [->|Hne].
      * rewrite Z.eqb_refl in *. cbn [andb] in H1.
        cbn [length sum_durations fold_right].
        rewrite Hx1, Hx2, Hx3, Hx4, H1, H2, H3, H4.
        split; [f_equal; lia|].
        split; [rewrite wrap64_add_l; f_equal; lia|].
        split; [apply Z.min_comm|apply Z.max_comm].
      * destruct (Z.eqb_spec s0 s); [congruence|]. cbn [andb] in H1.
        rewrite Z.add_0_l in H1.
        split; [exact H1|split; [exact H2|split; [exact H3|exact H4]]].
Qed.

Lemma ledger_run (cs : list call) (L : ledger) :
  observe_all (fst (run cs initial_world)) empty_ledger = Some L ->
  ledger_inv L (snd (run cs initial_world)).
Proof.
  revert L.
  apply (run_ind (fun log w =>
           forall L, observe_all log empty_ledger = Some L -> ledger_inv L w)).
  - intros L [= <-]. constructor; cbn.
    + intros t. unfold thread_of. cbn. rewrite lookup_empty. reflexivity.
    + intros s _. split; reflexivity.
    + constructor.
    + intros s Hs. lia.
  - intros log w c Hw IH L'. rewrite observe_all_snoc.
    destruct (observe_all log empty_ledger) as [L|]; [|discriminate].
    specialize (IH L eq_refl). pose proof Hw as [Hg Ht].
    destruct w as [g m]. cbn [w_globals] in *.
    destruct c as [now|now nm fl ln|t now idx|t now ctx];
      cbn [step w_globals w_threads fst snd].
    + cbn [observe]. intros [= <-].
      destruct (init_effect now g Hg) as (_ & _ & Hc & _ & Hs & _).
      apply (ledger_frame L g); [exact IH|lia|exact Hs|intros i Hi; lia].
    + pose proof (register_effect now nm fl ln g Hg) as He.
      pose proof (register_new_slot now nm fl ln g Hg) as Hn.
      destruct (__narwhalyzer_register_section now nm fl ln g) as [r g'].
      cbn [observe fst snd]. intros [= <-].
      destruct He as (_ & _ & Hc & Hkeep).
      apply (ledger_frame L g); [exact IH|exact Hc|exact Hkeep|].
      intros i Hi. destruct Hn as [Hn|[Hn Hnew]]; [lia|].
      assert (i = g_section_count g) as -> by lia.
      exists nm, fl, ln. exact Hnew.
    + pose proof (ledger_enter t now idx _ L Hw IH) as He.
      cbn [w_globals w_threads] in He.
      destruct (__narwhalyzer_section_enter now idx g (thread_of (mk_world g m) t))
        as [[r g'] tl'].
      cbn [observe fst snd]. intros [= <-]. exact He.
    + cbn [observe].
      destruct (pop_thread t (pending L)) as [[a rest]|] eqn:Hpop;
        [|destruct (__narwhalyzer_section_exit _ _ _ _); discriminate].
      pose proof (ledger_exit t now ctx _ L a rest Hw IH Hpop) as He.
      cbn [w_globals w_threads] in He.
      destruct (__narwhalyzer_section_exit now ctx g (thread_of (mk_world g m) t))
        as [g' tl'].
      cbn [fst snd].
      destruct (Z.eqb_spec (a_context a) ctx) as [Heq|]; [|discriminate].
      intros [= <-]. apply He, Heq.
Qed.

(** C1.  Take any run from process start whose enter and exit calls are
    balanced per thread: every exit passes the context id returned by the
    most recent enter of its thread that is still open, and no activation
    is left open at the end.  Then for every registered section, with [ds]
    the durations measured for its completed activations: [entry_count] is
    their number and [cumulative_time_ns] is their sum, both as 64-bit
    unsigned values, hence exactly whenever the number, respectively the sum,
    fits in 64 bits; and when there is at least one, [min_time_ns] is the
    least and [max_time_ns] the greatest of them. *)
Theorem balanced_statistics (cs : list call) (L : ledger) (s : Z) :
  let g := w_globals (snd (run cs initial_world)) in
  observe_all (fst (run cs initial_world)) empty_ledger = Some L ->
  pending L = [] ->
  0 <= s < g_section_count g ->
  let ds := durations s (completed L) in
  let N := Z.of_nat (length ds) in
  entry_count (section_at g s) = wrap64 N /\
  cumulative_time_ns (section_at g s) = wrap64 (sum_durations ds) /\
  (N < 2 ^ 64 -> entry_count (section_at g s) = N) /\
  (sum_durations ds < 2 ^ 64 ->
   cumulative_time_ns (section_at g s) = sum_durations ds) /\
  (ds <> [] ->
   is_minimum (min_time_ns (section_at g s)) ds /\
   is_maximum (max_time_ns (section_at g s)) ds).
Proof.
  intros g Hobs Hbal Hs ds N.
  destruct (ledger_run cs L Hobs) as [_ _ Hrng Hstats].
  destruct (Hstats s Hs) as (H1 & H2 & H3 & H4). fold g ds in H1, H2, H3, H4.
  rewrite Hbal in H1. cbn [pending_count] in H1. rewrite Z.add_0_r in H1.
  fold N in H1.
  pose proof (durations_range s _ Hrng) as Hds. fold ds in Hds.
  assert (Hsum : 0 <= sum_durations ds).
  { clear -Hds. induction Hds as [|d ds' Hd _ IH]; cbn; lia. }
  split; [exact H1|]. split; [exact H2|].
  split; [intros HN; rewrite H1; apply wrap64_small; lia|].
  split; [intros HS; rewrite H2; apply wrap64_small; lia|].
  intros Hne. rewrite H3, H4.
  split; [apply fold_min_is_minimum|apply fold_max_is_maximum]; assumption.
Qed.

(** ** The flat summary *)

Lemma row_indices_app (l1 l2 : list out_line) :
  row_indices (l1 ++ l2) = row_indices l1 ++ row_indices l2.
Proof.
  induction l1 as [|o l1 IH]; [reflexivity|].
  destruct o; cbn; rewrite IH; reflexivity.
Qed.

Lemma row_indices_flat_rows (g : globals) (total width : Z) (l : list Z) :
  row_indices (flat_map (flat_row g total width) l)
  = List.filter (executed g) l.
Proof.
  induction l as [|i l IH]; [reflexivity|].
  cbn [flat_map List.filter]. rewrite row_indices_app, IH.
  unfold flat_row, executed. fold (section_at g i).
  destruct (entry_count (section_at g i) =? 0); reflexivity.
Qed.

Lemma StronglySorted_filter {A : Type} (R : A -> A -> Prop) (f : A -> bool)
      (l : list A) :
  StronglySorted R l -> StronglySorted R (List.filter f l).
Proof.
  induction 1 as [|a l Hs IH Hall]; cbn; [constructor|].
  destruct (f a); [|exact IH].
  constructor; [exact IH|].
  rewrite List.Forall_forall in *. intros x Hx.
  apply List.filter_In in Hx as [Hx _]. apply Hall, Hx.
Qed.

Lemma Permutation_filter_bool {A : Type} (f : A -> bool) (l l' : list A) :
  Permutation l l' -> Permutation (List.filter f l) (List.filter f l').
Proof.
  induction 1 as [|x l l' _ IH|x y l|l l' l'' _ IH1 _ IH2]; cbn.
  - constructor.
  - destruct (f x); [constructor|]; exact IH.
  - destruct (f x), (f y); try apply Permutation_refl. constructor.
  - eapply Permutation_trans; eassumption.
Qed.

Lemma compare_sections_le (g : globals) (a b : Z) :
  compare_sections_by_time g a b <= 0 <->
  cumulative_time_ns (section_at g b) <= cumulative_time_ns (section_at g a).
Proof.
  unfold compare_sections_by_time. fold (section_at g a) (section_at g b).
  cbv zeta.
  destruct (Z.gtb_spec (cumulative_time_ns (section_at g b))
                       (cumulative_time_ns (section_at g a))); [lia|].
  destruct (Z.ltb_spec (cumulative_time_ns (section_at g b))
                       (cumulative_time_ns (section_at g a))); lia.
Qed.

Lemma same_rank_sections (g : globals) (a b : Z) :
  (compare_sections_by_time g a b <=? 0)
  && (compare_sections_by_time g b a <=? 0) = true <->
  cumulative_time_ns (section_at g a) = cumulative_time_ns (section_at g b).
Proof.
  clear. rewrite andb_true_iff, !Z.leb_le, !compare_sections_le. lia.
Qed.

Lemma StronglySorted_seqZ (m n : Z) : StronglySorted Z.lt (seqZ m n).
Proof.
  clear. destruct (Z_le_gt_dec n 0) as [Hn|Hn].
  { rewrite seqZ_nil by lia. constructor. }
  rewrite <- (Z2Nat.id n) by lia.
  generalize (Z.to_nat n) as k. clear. intros k. revert m.
  induction k as [|k IH]; intros m.
  - change (Z.of_nat 0) with 0. rewrite seqZ_nil by lia. constructor.
  - rewrite Nat2Z.inj_succ, seqZ_cons by lia.
    replace (Z.pred (Z.succ (Z.of_nat k))) with (Z.of_nat k) by lia.
    constructor; [apply IH|].
    apply (proj2 (List.Forall_forall (Z.lt m) _)). intros x Hx.
    apply list_elem_of_In, elem_of_seqZ in Hx. lia.
Qed.

Lemma sorted_with_ordered_ties (g : globals) (l : list Z) :
  StronglySorted
    (fun a b => cumulative_time_ns (section_at g b)
                <= cumulative_time_ns (section_at g a)) l ->
  (forall x,
     StronglySorted Z.lt
       (List.filter
          (fun y => (compare_sections_by_time g x y <=? 0)
                    && (compare_sections_by_time g y x <=? 0)) l)) ->
  StronglySorted
    (fun a b => cumulative_time_ns (section_at g b)
                < cumulative_time_ns (section_at g a) \/
                (cumulative_time_ns (section_at g a)
                 = cumulative_time_ns (section_at g b) /\ a < b)) l.
Proof.
  clear. induction 1 as [|a l Hs IH Hall]; intros Hties; [constructor|].
  constructor.
  - apply IH. intros x. specialize (Hties x). cbn [List.filter] in Hties.
    destruct ((compare_sections_by_time g x a <=? 0)
              && (compare_sections_by_time g a x <=? 0)); [|exact Hties].
    inversion Hties; assumption.
  - apply (proj2 (List.Forall_forall _ _)). intros b Hb.
    pose proof (proj1 (List.Forall_forall _ _) Hall b Hb) as Hle.
    cbn beta in Hle.
    destruct (Z.eq_dec (cumulative_time_ns (section_at g a))
                       (cumulative_time_ns (section_at g b))) as [Heq|Hne];
      [right|left; lia].
    split; [exact Heq|].
    specialize (Hties a). cbn [List.filter] in Hties.
    rewrite (proj2 (same_rank_sections g a a) eq_refl) in Hties.
    inversion Hties as [|? ? _ Hlt]; subst.
    apply (proj1 (List.Forall_forall _ _) Hlt b).
    apply List.filter_In. split; [exact Hb|].
    apply same_rank_sections, Heq.
Qed.

Lemma flat_summary_stable_ties
        (qsort : (Z -> Z -> Z) -> list Z -> list Z)
        (section_count total_time_ns : Z) (g : globals) :
  qsort_contract qsort -> qsort_stable qsort ->
  StronglySorted
    (fun a b => cumulative_time_ns (section_at g b)
                < cumulative_time_ns (section_at g a) \/
                (cumulative_time_ns (section_at g a)
                 = cumulative_time_ns (section_at g b) /\ a < b))
    (row_indices (print_flat_summary qsort section_count total_time_ns g)).
Proof.
  clear. intros Hq Hst.
  assert (Htotal : forall a b, compare_sections_by_time g a b <= 0 \/
                               compare_sections_by_time g b a <= 0)
    by (intros a b; rewrite !compare_sections_le; lia).
  assert (Htrans : forall a b c, compare_sections_by_time g a b <= 0 ->
                                 compare_sections_by_time g b c <= 0 ->
                                 compare_sections_by_time g a c <= 0)
    by (intros a b c; rewrite !compare_sections_le; lia).
  destruct (Hq _ (seqZ 0 section_count) Htotal Htrans) as [Hperm Hsorted].
  pose proof (Hst _ (seqZ 0 section_count) Htotal Htrans) as Hties.
  assert (Hrows :
    row_indices (print_flat_summary qsort section_count total_time_ns g)
    = List.filter (executed g)
        (qsort (compare_sections_by_time g) (seqZ 0 section_count))).
  { unfold print_flat_summary.
    destruct (Z.eqb_spec section_count 0) as [->|Hne].
    - cbn. apply Permutation_nil in Hperm. rewrite Hperm. reflexivity.
    - rewrite !row_indices_app, row_indices_flat_rows. cbn.
      rewrite app_nil_r. reflexivity. }
  rewrite Hrows. apply StronglySorted_filter.
  apply sorted_with_ordered_ties.
  - clear -Hsorted. induction Hsorted as [|a l _ IH Hall]; constructor.
    + exact IH.
    + eapply Forall_impl; [exact Hall|].
      intros b Hb. apply compare_sections_le, Hb.
  - intros x. rewrite Hties. apply StronglySorted_filter, StronglySorted_seqZ.
Qed.

(** C3, as the code has it.  Whatever conforming [qsort] the C library
    provides, the rows of the flat summary are the registered sections with
    a non-zero entry count, each once, in the order [qsort] leaves them,
    which is by cumulative time descending.  When that [qsort] is stable,
    sections with equal cumulative time come in ascending index order, in
    every state: the array handed to [qsort] is in index order and the
    comparator returns 0 exactly on equal cumulative times.  When it is
    not, nothing more is said about them. *)
Theorem flat_summary_sorted (qsort : (Z -> Z -> Z) -> list Z -> list Z)
        (section_count total_time_ns : Z) (g : globals) :
  qsort_contract qsort ->
  let rows :=
    row_indices (print_flat_summary qsort section_count total_time_ns g) in
  rows = List.filter (executed g)
           (qsort (compare_sections_by_time g) (seqZ 0 section_count)) /\
  Permutation rows (List.filter (executed g) (seqZ 0 section_count)) /\
  StronglySorted
    (fun a b => cumulative_time_ns (section_at g b)
                <= cumulative_time_ns (section_at g a)) rows /\
  (qsort_stable qsort ->
   StronglySorted
     (fun a b => cumulative_time_ns (section_at g b)
                 < cumulative_time_ns (section_at g a) \/
                 (cumulative_time_ns (section_at g a)
                  = cumulative_time_ns (section_at g b) /\ a < b)) rows).
Proof.
  intros Hq rows.
  destruct (Hq (compare_sections_by_time g) (seqZ 0 section_count))
    as [Hperm Hsorted].
  { intros a b. rewrite !compare_sections_le. lia. }
  { intros a b c. rewrite !compare_sections_le. lia. }
  assert (Hrows : rows = List.filter (executed g)
             (qsort (compare_sections_by_time g) (seqZ 0 section_count))).
  { subst rows. unfold print_flat_summary.
    destruct (Z.eqb_spec section_count 0) as [->|Hne].
    - cbn. apply Permutation_nil in Hperm. rewrite Hperm. reflexivity.
    - rewrite !row_indices_app, row_indices_flat_rows. cbn.
      rewrite app_nil_r. reflexivity. }
  split; [exact Hrows|].
  split; [|split].
  - rewrite Hrows. apply Permutation_sym, Permutation_filter_bool, Hperm.
  - rewrite Hrows. apply StronglySorted_filter.
    clear -Hsorted. induction Hsorted as [|a l _ IH Hall]; constructor.
    + exact IH.
    + eapply Forall_impl; [exact Hall|].
      intros b Hb. apply compare_sections_le, Hb.
  - intros Hst. subst rows.
    apply flat_summary_stable_ties; assumption.
Qed.

(** ** A conforming qsort *)

Lemma insert_after_perm (cmp : Z -> Z -> Z) (x : Z) (l : list Z) :
  Permutation (x :: l) (insert_after cmp x l).
Proof.
  induction l as [|y l IH]; cbn; [apply Permutation_refl|].
  destruct (cmp y x <=? 0); [|apply Permutation_refl].
  eapply Permutation_trans; [apply perm_swap|].
  apply perm_skip, IH.
Qed.

Lemma insert_after_sorted (cmp : Z -> Z -> Z) (x : Z) (l : list Z) :
  (forall a b, cmp a b <= 0 \/ cmp b a <= 0) ->
  (forall a b c, cmp a b <= 0 -> cmp b c <= 0 -> cmp a c <= 0) ->
  StronglySorted (fun a b => cmp a b <= 0) l ->
  StronglySorted (fun a b => cmp a b <= 0) (insert_after cmp x l).
Proof.
  intros Htotal Htrans. induction 1 as [|y l Hs IH Hall]; cbn.
  - constructor; constructor.
  - destruct (Z.leb_spec (cmp y x) 0) as [Hle|Hgt].
    + constructor; [exact IH|].
      eapply Permutation_Forall; [apply insert_after_perm|].
      constructor; assumption.
    + assert (Hxy : cmp x y <= 0) by (destruct (Htotal x y); lia).
      constructor; [constructor; assumption|].
      constructor; [exact Hxy|].
      eapply Forall_impl; [exact Hall|].
      intros z Hz. cbn in Hz. eapply Htrans; eassumption.
Qed.

Lemma insertion_qsort_conforms : qsort_contract insertion_qsort.
Proof.
  intros cmp l Htotal Htrans. unfold insertion_qsort.
  induction l as [|x l [IHp IHs]]; cbn.
  - split; constructor.
  - split.
    + eapply Permutation_trans; [apply perm_skip, IHp|].
      apply insert_after_perm.
    + apply insert_after_sorted; assumption.
Qed.

(** ** The hierarchy *)

Lemma array_get_set_cases {A : Type} (d : A) (arr : list A) (i j : Z) (x : A) :
  (j = i /\ array_get d (array_set arr i x) j = x) \/
  array_get d (array_set arr i x) j = array_get d arr j.
Proof.
  destruct (Z.eq_dec j i) as [->|Hne]; [|right; apply array_get_set_ne; congruence].
  destruct (Z_lt_le_dec i 0) as [Hneg|Hnn].
  { right. unfold array_set. destruct (Z.ltb_spec i 0); [reflexivity|lia]. }
  destruct (Z_lt_le_dec i (Z.of_nat (length arr))) as [Hlt|Hge].
  - left. split; [reflexivity|apply array_get_set_eq; lia].
  - right. unfold array_set. destruct (Z.ltb_spec i 0); [lia|].
    rewrite list_insert_ge by lia. reflexivity.
Qed.

Lemma build_hierarchy_ok (section_count : Z) (g : globals) :
  hierarchy_ok g section_count (build_hierarchy section_count g).
Proof.
  unfold build_hierarchy.
  assert (Hin : forall i, In i (seqZ 0 section_count) -> 0 <= i < section_count).
  { intros i Hi. apply list_elem_of_In, elem_of_seqZ in Hi. lia. }
  assert (H0 : hierarchy_ok g section_count
                 (replicate (Z.to_nat section_count) zero_node, [])).
  { split; [|intros r []]. intros p c. cbn [fst]. unfold array_get.
    destruct (p <? 0); [intros []|].
    destruct (replicate _ _ !! Z.to_nat p) as [n|] eqn:Hn; [|intros []].
    apply lookup_replicate in Hn as [-> _]. intros []. }
  revert H0 Hin.
  generalize (replicate (Z.to_nat section_count) zero_node, @nil Z).
  induction (seqZ 0 section_count) as [|i l IH]; intros acc Hacc Hin;
    [exact Hacc|].
  cbn [fold_left]. apply IH; [|intros j Hj; apply Hin; right; exact Hj].
  specialize (Hin i (or_introl eq_refl)).
  destruct Hacc as [Hch Hro]. fold (section_at g i).
  set (nodes1 := array_set (fst acc) i (mk_node i [])).
  assert (Hch1 : forall p c, In c (children (array_get zero_node nodes1 p)) ->
                 0 <= c < section_count /\
                 parent_index (section_at g c) = p /\ 0 <= p).
  { intros p c. subst nodes1.
    destruct (array_get_set_cases zero_node (fst acc) i p (mk_node i []))
      as [[_ ->]| ->]; [intros []|apply Hch]. }
  destruct (Z.ltb_spec (parent_index (section_at g i)) 0) as [Hroot|Hchild].
  - split; [exact Hch1|]. cbn [snd]. intros r Hr.
    apply in_app_or in Hr as [Hr|[<-|[]]]; [apply Hro, Hr|].
    split; [exact Hin|exact Hroot].
  - destruct (Z.ltb_spec (parent_index (section_at g i)) section_count);
      [|split; [exact Hch1|exact Hro]].
    split; [|exact Hro]. cbn [fst]. intros p c. unfold add_child.
    destruct (array_get_set_cases zero_node nodes1
                (parent_index (section_at g i)) p
                (mk_node
                   (node_section_index
                      (array_get zero_node nodes1
                         (parent_index (section_at g i))))
                   (children
                      (array_get zero_node nodes1
                         (parent_index (section_at g i))) ++ [i])))
      as [[-> ->]| ->]; [|apply Hch1].
    cbn [children]. intros Hc.
    apply in_app_or in Hc as [Hc|[<-|[]]]; [apply Hch1, Hc|].
    split; [exact Hin|]. split; [reflexivity|exact Hchild].
Qed.

Lemma for_each_child_lines (P : out_line -> Prop)
      (f : Z -> bool -> option (list out_line)) (cs : list Z)
      (ls : list out_line) :
  (forall c b ls', In c cs -> f c b = Some ls' -> Forall P ls') ->
  for_each_child f cs = Some ls -> Forall P ls.
Proof.
  revert ls. induction cs as [|c cs IH]; intros ls Hf; cbn.
  - intros [= <-]. constructor.
  - destruct (f c _) as [l1|] eqn:H1; [|discriminate].
    destruct (for_each_child f cs) as [l2|] eqn:H2; [|discriminate].
    intros [= <-]. apply Forall_app. split.
    + eapply Hf; [left; reflexivity|exact H1].
    + apply IH; [|reflexivity]. intros c' b ls' Hc'. apply Hf. right. exact Hc'.
Qed.

Lemma print_hierarchy_recursive_lines (Q : Z -> Prop) (g : globals)
      (nodes : list hierarchy_node_t) (fuel : nat) :
  (forall p c, In c (children (array_get zero_node nodes p)) -> Q c) ->
  forall idx prefix is_last ls,
    Q idx ->
    print_hierarchy_recursive fuel g nodes idx prefix is_last = Some ls ->
    Forall (fun o => forall s, line_section o = Some s -> Q s) ls.
Proof.
  intros Hch. induction fuel as [|fuel IH]; intros idx prefix is_last ls Hidx;
    cbn [print_hierarchy_recursive]; [discriminate|].
  destruct (for_each_child _ _) as [l1|] eqn:H1; [|discriminate].
  intros [= <-]. constructor.
  - cbn. intros s [= <-]. exact Hidx.
  - eapply for_each_child_lines; [|exact H1].
    intros c b ls' Hc Hls'. cbv beta in Hls'.
    eapply IH; [|exact Hls']. eapply Hch, Hc.
Qed.

Lemma print_roots_lines (g : globals) (nodes : list hierarchy_node_t)
      (fuel : nat) (roots : list Z) (ls : list out_line) :
  (forall p c, In c (children (array_get zero_node nodes p)) ->
               entry_count (section_at g c) <> 0) ->
  print_roots fuel g nodes roots = Some ls ->
  Forall (fun o => forall s, line_section o = Some s ->
                             entry_count (section_at g s) <> 0) ls.
Proof.
  intros Hch. revert ls. induction roots as [|r roots IH]; intros ls;
    cbn [print_roots].
  - intros [= <-]. constructor.
  - fold (section_at g r).
    destruct (Z.eqb_spec (entry_count (section_at g r)) 0) as [Hz|Hnz].
    + destruct (print_roots fuel g nodes roots) as [l2|]; [|discriminate].
      intros [= <-]. cbn. apply IH. reflexivity.
    + destruct (for_each_child _ _) as [l1|] eqn:H1; [|discriminate].
      destruct (print_roots fuel g nodes roots) as [l2|]; [|discriminate].
      intros [= <-]. cbn [app].
      constructor; [cbn; intros s [= <-]; exact Hnz|].
      apply Forall_app. split; [|apply IH; reflexivity].
      apply Forall_app. split; [|constructor; [cbn; discriminate|constructor]].
      eapply for_each_child_lines; [|exact H1].
      intros c b ls' Hc Hls'. cbv beta in Hls'.
      eapply (print_hierarchy_recursive_lines
                (fun s => entry_count (section_at g s) <> 0));
        [exact Hch| |exact Hls'].
      eapply Hch, Hc.
Qed.

(** *** The recursion ends *)

Lemma for_each_child_total (f : Z -> bool -> option (list out_line))
      (cs : list Z) :
  (forall c b, In c cs -> is_Some (f c b)) ->
  is_Some (for_each_child f cs).
Proof.
  induction cs as [|c cs IH]; intros Hf; cbn; [eexists; reflexivity|].
  destruct (Hf c (match cs with [] => true | _ => false end)
               (or_introl eq_refl)) as [l1 ->].
  destruct IH as [l2 ->]; [|eexists; reflexivity].
  intros c' b Hc'. apply Hf. right. exact Hc'.
Qed.

Lemma chain_parent_next (g : globals) (l : list Z) (c : Z) :
  chain g l -> In c l ->
  parent_index (section_at g c) < 0 \/
  exists l1 l2, l = l1 ++ c :: parent_index (section_at g c) :: l2.
Proof.
  induction l as [|x l IH]; [intros _ []|].
  intros [Hx Hrest] [->|Hc].
  - destruct l as [|y l']; [left; exact Hx|].
    right. exists [], l'. rewrite Hx. reflexivity.
  - destruct (IH Hrest Hc) as [Hneg|(l1 & l2 & ->)]; [left; exact Hneg|].
    right. exists (x :: l1), l2. reflexivity.
Qed.

Lemma chain_fresh (g : globals) (x c : Z) (l : list Z) :
  chain g (x :: l) -> List.NoDup (x :: l) -> 0 <= x ->
  parent_index (section_at g c) = x ->
  ~ In c (x :: l).
Proof.
  intros Hchain Hnd Hx Hp Hin.
  destruct (chain_parent_next g _ c Hchain Hin) as [Hneg|(l1 & l2 & Heq)];
    [lia|].
  rewrite Hp in Heq. apply List.NoDup_cons_iff in Hnd as [Hnotin _].
  apply Hnotin. destruct l1 as [|z l1]; cbn in Heq.
  - injection Heq as _ ->. left. reflexivity.
  - injection Heq as _ ->. apply in_or_app. right. right. left. reflexivity.
Qed.

Lemma bounded_nodup_length (n : Z) (l : list Z) :
  List.NoDup l -> (forall x, In x l -> 0 <= x < n) ->
  (length l <= Z.to_nat n)%nat.
Proof.
  intros Hnd Hin. rewrite <- (length_seqZ 0 n).
  apply NoDup_incl_length; [exact Hnd|].
  intros x Hx. apply list_elem_of_In, elem_of_seqZ.
  specialize (Hin x Hx). lia.
Qed.

Lemma print_hierarchy_recursive_total (g : globals) (section_count : Z)
      (nodes : list hierarchy_node_t) (fuel : nat) :
  (forall p c, In c (children (array_get zero_node nodes p)) ->
               0 <= c < section_count /\
               parent_index (section_at g c) = p /\ 0 <= p) ->
  forall idx path prefix is_last,
    chain g (idx :: path) ->
    List.NoDup (idx :: path) ->
    (forall x, In x (idx :: path) -> 0 <= x < section_count) ->
    (Z.to_nat section_count < length (idx :: path) + fuel)%nat ->
    is_Some (print_hierarchy_recursive fuel g nodes idx prefix is_last).
Proof.
  intros Hch. induction fuel as [|fuel IH];
    intros idx path prefix is_last Hchain Hnd Hrange Hlen.
  - pose proof (bounded_nodup_length section_count _ Hnd Hrange). lia.
  - cbn [print_hierarchy_recursive].
    destruct (for_each_child_total
                (fun c last =>
                   print_hierarchy_recursive fuel g nodes c
                     (prefix ++ (if is_last then "    " else "│   "))%string
                     last)
                (children (array_get zero_node nodes idx))) as [ls Hls].
    + intros c b Hc. destruct (Hch idx c Hc) as (Hcr & Hcp & Hidx).
      apply (IH c (idx :: path)).
      * split; [exact Hcp|exact Hchain].
      * constructor; [|exact Hnd].
        apply (chain_fresh g idx c path); assumption.
      * intros x [<-|Hx]; [exact Hcr|apply Hrange, Hx].
      * cbn [length] in *. lia.
    + rewrite Hls. eexists. reflexivity.
Qed.

Lemma print_roots_total (g : globals) (section_count : Z)
      (nodes : list hierarchy_node_t) (roots : list Z) :
  hierarchy_ok g section_count (nodes, roots) ->
  is_Some (print_roots (Z.to_nat section_count) g nodes roots).
Proof.
  intros [Hch Hro]. cbn [fst snd] in *.
  induction roots as [|r roots IH]; cbn [print_roots]; [eexists; reflexivity|].
  destruct IH as [l2 Hl2]; [intros r' Hr'; apply Hro; right; exact Hr'|].
  rewrite Hl2. destruct (Hro r (or_introl eq_refl)) as [Hr Hp].
  destruct (entry_count _ =? 0); [eexists; reflexivity|].
  destruct (for_each_child_total
              (fun c last =>
                 print_hierarchy_recursive (Z.to_nat section_count) g nodes c
                                           EmptyString last)
              (children (array_get zero_node nodes r))) as [l1 Hl1].
  - intros c b Hc. destruct (Hch r c Hc) as (Hcr & Hcp & _).
    apply (print_hierarchy_recursive_total g section_count nodes _ Hch c [r]).
    + split; [exact Hcp|]. split; [exact Hp|exact I].
    + constructor; [|constructor; [intros []|constructor]].
      intros [<-|[]]. lia.
    + intros x [<-|[<-|[]]]; assumption.
    + cbn [length]. lia.
  - rewrite Hl1. eexists. reflexivity.
Qed.

Lemma print_hierarchy_view_total (section_count : Z) (g : globals) :
  is_Some (print_hierarchy_view section_count g).
Proof.
  unfold print_hierarchy_view.
  destruct (section_count =? 0); [eexists; reflexivity|].
  pose proof (build_hierarchy_ok section_count g) as Hok.
  destruct (build_hierarchy section_count g) as [nodes roots].
  destruct (print_roots_total g section_count nodes roots Hok) as [ls ->].
  eexists. reflexivity.
Qed.

(** The finalizer always returns. *)
Lemma __narwhalyzer_fini_total (qsort : (Z -> Z -> Z) -> list Z -> list Z)
      (now : Z) (g : globals) :
  is_Some (__narwhalyzer_fini qsort now g).
Proof.
  unfold __narwhalyzer_fini.
  destruct (g_report_printed g =? 0); [|eexists; reflexivity].
  cbv zeta. cbn [g_section_count set_report_printed].
  destruct (g_section_count g =? 0); [eexists; reflexivity|].
  destruct (print_hierarchy_view_total (g_section_count g)
              (set_report_printed now g)) as [hier ->].
  eexists. reflexivity.
Qed.

(** ** What a run leaves for the finalizer *)

Lemma entries_counted_run (cs : list call) :
  entries_counted (fst (run cs initial_world)) (snd (run cs initial_world)).
Proof.
  apply (run_ind entries_counted).
  - intros _ i Hi. cbn in Hi. lia.
  - intros log w c Hw IH Hlen i Hi.
    rewrite length_app in Hlen |- *. cbn [length] in Hlen |- *.
    specialize (IH ltac:(lia)).
    destruct Hw as [Hg Ht]. destruct w as [g m]. cbn [w_globals] in *.
    destruct c as [now|now nm fl ln|t now idx|t now ctx];
      cbn [step w_globals w_threads fst snd] in *.
    + destruct (init_effect now g Hg) as (_ & _ & Hc & _ & Hs & _).
      rewrite Hc in Hi. rewrite (Hs i Hi). specialize (IH i Hi). lia.
    + pose proof (register_effect now nm fl ln g Hg) as He.
      pose proof (register_new_slot now nm fl ln g Hg) as Hn.
      destruct (__narwhalyzer_register_section now nm fl ln g) as [r g'].
      cbn [fst snd w_globals] in *. destruct He as (_ & _ & _ & Hkeep).
      destruct (Z_lt_le_dec i (g_section_count g)) as [Hlt|Hge].
      * rewrite (Hkeep i ltac:(lia)). specialize (IH i ltac:(lia)). lia.
      * destruct Hn as [Hn|[Hn Hnew]]; [lia|].
        assert (i = g_section_count g) as -> by lia.
        rewrite Hnew. cbn. split; [lia|]. intros H. contradiction.
    + pose proof (enter_effect now idx g _ Hg (Ht t)) as He.
      pose proof (enter_section_at now idx g _ Hg (Ht t)) as Hat.
      destruct (__narwhalyzer_section_enter now idx g (thread_of (mk_world g m) t))
        as [[r g'] tl'].
      cbn [fst snd w_globals] in *. destruct He as (_ & _ & Hc & _).
      rewrite Hc in Hi. specialize (IH i Hi). rewrite Hat.
      destruct (Z.eq_dec i idx) as [->|]; [|lia].
      destruct (r <? 0); [lia|].
      destruct (entered_section_fields r
                  (section_index (context_at (thread_of (mk_world g m) t)
                     (g_context_stack_top (thread_of (mk_world g m) t))))
                  (section_at g idx)) as (He1 & _).
      rewrite He1, wrap64_small by lia. lia.
    + pose proof (exit_effect now ctx g _ Hg (Ht t)) as He.
      pose proof (exit_section_at now ctx g _ Hg (Ht t)) as Hat.
      destruct (__narwhalyzer_section_exit now ctx g (thread_of (mk_world g m) t))
        as [g' tl'].
      cbn [fst snd w_globals] in *. destruct He as (_ & _ & Hc & _).
      rewrite Hc in Hi. specialize (IH i Hi). rewrite Hat.
      destruct (Z.eq_dec i _) as [->|]; [|lia].
      destruct (_ || _); [lia|].
      destruct (exited_section_fields
                  (wrap64 (now - start_time_ns
                     (context_at (thread_of (mk_world g m) t) ctx)))
                  (section_at g (section_index
                     (context_at (thread_of (mk_world g m) t) ctx))))
        as (_ & _ & _ & Hx4 & Hx5 & _).
      rewrite Hx4, Hx5. lia.
Qed.

Lemma length_run (cs : list call) (w : world) :
  length (fst (run cs w)) = length cs.
Proof.
  revert w. induction cs as [|c cs IH]; intros w; [reflexivity|].
  rewrite run_cons. cbn. rewrite IH. reflexivity.
Qed.

(** Only the finalizer prints and sets the report flag. *)
Lemma step_quiet (c : call) (w : world) :
  g_stdout (w_globals (snd (step c w))) = g_stdout (w_globals w) /\
  g_report_printed (w_globals (snd (step c w)))
  = g_report_printed (w_globals w).
Proof.
  destruct w as [g m].
  assert (Hinit : forall now,
    g_stdout (__narwhalyzer_init now g) = g_stdout g /\
    g_report_printed (__narwhalyzer_init now g) = g_report_printed g).
  { intros now. unfold __narwhalyzer_init.
    destruct (g_initialized g =? 0); split; reflexivity. }
  destruct c as [now|now nm fl ln|t now idx|t now ctx];
    cbn [step w_globals w_threads].
  - apply Hinit.
  - unfold __narwhalyzer_register_section. rewrite init_unfold. cbv zeta.
    destruct (find_section _ _ _ _); [apply Hinit|].
    destruct (_ >=? _); apply Hinit.
  - unfold __narwhalyzer_section_enter.
    destruct (_ || _); [split; reflexivity|].
    destruct (_ >=? _); split; reflexivity.
  - unfold __narwhalyzer_section_exit.
    destruct (_ || _); [split; reflexivity|]. cbv zeta.
    destruct (_ =? _); split; reflexivity.
Qed.

Lemma run_quiet (cs : list call) :
  g_stdout (w_globals (snd (run cs initial_world))) = [] /\
  g_report_printed (w_globals (snd (run cs initial_world))) = 0.
Proof.
  apply (run_ind (fun _ w => g_stdout (w_globals w) = [] /\
                             g_report_printed (w_globals w) = 0)).
  - split; reflexivity.
  - intros log w c _ [H1 H2]. destruct (step_quiet c w) as [-> ->].
    split; assumption.
Qed.

(** ** The report *)

Lemma Forall_flat_map_each {A B : Type} (P : B -> Prop) (f : A -> list B)
      (l : list A) :
  (forall x, Forall P (f x)) -> Forall P (flat_map f l).
Proof.
  intros H. induction l as [|x l IH]; cbn; [constructor|].
  apply Forall_app. split; [apply H|exact IH].
Qed.

Lemma flat_summary_lines (qsort : (Z -> Z -> Z) -> list Z -> list Z)
      (section_count total : Z) (g : globals) :
  Forall (fun o => forall s, line_section o = Some s ->
                             entry_count (section_at g s) <> 0)
         (print_flat_summary qsort section_count total g).
Proof.
  unfold print_flat_summary.
  destruct (section_count =? 0); [repeat constructor; discriminate|].
  repeat (constructor; [discriminate|]).
  apply Forall_app. split; [|repeat constructor; discriminate].
  apply Forall_flat_map_each. intros i.
  unfold flat_row. fold (section_at g i).
  destruct (Z.eqb_spec (entry_count (section_at g i)) 0); [constructor|].
  constructor; [|constructor]. cbn. intros s [= <-]. assumption.
Qed.

Lemma section_details_lines (section_count : Z) (g : globals) :
  Forall (fun o => forall s, line_section o = Some s ->
                             entry_count (section_at g s) <> 0)
         (print_section_details section_count g).
Proof.
  unfold print_section_details.
  repeat (constructor; [discriminate|]).
  apply Forall_flat_map_each. intros i.
  unfold section_detail. fold (section_at g i).
  destruct (Z.eqb_spec (entry_count (section_at g i)) 0); [constructor|].
  constructor; [|constructor; [discriminate|constructor]].
  cbn. intros s [= <-]. assumption.
Qed.

Lemma hierarchy_view_lines (section_count : Z) (g : globals)
      (ls : list out_line) :
  (forall c, 0 <= c < section_count ->
             0 <= parent_index (section_at g c) ->
             entry_count (section_at g c) <> 0) ->
  print_hierarchy_view section_count g = Some ls ->
  Forall (fun o => forall s, line_section o = Some s ->
                             entry_count (section_at g s) <> 0) ls.
Proof.
  intros Hentered. unfold print_hierarchy_view.
  destruct (section_count =? 0); [intros [= <-]; constructor|].
  pose proof (build_hierarchy_ok section_count g) as [Hch _].
  destruct (build_hierarchy section_count g) as [nodes roots].
  cbn [fst] in Hch.
  destruct (print_roots _ g nodes roots) as [l|] eqn:Hl; [|discriminate].
  intros [= <-]. repeat (constructor; [discriminate|]).
  eapply print_roots_lines; [|exact Hl].
  intros p c Hc. destruct (Hch p c Hc) as (Hcr & Hcp & Hp).
  apply Hentered; [exact Hcr|lia].
Qed.

(** C4.  After any run from process start (of fewer than 2^64 calls, so that
    no entry counter has wrapped), the finalizer returns and every line it
    prints about a section -- a row of the flat table, a root or a node of
    the hierarchical view, an entry of the section details -- is about a
    section whose entry count is not 0. *)
Theorem unexecuted_sections_not_reported
        (qsort : (Z -> Z -> Z) -> list Z -> list Z) (cs : list call)
        (now : Z) :
  Z.of_nat (length cs) < 2 ^ 64 ->
  let g := w_globals (snd (run cs initial_world)) in
  exists g', __narwhalyzer_fini qsort now g = Some g' /\
    forall o s, In o (g_stdout g') -> line_section o = Some s ->
                entry_count (section_at g s) <> 0.
Proof.
  intros Hlen g.
  destruct (__narwhalyzer_fini_total qsort now g) as [g' Hfini].
  exists g'. split; [exact Hfini|].
  destruct (run_quiet cs) as [Hout Hflag]. fold g in Hout, Hflag.
  pose proof (entries_counted_run cs) as Hcnt. unfold entries_counted in Hcnt.
  rewrite length_run in Hcnt. specialize (Hcnt Hlen). fold g in Hcnt.
  unfold __narwhalyzer_fini in Hfini. rewrite Hflag in Hfini.
  cbn [Z.eqb] in Hfini. cbv zeta in Hfini.
  cbn [g_section_count set_report_printed g_program_end_time_ns
       g_program_start_time_ns] in Hfini.
  destruct (g_section_count g =? 0).
  { injection Hfini as <-. cbn [g_stdout set_report_printed].
    rewrite Hout. intros o s []. }
  destruct (print_hierarchy_view (g_section_count g)
              (set_report_printed now g)) as [hier|] eqn:Hhier;
    [|discriminate].
  injection Hfini as <-. cbn [g_stdout printf_lines set_report_printed].
  rewrite Hout. cbn [app]. intros o s Ho.
  change (entry_count (section_at g s))
    with (entry_count (section_at (set_report_printed now g) s)).
  revert s. revert o Ho.
  apply (proj1 (List.Forall_forall
           (fun o => forall s, line_section o = Some s ->
              entry_count (section_at (set_report_printed now g) s) <> 0) _)).
  apply Forall_app. split; [apply flat_summary_lines|].
  apply Forall_app. split.
  - eapply hierarchy_view_lines; [|exact Hhier].
    intros c Hc Hp.
    change (section_at (set_report_printed now g) c) with (section_at g c) in *.
    destruct (Hcnt c Hc) as [_ Hone]. specialize (Hone ltac:(lia)). lia.
  - change (Forall
              (fun o => forall s, line_section o = Some s ->
                 entry_count (section_at (set_report_printed now g) s) <> 0)
              (print_section_details (g_section_count g)
                                     (set_report_printed now g)
               ++ [EndOfReport; BlankLine])).
    apply Forall_app. split; [apply section_details_lines|].
    repeat constructor; discriminate.
Qed.

Lemma flat_rows_none (g : globals) (total width : Z) (l : list Z) :
  (forall i, In i l -> entry_count (section_at g i) = 0) ->
  flat_map (flat_row g total width) l = [].
Proof.
  induction l as [|i l IH]; intros H; [reflexivity|].
  cbn [flat_map]. rewrite IH by (intros j Hj; apply H; right; exact Hj).
  unfold flat_row. fold (section_at g i).
  rewrite (H i (or_introl eq_refl)). reflexivity.
Qed.

Lemma section_details_none (g : globals) (l : list Z) :
  (forall i, In i l -> entry_count (section_at g i) = 0) ->
  flat_map (section_detail g) l = [].
Proof.
  induction l as [|i l IH]; intros H; [reflexivity|].
  cbn [flat_map]. rewrite IH by (intros j Hj; apply H; right; exact Hj).
  unfold section_detail. fold (section_at g i).
  rewrite (H i (or_introl eq_refl)). reflexivity.
Qed.

Lemma print_roots_none (fuel : nat) (g : globals)
      (nodes : list hierarchy_node_t) (roots : list Z) :
  (forall r, In r roots -> entry_count (section_at g r) = 0) ->
  print_roots fuel g nodes roots = Some [].
Proof.
  induction roots as [|r roots IH]; intros H; [reflexivity|].
  cbn [print_roots]. rewrite IH by (intros j Hj; apply H; right; exact Hj).
  fold (section_at g r). rewrite (H r (or_introl eq_refl)). reflexivity.
Qed.

(** C5, as the code has it.  After any run from process start that
    registered sections and left every entry count at 0, the finalizer
    prints the banner, the totals, the flat table without rows, the title of
    the hierarchical view and the title of the section details, both without
    entries; it does not print the line saying that no instrumented section
    was executed. *)
Theorem report_without_executed_sections
        (qsort : (Z -> Z -> Z) -> list Z -> list Z) (cs : list call)
        (now : Z) :
  qsort_contract qsort ->
  let g := w_globals (snd (run cs initial_world)) in
  0 < g_section_count g ->
  (forall i, 0 <= i < g_section_count g -> entry_count (section_at g i) = 0) ->
  exists g', __narwhalyzer_fini qsort now g = Some g' /\
    g_stdout g' = report_frame now g /\
    ~ In NoSectionsExecuted (g_stdout g').
Proof.
  intros Hq g Hpos Hzero.
  destruct (run_quiet cs) as [Hout Hflag]. fold g in Hout, Hflag.
  assert (Hrep : exists g', __narwhalyzer_fini qsort now g = Some g' /\
                            g_stdout g' = report_frame now g).
  { unfold __narwhalyzer_fini, report_frame. rewrite Hflag.
    cbn [Z.eqb]. cbv zeta.
    cbn [g_section_count set_report_printed g_program_end_time_ns
         g_program_start_time_ns].
    destruct (Z.eqb_spec (g_section_count g) 0) as [Hc0|Hc]; [lia|].
    set (g1 := set_report_printed now g).
    assert (Hzero1 : forall i, In i (seqZ 0 (g_section_count g)) ->
                               entry_count (section_at g1 i) = 0).
    { intros i Hi. apply list_elem_of_In, elem_of_seqZ in Hi.
      apply Hzero. lia. }
    unfold print_hierarchy_view.
    destruct (Z.eqb_spec (g_section_count g) 0) as [|_]; [contradiction|].
    pose proof (build_hierarchy_ok (g_section_count g) g1) as [_ Hro].
    destruct (build_hierarchy (g_section_count g) g1) as [nodes roots].
    cbn [snd] in Hro.
    rewrite print_roots_none.
    2:{ intros r Hr. destruct (Hro r Hr) as [Hr' _]. apply Hzero, Hr'. }
    eexists. split; [reflexivity|].
    cbn [g_stdout printf_lines]. subst g1. cbn [g_stdout set_report_printed].
    rewrite Hout. cbn [app].
    unfold print_flat_summary, print_section_details.
    destruct (Z.eqb_spec (g_section_count g) 0) as [|_]; [contradiction|].
    rewrite flat_rows_none, section_details_none; [reflexivity|exact Hzero1|].
    destruct (Hq (compare_sections_by_time (set_report_printed now g))
                 (seqZ 0 (g_section_count g))) as [Hperm _].
    { intros a b. rewrite !compare_sections_le. lia. }
    { intros a b c. rewrite !compare_sections_le. lia. }
    intros i Hi. apply Hzero1.
    eapply Permutation_in; [apply Permutation_sym, Hperm|exact Hi]. }
  destruct Hrep as (g' & Hfini & Hlines).
  exists g'. split; [exact Hfini|]. split; [exact Hlines|].
  rewrite Hlines. unfold report_frame.
  cbn. intros H. repeat (destruct H as [H|H]; [discriminate|]). exact H.
Qed.

(** * Further properties of the runtime *)

(** ** The comparator *)

(** X1.  [compare_sections_by_time] is a comparator as [qsort] requires:
    it returns -1, 0 or 1, swapping its arguments negates the result, a
    section compares equal to itself, and "not after" is transitive. *)
Theorem compare_sections_consistent (g : globals) (a b c : Z) :
  (compare_sections_by_time g a b = -1 \/
   compare_sections_by_time g a b = 0 \/
   compare_sections_by_time g a b = 1) /\
  compare_sections_by_time g b a = - compare_sections_by_time g a b /\
  compare_sections_by_time g a a = 0 /\
  (compare_sections_by_time g a b <= 0 ->
   compare_sections_by_time g b c <= 0 ->
   compare_sections_by_time g a c <= 0).
Proof.
  clear. unfold compare_sections_by_time.
  fold (section_at g a) (section_at g b) (section_at g c). cbv zeta.
  generalize (cumulative_time_ns (section_at g a)).
  generalize (cumulative_time_ns (section_at g b)).
  generalize (cumulative_time_ns (section_at g c)).
  intros tc tb ta.
  destruct (Z.gtb_spec tb ta), (Z.ltb_spec tb ta), (Z.gtb_spec ta tb),
    (Z.ltb_spec ta tb), (Z.gtb_spec ta ta), (Z.ltb_spec ta ta),
    (Z.gtb_spec tc tb), (Z.ltb_spec tc tb), (Z.gtb_spec tc ta),
    (Z.ltb_spec tc ta); lia.
Qed.

(** ** The clock *)

(** X2.  For two readings of a clock that does not go backwards, each a
    well-formed [timespec] within the 584 years that fit in 64 bits of
    nanoseconds, the difference of the two timestamps, taken in [uint64_t]
    as [section_exit] takes it, is the elapsed time in nanoseconds. *)
Theorem timestamp_difference (s1 n1 s2 n2 : Z) :
  0 <= n1 < 1000000000 -> 0 <= n2 < 1000000000 ->
  0 <= s1 -> s2 <= 18446744072 ->
  s1 < s2 \/ (s1 = s2 /\ n1 <= n2) ->
  wrap64 (__narwhalyzer_get_timestamp_ns s2 n2
          - __narwhalyzer_get_timestamp_ns s1 n1)
  = (s2 - s1) * 1000000000 + (n2 - n1) /\
  __narwhalyzer_get_timestamp_ns s1 n1
  <= __narwhalyzer_get_timestamp_ns s2 n2.
Proof.
  clear. intros Hn1 Hn2 Hs1 Hs2 Hle.
  assert (H64 : 2 ^ 64 = 18446744073709551616) by reflexivity.
  assert (Ht : forall s n, 0 <= n < 1000000000 -> 0 <= s <= 18446744072 ->
                 __narwhalyzer_get_timestamp_ns s n = s * 1000000000 + n).
  { intros s n Hn Hs. unfold __narwhalyzer_get_timestamp_ns, wrap64.
    rewrite H64.
    rewrite (Z.mod_small s) by lia. rewrite (Z.mod_small n) by lia.
    rewrite (Z.mod_small (s * 1000000000)) by lia.
    apply Z.mod_small. lia. }
  rewrite !Ht by lia. split; [|lia].
  unfold wrap64. rewrite H64. rewrite Z.mod_small by lia. lia.
Qed.

(** ** Lifecycle *)

Lemma step_lifecycle (c : call) (w : world) :
  let g := w_globals w in
  let g' := w_globals (snd (step c w)) in
  (g_initialized g <> 0 ->
   g_initialized g' = g_initialized g /\
   g_program_start_time_ns g' = g_program_start_time_ns g /\
   g_atexit g' = g_atexit g) /\
  (g_initialized g = 0 ->
   (g_initialized g' = 0 /\ g_atexit g' = g_atexit g) \/
   (g_initialized g' = 1 /\
    g_atexit g' = g_atexit g ++ ["__narwhalyzer_fini"%string])).
Proof.
  clear. destruct w as [g m]. cbv zeta.
  assert (Hinit : forall now,
    (g_initialized g <> 0 ->
     g_initialized (__narwhalyzer_init now g) = g_initialized g /\
     g_program_start_time_ns (__narwhalyzer_init now g)
     = g_program_start_time_ns g /\
     g_atexit (__narwhalyzer_init now g) = g_atexit g) /\
    (g_initialized g = 0 ->
     (g_initialized (__narwhalyzer_init now g) = 0 /\
      g_atexit (__narwhalyzer_init now g) = g_atexit g) \/
     (g_initialized (__narwhalyzer_init now g) = 1 /\
      g_atexit (__narwhalyzer_init now g)
      = g_atexit g ++ ["__narwhalyzer_fini"%string]))).
  { intros now. unfold __narwhalyzer_init.
    destruct (Z.eqb_spec (g_initialized g) 0) as [Hz|Hnz].
    - split; [intros; contradiction|]. intros _. right. split; reflexivity.
    - split; [intros _; repeat split; reflexivity|]. intros; contradiction. }
  destruct c as [now|now nm fl ln|t now idx|t now ctx];
    cbn [step w_globals w_threads].
  - apply Hinit.
  - unfold __narwhalyzer_register_section. rewrite init_unfold. cbv zeta.
    destruct (find_section _ _ _ _); [apply Hinit|].
    destruct (_ >=? _); apply Hinit.
  - unfold __narwhalyzer_section_enter.
    destruct (_ || _);
      [split; [intros _; repeat split; reflexivity
              |intros Hz; left; split; [exact Hz|reflexivity]]|].
    destruct (_ >=? _);
      (split; [intros _; repeat split; reflexivity
              |intros Hz; left; split; [exact Hz|reflexivity]]).
  - unfold __narwhalyzer_section_exit.
    destruct (_ || _);
      [split; [intros _; repeat split; reflexivity
              |intros Hz; left; split; [exact Hz|reflexivity]]|].
    cbv zeta.
    destruct (_ =? _);
      (split; [intros _; repeat split; reflexivity
              |intros Hz; left; split; [exact Hz|reflexivity]]).
Qed.

Lemma lifecycle_states (cs : list call) :
  let g := w_globals (snd (run cs initial_world)) in
  (g_initialized g = 0 /\ g_atexit g = []) \/
  (g_initialized g = 1 /\ g_atexit g = ["__narwhalyzer_fini"%string]).
Proof.
  apply (run_ind (fun _ w =>
           (g_initialized (w_globals w) = 0 /\ g_atexit (w_globals w) = []) \/
           (g_initialized (w_globals w) = 1 /\
            g_atexit (w_globals w) = ["__narwhalyzer_fini"%string]))).
  - left. split; reflexivity.
  - intros log w c _ IH.
    destruct (step_lifecycle c w) as [Hkeep Hfirst].
    destruct IH as [[Hz Ha]|[Ho Ha]].
    + destruct (Hfirst Hz) as [[Hz' Ha']|[Ho' Ha']].
      * left. split; [exact Hz'|]. rewrite Ha'. exact Ha.
      * right. split; [exact Ho'|]. rewrite Ha', Ha. reflexivity.
    + destruct (Hkeep ltac:(lia)) as (Hi & _ & Ha').
      right. split; [lia|]. rewrite Ha'. exact Ha.
Qed.

(** X3.  Initialization happens once.  After any run from process start the
    runtime is either uninitialized, with no exit handler registered, or
    initialized, with [__narwhalyzer_fini] registered with [atexit] exactly
    once; and once [__narwhalyzer_is_initialized] is non-zero, whatever
    calls follow -- explicit [__narwhalyzer_init] calls included -- leave it
    1 and leave the recorded program start time as it is. *)
Theorem initialization_happens_once (cs1 cs2 : list call) :
  let w1 := snd (run cs1 initial_world) in
  let w2 := snd (run cs2 w1) in
  ((__narwhalyzer_is_initialized (w_globals w1) = 0 /\
    g_atexit (w_globals w1) = []) \/
   (__narwhalyzer_is_initialized (w_globals w1) = 1 /\
    g_atexit (w_globals w1) = ["__narwhalyzer_fini"%string])) /\
  (__narwhalyzer_is_initialized (w_globals w1) <> 0 ->
   __narwhalyzer_is_initialized (w_globals w2) = 1 /\
   g_program_start_time_ns (w_globals w2)
   = g_program_start_time_ns (w_globals w1) /\
   g_atexit (w_globals w2) = ["__narwhalyzer_fini"%string]).
Proof.
  intros w1 w2. unfold __narwhalyzer_is_initialized.
  pose proof (lifecycle_states cs1) as H1. cbv zeta in H1. fold w1 in H1.
  split; [exact H1|]. intros Hinit.
  destruct H1 as [[Hz _]|[Ho Ha]]; [contradiction|].
  subst w2. clear Hinit. revert Ho Ha. generalize w1. clear w1.
  induction cs2 as [|c cs2 IH]; intros w Ho Ha.
  - cbn. repeat split; assumption.
  - rewrite run_cons. cbn [snd].
    destruct (step_lifecycle c w) as [Hkeep _].
    destruct (Hkeep ltac:(lia)) as (Hi & Hs & Ha').
    destruct (IH (snd (step c w)) ltac:(lia) ltac:(congruence))
      as (H1 & H2 & H3).
    split; [exact H1|]. split; [congruence|exact H3].
Qed.

(** X4.  Registration initializes lazily.  In any state reached from
    process start, a call of [register_section] leaves the runtime
    initialized; if it was not, the program start time becomes the clock
    value of this call and this first registration returns index 0. *)
Theorem register_initializes (cs : list call) (now : Z) (a_name : string)
        (a_file : c_string) (a_line : Z) :
  let g := w_globals (snd (run cs initial_world)) in
  let '(r, g') := __narwhalyzer_register_section now a_name a_file a_line g in
  __narwhalyzer_is_initialized g' = 1 /\
  (__narwhalyzer_is_initialized g = 0 ->
   g_program_start_time_ns g' = now /\ r = 0 /\ g_section_count g' = 1) /\
  (__narwhalyzer_is_initialized g <> 0 ->
   g_program_start_time_ns g' = g_program_start_time_ns g).
Proof.
  intros g. unfold __narwhalyzer_is_initialized.
  pose proof (lifecycle_states cs) as Hl. cbv zeta in Hl. fold g in Hl.
  pose proof (run_ok cs _ initial_world_ok) as [Hg _]. fold g in Hg.
  pose proof (step_lifecycle (CallRegister now a_name a_file a_line)
                (mk_world g ∅)) as Hs.
  cbn [step w_globals w_threads] in Hs.
  pose proof (register_new now a_name a_file a_line g) as Hnew.
  destruct (init_effect now g Hg) as (Hg1 & _ & Hc1 & _ & _ & _).
  cbv zeta in Hnew.
  destruct (__narwhalyzer_register_section now a_name a_file a_line g)
    as [r g'] eqn:Hr.
  cbn [snd w_globals] in Hs. destruct Hs as [Hkeep Hfirst].
  destruct Hl as [[Hz Ha]|[Ho Ha]].
  - pose proof (ok_init g Hg Hz) as Hc0.
    assert (Hnone : find_section a_name a_file a_line (__narwhalyzer_init now g)
                    = None).
    { apply find_section_None; [destruct Hg1; lia|]. intros j Hj. lia. }
    specialize (Hnew Hnone ltac:(lia)). inversion Hnew; subst r g'.
    split; [|split; [|intros; contradiction]].
    + unfold __narwhalyzer_init. rewrite Hz. reflexivity.
    + intros _. split; [|split; [lia|cbn; lia]].
      unfold __narwhalyzer_init. rewrite Hz. reflexivity.
  - destruct (Hkeep ltac:(lia)) as (Hi & Hst & _).
    split; [lia|]. split; [intros; lia|]. intros _. exact Hst.
Qed.

(** X5.  The report is printed once.  From a state in which the report has
    not been printed, [__narwhalyzer_fini] returns, having set the flag,
    recorded the clock value as the program end time, only appended to the
    output, and changed neither the sections nor their count nor the
    diagnostics; called again, at any later time, it returns having changed
    nothing and printed nothing. *)
Theorem report_printed_once (qsort : (Z -> Z -> Z) -> list Z -> list Z)
        (now now' : Z) (g : globals) :
  g_report_printed g = 0 ->
  exists g',
    __narwhalyzer_fini qsort now g = Some g' /\
    g_report_printed g' = 1 /\
    g_program_end_time_ns g' = now /\
    (exists lines, g_stdout g' = g_stdout g ++ lines) /\
    g_sections g' = g_sections g /\
    g_section_count g' = g_section_count g /\
    g_stderr g' = g_stderr g /\
    __narwhalyzer_fini qsort now' g' = Some g'.
Proof.
  clear. intros Hflag.
  destruct (__narwhalyzer_fini_total qsort now g) as [g' Hfini].
  exists g'. split; [exact Hfini|]. revert Hfini.
  unfold __narwhalyzer_fini at 1. rewrite Hflag.
  cbn [Z.eqb]. cbv zeta. cbn [g_section_count set_report_printed].
  assert (Hagain : forall g0, g_report_printed g0 = 1 ->
            __narwhalyzer_fini qsort now' g0 = Some g0).
  { intros g0 H1. unfold __narwhalyzer_fini. rewrite H1. reflexivity. }
  destruct (g_section_count g =? 0).
  - intros [= <-]. cbn. repeat split; try reflexivity.
    exists []. rewrite app_nil_r. reflexivity.
  - destruct (print_hierarchy_view _ _) as [hier|]; [|discriminate].
    intros [= <-]. cbn [g_report_printed g_program_end_time_ns g_stdout
                         g_sections g_section_count g_stderr printf_lines
                         set_report_printed].
    repeat split; try reflexivity.
    eexists. reflexivity.
Qed.

(** ** The scope guard *)

(** X6.  [__narwhalyzer_scope_guard_cleanup] exits at most once.  With a
    null guard or a guard whose [valid] flag is 0 it changes nothing; with a
    valid guard it does what [section_exit] does for the guard's context and
    clears the flag; and run again on the guard it leaves, at any later
    time, it changes nothing. *)
Theorem scope_guard_exits_once (now now' : Z)
        (guard : option narwhalyzer_scope_guard_t)
        (g : globals) (tl : thread_local) :
  let '(guard1, g1, tl1) := __narwhalyzer_scope_guard_cleanup now guard g tl in
  __narwhalyzer_scope_guard_cleanup now' guard1 g1 tl1 = (guard1, g1, tl1) /\
  match guard with
  | None => (guard1, g1, tl1) = (None, g, tl)
  | Some gd =>
      (valid gd = 0 -> (guard1, g1, tl1) = (guard, g, tl)) /\
      (valid gd <> 0 ->
       (g1, tl1) = __narwhalyzer_section_exit now (context_index gd) g tl /\
       guard1 = Some (mk_scope_guard (context_index gd) 0))
  end.
Proof.
  clear. unfold __narwhalyzer_scope_guard_cleanup at 1.
  destruct guard as [gd|]; [|split; reflexivity].
  destruct (Z.eqb_spec (valid gd) 0) as [Hz|Hnz]; cbn [negb].
  - split.
    + unfold __narwhalyzer_scope_guard_cleanup. rewrite Hz. reflexivity.
    + split; [reflexivity|]. intros; contradiction.
  - destruct (__narwhalyzer_section_exit now (context_index gd) g tl)
      as [g1 tl1].
    split; [reflexivity|]. split; [intros; contradiction|].
    intros _. split; reflexivity.
Qed.

(** ** Entering and leaving *)

(** X7.  An enter followed by the exit of the returned context is a round
    trip on the stack.  In a state reached from process start, on a thread
    whose stack has room, entering a registered section and then exiting
    with the returned id puts the top back where it was and leaves every
    cell up to it as it was; the section has one more entry, the elapsed
    time added to its cumulative time and folded into its minimum and
    maximum; no other section changes. *)
Theorem enter_exit_round_trip (cs : list call) (t : nat)
        (now1 now2 idx : Z) :
  let w := snd (run cs initial_world) in
  let g := w_globals w in
  let tl := thread_of w t in
  0 <= idx < g_section_count g ->
  g_context_stack_top tl + 1 < NARWHALYZER_MAX_NESTING_DEPTH ->
  let '(r, g1, tl1) := __narwhalyzer_section_enter now1 idx g tl in
  let '(g2, tl2) := __narwhalyzer_section_exit now2 r g1 tl1 in
  let elapsed := wrap64 (now2 - now1) in
  g_context_stack_top tl2 = g_context_stack_top tl /\
  (forall i, i <= g_context_stack_top tl ->
             context_at tl2 i = context_at tl i) /\
  entry_count (section_at g2 idx)
  = wrap64 (entry_count (section_at g idx) + 1) /\
  cumulative_time_ns (section_at g2 idx)
  = wrap64 (cumulative_time_ns (section_at g idx) + elapsed) /\
  min_time_ns (section_at g2 idx)
  = Z.min (min_time_ns (section_at g idx)) elapsed /\
  max_time_ns (section_at g2 idx)
  = Z.max (max_time_ns (section_at g idx)) elapsed /\
  (forall j, j <> idx -> section_at g2 j = section_at g j).
Proof.
  intros w g tl Hidx Hroom.
  pose proof (run_ok cs _ initial_world_ok) as [Hg Ht]. fold w in Hg, Ht.
  fold g in Hg. specialize (Ht t). fold g tl in Ht.
  pose proof Hg as [Hlen Hcnt _ _ _ _].
  pose proof Ht as [Hslen Htop _].
  rewrite section_enter_pushed by assumption. cbv beta iota zeta.
  set (r := g_context_stack_top tl + 1).
  set (e1 := entered_section r _ (section_at g idx)).
  set (g1 := set_g_sections (array_set (g_sections g) idx e1) g).
  set (tl1 := mk_thread_local _ r).
  assert (Hc : context_at tl1 r
               = mk_context idx now1 (if r >? 0 then r - 1 else -1)).
  { unfold context_at, tl1. cbn [g_context_stack].
    apply array_get_set_eq. lia. }
  rewrite section_exit_in_range by (cbn; lia). cbv zeta.
  rewrite Hc. cbn [section_index start_time_ns g_context_stack_top tl1].
  rewrite Z.eqb_refl.
  assert (Hs1 : section_at g1 idx = e1)
    by (apply section_at_set_eq; lia).
  rewrite Hs1.
  assert (Hlen1 : 0 <= idx < Z.of_nat (length (g_sections g1))).
  { unfold g1. cbn. rewrite length_array_set. lia. }
  destruct (entered_section_fields r
              (section_index (context_at tl (g_context_stack_top tl)))
              (section_at g idx)) as (He1 & He2 & He3 & He4 & _ & _).
  fold e1 in He1, He2, He3, He4.
  destruct (exited_section_fields (wrap64 (now2 - now1)) e1)
    as (Hx1 & Hx2 & Hx3 & Hx4 & _ & _).
  split; [cbn; lia|]. split.
  { intros i Hi. unfold context_at. cbn [g_context_stack].
    apply array_get_set_ne. lia. }
  rewrite section_at_set_eq by exact Hlen1.
  rewrite Hx1, Hx2, Hx3, Hx4, He1, He2, He3, He4.
  repeat split.
  intros j Hj. rewrite section_at_set_ne by congruence.
  apply section_at_set_ne. congruence.
Qed.

(** ** Invariants of every run *)

(** X8.  The runtime stays inside its arrays.  After any run from process
    start: both arrays have their declared sizes, the section count lies
    between 0 and the capacity, and for every thread the top lies between
    -1 and the nesting capacity and every context up to the top names a
    registered section. *)
Theorem runtime_stays_in_bounds (cs : list call) (t : nat) :
  let w := snd (run cs initial_world) in
  Z.of_nat (length (g_sections (w_globals w))) = NARWHALYZER_MAX_SECTIONS /\
  0 <= g_section_count (w_globals w) <= NARWHALYZER_MAX_SECTIONS /\
  Z.of_nat (length (g_context_stack (thread_of w t)))
  = NARWHALYZER_MAX_NESTING_DEPTH /\
  -1 <= g_context_stack_top (thread_of w t) < NARWHALYZER_MAX_NESTING_DEPTH /\
  forall i, 0 <= i <= g_context_stack_top (thread_of w t) ->
            0 <= section_index (context_at (thread_of w t) i)
            < g_section_count (w_globals w).
Proof.
  intros w. pose proof (run_ok cs _ initial_world_ok) as [Hg Ht]. fold w in Hg, Ht.
  destruct Hg as [Hlen Hcnt _ _ _ _]. destruct (Ht t) as [Hslen Htop Hcells].
  split; [lia|]. split; [exact Hcnt|]. split; [lia|]. split; assumption.
Qed.

(** X9.  An index, once returned, keeps naming its section.  If a call of
    [register_section] in a run from process start returned an index other
    than -1, then at the end of the run, whatever was called in between,
    that index is below the section count and the section there has the
    name, file and line that were passed. *)
Theorem registered_index_stays (cs : list call) (i : nat) (now : Z)
        (a_name : string) (a_file : c_string) (a_line r : Z) :
  fst (run cs initial_world) !! i
  = Some (CallRegister now a_name a_file a_line, Some r) ->
  r <> -1 ->
  let g := w_globals (snd (run cs initial_world)) in
  0 <= r < g_section_count g /\
  name (section_at g r) = Some a_name /\
  file (section_at g r) = a_file /\
  line (section_at g r) = a_line.
Proof.
  intros Hi Hr g.
  pose proof (registered_history cs) as Hhist. fold g in Hhist.
  rewrite Forall_lookup in Hhist. specialize (Hhist _ _ Hi).
  destruct Hhist as [_ [[Hrange Ht]|[Hneg _]]]; [|contradiction].
  unfold triple_of in Ht. injection Ht as Hn Hf Hl.
  repeat split; try assumption; lia.
Qed.

Lemma slots_registered_run (cs : list call) :
  slots_registered (fst (run cs initial_world)) (snd (run cs initial_world)).
Proof.
  apply (run_ind slots_registered).
  - intros i Hi. cbn in Hi. lia.
  - intros log w c Hw IH i Hi.
    destruct (step_frame c w Hw) as (Hc & _ & Hs).
    assert (Hold : 0 <= i < g_section_count (w_globals w) ->
              exists now a_name a_file a_line,
                In (CallRegister now a_name a_file a_line, Some i)
                   (log ++ [(c, fst (step c w))]) /\
                triple_of (section_at (w_globals (snd (step c w))) i)
                = (Some a_name, a_file, a_line)).
    { intros Hi'. destruct (IH i Hi') as (now & n & f & l & Hin & Ht).
      exists now, n, f, l. split; [apply in_or_app; left; exact Hin|].
      destruct (Hs i Hi') as [Htr _]. rewrite Htr. exact Ht. }
    destruct (Z_lt_le_dec i (g_section_count (w_globals w))) as [Hlt|Hge];
      [apply Hold; lia|].
    destruct Hw as [Hg Ht]. destruct w as [g m]. cbn [w_globals] in *.
    destruct c as [now|now nm fl ln|t now idx|t now ctx];
      cbn [step w_globals w_threads fst snd] in *.
    + destruct (init_effect now g Hg) as (_ & _ & Hc' & _). lia.
    + destruct (init_effect now g Hg) as (Hg1 & _ & Hc1 & _).
      pose proof Hg1 as [Hlen Hcnt _ _ _ _].
      pose proof (register_found now nm fl ln g) as Hfound.
      pose proof (register_new now nm fl ln g) as Hnew.
      pose proof (register_full now nm fl ln g) as Hfull.
      cbv zeta in Hnew, Hfull.
      destruct (find_section nm fl ln (__narwhalyzer_init now g))
        as [k|] eqn:Hfind.
      * rewrite (Hfound k eq_refl) in Hi |- *. cbn [fst snd w_globals] in *.
        lia.
      * destruct (Z_lt_le_dec (g_section_count (__narwhalyzer_init now g))
                              NARWHALYZER_MAX_SECTIONS) as [Hlt|Hfl].
        -- rewrite (Hnew eq_refl Hlt) in Hi |- *.
           cbn [fst snd w_globals g_section_count set_g_sections
                set_g_section_count] in *.
           assert (i = g_section_count (__narwhalyzer_init now g)) as ->
             by lia.
           exists now, nm, fl, ln. split.
           ++ apply in_or_app. right. left. reflexivity.
           ++ unfold section_at. cbn. rewrite array_get_set_eq by lia.
              reflexivity.
        -- rewrite (Hfull eq_refl Hfl) in Hi. cbn in Hi. lia.
    + pose proof (enter_effect now idx g _ Hg (Ht t)) as He.
      destruct (__narwhalyzer_section_enter now idx g
                  (thread_of (mk_world g m) t)) as [[r g'] tl'].
      cbn [fst snd w_globals] in *. destruct He as (_ & _ & Hc' & _). lia.
    + pose proof (exit_effect now ctx g _ Hg (Ht t)) as He.
      destruct (__narwhalyzer_section_exit now ctx g
                  (thread_of (mk_world g m) t)) as [g' tl'].
      cbn [fst snd w_globals] in *. destruct He as (_ & _ & Hc' & _). lia.
Qed.

(** X10.  The indices in use are dense.  After any run from process start,
    every index from 0 up to the section count was returned by some call of
    [register_section] in that run, and the section there holds the name,
    file and line of that call: no slot below the count is a gap or holds
    anything but a registered section. *)
Theorem section_indices_dense (cs : list call) (i : Z) :
  let g := w_globals (snd (run cs initial_world)) in
  0 <= i < g_section_count g ->
  exists now a_name a_file a_line,
    In (CallRegister now a_name a_file a_line, Some i)
       (fst (run cs initial_world)) /\
    name (section_at g i) = Some a_name /\
    file (section_at g i) = a_file /\
    line (section_at g i) = a_line.
Proof.
  intros g Hi.
  destruct (slots_registered_run cs i Hi) as (now & n & f & l & Hin & Ht).
  exists now, n, f, l. split; [exact Hin|].
  fold g in Ht. unfold triple_of in Ht. injection Ht as Hn Hf Hl.
  repeat split; assumption.
Qed.

(** X11.  Registering again is a pure lookup.  If a call of
    [register_section] with a non-null file returned an index other than -1
    in a run from process start, then calling it again at the end of the
    run with the same name, file and line returns that index and leaves the
    whole state as it is: no statistic is reset, nothing is logged. *)
Theorem reregistration_changes_nothing (cs : list call) (i : nat)
        (now now' : Z) (a_name : string) (a_file : c_string)
        (a_line r : Z) :
  fst (run cs initial_world) !! i
  = Some (CallRegister now a_name a_file a_line, Some r) ->
  a_file <> None ->
  r <> -1 ->
  let g := w_globals (snd (run cs initial_world)) in
  __narwhalyzer_register_section now' a_name a_file a_line g = (r, g).
Proof.
  intros Hi Hf Hr g.
  pose proof (registered_history cs) as Hhist. fold g in Hhist.
  rewrite Forall_lookup in Hhist. specialize (Hhist _ _ Hi).
  destruct Hhist as [Hinit [[Hrange Ht]|[Hneg _]]]; [|contradiction].
  pose proof (run_ok cs _ initial_world_ok) as [Hg _]. fold g in Hg.
  destruct (init_effect now' g Hg) as (_ & _ & _ & _ & _ & Hsame).
  specialize (Hsame Hinit).
  pose proof Hg as [Hlen Hcnt _ _ Huniq _].
  destruct (find_section a_name a_file a_line g) as [k|] eqn:Hfind.
  - rewrite (register_found now' a_name a_file a_line g k)
      by (rewrite Hsame; exact Hfind).
    rewrite Hsame. f_equal.
    apply find_section_Some in Hfind as (Hk & Hm & _).
    apply section_matches_iff in Hm as [_ Hm].
    apply Huniq; [exact Hk|exact Hrange| |congruence].
    unfold triple_of in Hm. congruence.
  - rewrite find_section_None in Hfind by lia.
    specialize (Hfind r Hrange). apply not_true_iff_false in Hfind.
    exfalso. apply Hfind, section_matches_iff. split; assumption.
Qed.

Lemma counters_sane_exited (e : Z) (s : narwhalyzer_section_stats_t) :
  0 <= e < 2 ^ 64 -> counters_sane s -> counters_sane (exited_section e s).
Proof.
  clear. intros He (H1 & H2 & H3 & H4 & H5).
  destruct (exited_section_fields e s) as (Hx1 & Hx2 & Hx3 & Hx4 & _ & _).
  unfold counters_sane. rewrite Hx1, Hx2, Hx3, Hx4.
  pose proof (wrap64_range (cumulative_time_ns s + e)).
  repeat split; try lia.
Qed.

Lemma counters_sane_entered (c p : Z) (s : narwhalyzer_section_stats_t) :
  counters_sane s -> counters_sane (entered_section c p s).
Proof.
  clear. intros (H1 & H2 & H3 & H4 & H5).
  destruct (entered_section_fields c p s) as (He1 & He2 & He3 & He4 & _ & _).
  unfold counters_sane. rewrite He1, He2, He3, He4.
  pose proof (wrap64_range (entry_count s + 1)).
  repeat split; lia.
Qed.

(** X12.  The statistics stay sane.  After any run from process start,
    balanced or not, the entry count, the cumulative time, the minimum and
    the maximum of every registered section are 64-bit values, and either
    the section still has the extrema of a fresh registration (minimum
    [UINT64_MAX], maximum 0, cumulative time 0) or its minimum is at most
    its maximum. *)
Theorem statistics_stay_sane (cs : list call) (i : Z) :
  let g := w_globals (snd (run cs initial_world)) in
  0 <= i < g_section_count g ->
  counters_sane (section_at g i).
Proof.
  cbv zeta. revert i.
  apply (run_ind (fun _ w => forall i,
           0 <= i < g_section_count (w_globals w) ->
           counters_sane (section_at (w_globals w) i))).
  - intros i Hi. cbn in Hi. lia.
  - intros log w c Hw IH i Hi.
    destruct Hw as [Hg Ht]. destruct w as [g m]. cbn [w_globals] in *.
    destruct c as [now|now nm fl ln|t now idx|t now ctx];
      cbn [step w_globals w_threads fst snd] in *.
    + destruct (init_effect now g Hg) as (_ & _ & Hc & _ & Hs & _).
      rewrite Hc in Hi. rewrite (Hs i Hi). apply IH, Hi.
    + pose proof (register_effect now nm fl ln g Hg) as He.
      pose proof (register_new_slot now nm fl ln g Hg) as Hn.
      destruct (__narwhalyzer_register_section now nm fl ln g) as [r g'].
      cbn [fst snd w_globals] in *. destruct He as (_ & _ & _ & Hkeep).
      destruct (Z_lt_le_dec i (g_section_count g)) as [Hlt|Hge].
      * rewrite (Hkeep i ltac:(lia)). apply IH. lia.
      * destruct Hn as [Hn|[Hn Hnew]]; [lia|].
        assert (i = g_section_count g) as -> by lia.
        rewrite Hnew. unfold counters_sane. cbn. unfold UINT64_MAX.
        repeat split; lia.
    + pose proof (enter_effect now idx g _ Hg (Ht t)) as He.
      pose proof (enter_section_at now idx g _ Hg (Ht t)) as Hat.
      destruct (__narwhalyzer_section_enter now idx g
                  (thread_of (mk_world g m) t)) as [[r g'] tl'].
      cbn [fst snd w_globals] in *. destruct He as (_ & _ & Hc & _).
      rewrite Hc in Hi. rewrite Hat.
      destruct (Z.eq_dec i idx) as [->|]; [|apply IH, Hi].
      destruct (r <? 0); [apply IH, Hi|].
      apply counters_sane_entered, IH, Hi.
    + pose proof (exit_effect now ctx g _ Hg (Ht t)) as He.
      pose proof (exit_section_at now ctx g _ Hg (Ht t)) as Hat.
      destruct (__narwhalyzer_section_exit now ctx g
                  (thread_of (mk_world g m) t)) as [g' tl'].
      cbn [fst snd w_globals] in *. destruct He as (_ & _ & Hc & _).
      rewrite Hc in Hi. rewrite Hat.
      destruct (Z.eq_dec i _) as [->|]; [|apply IH, Hi].
      destruct (_ || _); [apply IH, Hi|].
      apply counters_sane_exited; [apply wrap64_range|apply IH, Hi].
Qed.

(** ** The parts of the report *)

Lemma detail_indices_app (l1 l2 : list out_line) :
  detail_indices (l1 ++ l2) = detail_indices l1 ++ detail_indices l2.
Proof.
  clear. induction l1 as [|o l1 IH]; [reflexivity|].
  destruct o; cbn; rewrite IH; reflexivity.
Qed.

(** X13.  The section details list the sections with a non-zero entry
    count, each once, in ascending index order; each entry shows the
    section's own name, line and entry count, and its file, or "<unknown>"
    when the file is null. *)
Theorem section_details_listing (section_count : Z) (g : globals) :
  detail_indices (print_section_details section_count g)
  = List.filter (executed g) (seqZ 0 section_count) /\
  forall idx nm location ln entries,
    In (SectionDetail idx nm location ln entries)
       (print_section_details section_count g) ->
    nm = name (section_at g idx) /\
    ln = line (section_at g idx) /\
    entries = entry_count (section_at g idx) /\
    match file (section_at g idx) with
    | Some f => location = f
    | None => location = "<unknown>"%string
    end.
Proof.
  clear. unfold print_section_details. split.
  - cbn [app detail_indices].
    induction (seqZ 0 section_count) as [|i l IH]; [reflexivity|].
    cbn [flat_map List.filter]. rewrite detail_indices_app, IH.
    unfold section_detail, executed. fold (section_at g i).
    destruct (entry_count (section_at g i) =? 0); reflexivity.
  - intros idx nm location ln entries Hin.
    cbn [app] in Hin. destruct Hin as [Hin|[Hin|Hin]]; try discriminate.
    apply in_flat_map in Hin as (i & _ & Hin).
    unfold section_detail in Hin. fold (section_at g i) in Hin.
    destruct (entry_count (section_at g i) =? 0); [destruct Hin|].
    destruct Hin as [Hin|[Hin|[]]]; [|discriminate].
    injection Hin as <- <- <- <- <-.
    repeat split. destruct (file (section_at g i)); reflexivity.
Qed.

Lemma string_length_append (s1 s2 : string) :
  String.length (s1 ++ s2)%string
  = (String.length s1 + String.length s2)%nat.
Proof.
  clear. induction s1 as [|c s1 IH]; simpl; [reflexivity|].
  f_equal. exact IH.
Qed.

Lemma substring_length (m : nat) (s : string) :
  (m <= String.length s)%nat -> String.length (substring 0 m s) = m.
Proof.
  clear. revert s. induction m as [|m IH]; intros s Hm.
  - destruct s; reflexivity.
  - destruct s as [|c s]; cbn in *; [lia|]. rewrite IH by lia. reflexivity.
Qed.

Lemma max_name_width_range (section_count : Z) (g : globals) :
  12 <= max_name_width section_count g <= 40.
Proof.
  clear. unfold max_name_width.
  assert (H : forall l w, 12 <= w ->
            12 <= fold_left
                    (fun w i =>
                       let len :=
                         c_strlen (name (array_get zero_section
                                           (g_sections g) i)) in
                       if len >? w then len else w) l w).
  { induction l as [|i l IH]; intros w Hw; [exact Hw|].
    cbn [fold_left]. apply IH. cbv zeta.
    destruct (Z.gtb_spec (c_strlen (name (array_get zero_section
                                            (g_sections g) i))) w); lia. }
  specialize (H (seqZ 0 section_count) 12 ltac:(lia)).
  cbv zeta in *. revert H.
  generalize (fold_left
                (fun w i =>
                   if c_strlen (name (array_get zero_section
                                        (g_sections g) i)) >? w
                   then c_strlen (name (array_get zero_section
                                          (g_sections g) i))
                   else w) (seqZ 0 section_count) 12).
  intros z Hz. destruct (Z.gtb_spec z 40); lia.
Qed.

(** X14.  The name column of the flat summary holds.  Its width is at least
    12 and at most 40, every row is printed with that width, and the name
    shown in a row is never longer than the column: a name that fits is
    shown whole; a name longer than the column is shown as its first
    width - 3 characters followed by "...", which fills the column
    exactly. *)
Theorem flat_summary_name_column
        (qsort : (Z -> Z -> Z) -> list Z -> list Z)
        (section_count total_time_ns : Z) (g : globals) :
  12 <= max_name_width section_count g <= 40 /\
  forall idx width name_buf entries cumul mean mn mx percent,
    In (TableRow idx width name_buf entries cumul mean mn mx percent)
       (print_flat_summary qsort section_count total_time_ns g) ->
    width = max_name_width section_count g /\
    Z.of_nat (String.length name_buf) <= width /\
    (c_strlen (name (section_at g idx)) <= width ->
     name_buf = c_str (name (section_at g idx))) /\
    (width < c_strlen (name (section_at g idx)) ->
     name_buf
     = (substring 0 (Z.to_nat (width - 3)) (c_str (name (section_at g idx)))
        ++ "...")%string /\
     Z.of_nat (String.length name_buf) = width).
Proof.
  clear. pose proof (max_name_width_range section_count g) as Hw.
  split; [exact Hw|].
  intros idx width name_buf entries cumul mean mn mx percent Hin.
  unfold print_flat_summary in Hin.
  destruct (section_count =? 0); [destruct Hin as [Hin|[]]; discriminate|].
  apply in_app_or in Hin as [Hin|Hin].
  { cbn in Hin. repeat (destruct Hin as [Hin|Hin]; [discriminate|]).
    destruct Hin. }
  apply in_app_or in Hin as [Hin|[Hin|[]]]; [|discriminate].
  apply in_flat_map in Hin as (i & _ & Hin).
  unfold flat_row in Hin. fold (section_at g i) in Hin.
  destruct (entry_count (section_at g i) =? 0); [destruct Hin|].
  destruct Hin as [Hin|[]].
  injection Hin as <- <- <- _ _ _ _ _ _.
  set (w := max_name_width section_count g) in *.
  split; [reflexivity|].
  destruct (Z.gtb_spec (c_strlen (name (section_at g i))) w) as [Hlong|Hfit].
  - assert (Hlen : Z.of_nat
                     (String.length
                        (substring 0 (Z.to_nat (w - 3))
                                   (c_str (name (section_at g i)))
                         ++ "...")%string) = w).
    { rewrite string_length_append, substring_length.
      + cbn [String.length]. lia.
      + destruct (name (section_at g i)) as [nm|]; cbn in *; lia. }
    split; [lia|]. split; [intros; lia|].
    intros _. split; [reflexivity|exact Hlen].
  - split; [|split; [intros _; reflexivity|intros; lia]].
    destruct (name (section_at g i)) as [nm|]; cbn in *; lia.
Qed.

(** ** The hierarchy that is built *)

Lemma array_get_set {A : Type} (d : A) (arr : list A) (i j : Z) (x : A) :
  0 <= i < Z.of_nat (length arr) ->
  array_get d (array_set arr i x) j
  = if Z.eq_dec j i then x else array_get d arr j.
Proof.
  clear. intros Hi. destruct (Z.eq_dec j i) as [->|Hne].
  - apply array_get_set_eq, Hi.
  - apply array_get_set_ne. congruence.
Qed.

Lemma build_hierarchy_prefix (section_count : Z) (g : globals) (k : nat) :
  Z.of_nat k <= section_count ->
  let acc :=
    fold_left
      (fun (acc : list hierarchy_node_t * list Z) i =>
         let nodes := array_set (fst acc) i (mk_node i []) in
         let parent :=
           parent_index (array_get zero_section (g_sections g) i) in
         if parent <? 0 then (nodes, snd acc ++ [i])
         else if parent <? section_count
              then (add_child nodes parent i, snd acc)
              else (nodes, snd acc))
      (seqZ 0 (Z.of_nat k))
      (replicate (Z.to_nat section_count) zero_node, []) in
  length (fst acc) = Z.to_nat section_count /\
  snd acc = List.filter (fun r => parent_index (section_at g r) <? 0)
                        (seqZ 0 (Z.of_nat k)) /\
  forall p, 0 <= p < section_count ->
    children (array_get zero_node (fst acc) p)
    = List.filter (child_kept g (Z.of_nat k) p) (seqZ 0 (Z.of_nat k)).
Proof.
  clear. induction k as [|k IH]; intros Hk.
  - change (Z.of_nat 0) with 0. rewrite (seqZ_nil 0 0) by lia.
    cbn [fold_left fst snd List.filter].
    split; [apply length_replicate|]. split; [reflexivity|].
    intros p Hp. unfold array_get.
    destruct (Z.ltb_spec p 0); [lia|].
    rewrite lookup_replicate_2 by lia. reflexivity.
  - specialize (IH ltac:(lia)). cbv zeta in IH |- *.
    rewrite seqZ_S, fold_left_app. cbn [fold_left].
    rewrite Z.add_0_l.
    set (acc := fold_left _ (seqZ 0 (Z.of_nat k)) _) in *.
    destruct IH as (Hlen & Hroots & Hch).
    set (i := Z.of_nat k) in *.
    fold (section_at g i).
    assert (Hi : 0 <= i < Z.of_nat (length (fst acc))) by lia.
    set (nodes1 := array_set (fst acc) i (mk_node i [])).
    assert (Hlen1 : length nodes1 = Z.to_nat section_count).
    { unfold nodes1. rewrite length_array_set. exact Hlen. }
    assert (Hbelow : forall c, In c (seqZ 0 i) -> 0 <= c < i).
    { intros c Hc. apply list_elem_of_In, elem_of_seqZ in Hc. lia. }
    assert (HA : forall p, 0 <= p < section_count ->
              children (array_get zero_node nodes1 p)
              = List.filter (child_kept g (Z.of_nat (S k)) p) (seqZ 0 i)).
    { intros p Hp. unfold nodes1. rewrite array_get_set by exact Hi.
      destruct (Z.eq_dec p i) as [->|Hne].
      - cbn [children]. symmetry.
        rewrite (filter_ext_in _ (fun _ => false)); [apply filter_false|].
        intros c Hc. specialize (Hbelow c Hc). unfold child_kept.
        destruct (Z.leb_spec i c); [lia|].
        destruct (Z.leb_spec (Z.of_nat (S k)) i); [lia|].
        apply andb_false_r.
      - rewrite (Hch p Hp). apply filter_ext_in.
        intros c Hc. unfold child_kept. f_equal. f_equal.
        destruct (Z.leb_spec i p), (Z.leb_spec (Z.of_nat (S k)) p);
          try reflexivity; lia. }
    assert (Hlast : forall p,
              List.filter (child_kept g (Z.of_nat (S k)) p) [i]
              = if parent_index (section_at g i) =? p then [i] else []).
    { intros p. cbn [List.filter]. unfold child_kept.
      destruct (parent_index (section_at g i) =? p); [|reflexivity].
      cbn [andb].
      destruct (Z.leb_spec p i), (Z.leb_spec (Z.of_nat (S k)) p);
        try reflexivity; lia. }
    destruct (Z.ltb_spec (parent_index (section_at g i)) 0) as [Hroot|Hnr];
      [|destruct (Z.ltb_spec (parent_index (section_at g i)) section_count)
          as [Hin|Hout]]; cbn [fst snd].
    + split; [exact Hlen1|]. split.
      * rewrite List.filter_app, Hroots. cbn [List.filter].
        destruct (Z.ltb_spec (parent_index (section_at g i)) 0); [|lia].
        reflexivity.
      * intros p Hp. rewrite List.filter_app, Hlast, (HA p Hp).
        destruct (Z.eqb_spec (parent_index (section_at g i)) p); [lia|].
        rewrite app_nil_r. reflexivity.
    + split; [unfold add_child; rewrite length_array_set; exact Hlen1|].
      split.
      * rewrite List.filter_app, Hroots. cbn [List.filter].
        destruct (Z.ltb_spec (parent_index (section_at g i)) 0); [lia|].
        rewrite app_nil_r. reflexivity.
      * intros p Hp. rewrite List.filter_app, Hlast. unfold add_child.
        rewrite array_get_set by lia.
        destruct (Z.eq_dec p (parent_index (section_at g i))) as [->|Hne].
        -- cbn [children]. rewrite Z.eqb_refl, HA by lia. reflexivity.
        -- destruct (Z.eqb_spec (parent_index (section_at g i)) p);
             [congruence|].
           rewrite app_nil_r. apply HA, Hp.
    + split; [exact Hlen1|]. split.
      * rewrite List.filter_app, Hroots. cbn [List.filter].
        destruct (Z.ltb_spec (parent_index (section_at g i)) 0); [lia|].
        rewrite app_nil_r. reflexivity.
      * intros p Hp. rewrite List.filter_app, Hlast, (HA p Hp).
        destruct (Z.eqb_spec (parent_index (section_at g i)) p); [lia|].
        rewrite app_nil_r. reflexivity.
Qed.

(** X15.  What the hierarchy loop builds.  The roots are the sections
    without parent, in ascending index order.  The children recorded for a
    section [p] are, in ascending index order, the sections whose parent is
    [p] and whose index is not below [p]: slot [p] is reset when the loop
    reaches it, so a child registered before its parent is not recorded. *)
Theorem hierarchy_built (section_count : Z) (g : globals) :
  0 <= section_count ->
  let '(nodes, roots) := build_hierarchy section_count g in
  roots = List.filter (fun r => parent_index (section_at g r) <? 0)
                      (seqZ 0 section_count) /\
  forall p, 0 <= p < section_count ->
    children (array_get zero_node nodes p)
    = List.filter
        (fun c => (parent_index (section_at g c) =? p) && (p <=? c))
        (seqZ 0 section_count).
Proof.
  clear. intros Hc.
  pose proof (build_hierarchy_prefix section_count g (Z.to_nat section_count)
                ltac:(lia)) as H.
  cbv zeta in H. rewrite Z2Nat.id in H by exact Hc.
  unfold build_hierarchy.
  destruct (fold_left _ (seqZ 0 section_count) _) as [nodes roots].
  cbn [fst snd] in H. destruct H as (_ & Hroots & Hch).
  split; [exact Hroots|]. intros p Hp. rewrite (Hch p Hp).
  apply filter_ext. intros c. unfold child_kept.
  destruct (Z.leb_spec section_count p); [lia|].
  rewrite orb_false_r. reflexivity.
Qed.

(** ** The hierarchical view that is printed *)

Lemma root_indices_app (l1 l2 : list out_line) :
  root_indices (l1 ++ l2) = root_indices l1 ++ root_indices l2.
Proof.
  clear. induction l1 as [|o l1 IH]; [reflexivity|].
  destruct o; cbn; rewrite IH; reflexivity.
Qed.

Lemma for_each_child_no_root (f : Z -> bool -> option (list out_line))
      (cs : list Z) (ls : list out_line) :
  (forall c b ls', f c b = Some ls' -> root_indices ls' = []) ->
  for_each_child f cs = Some ls -> root_indices ls = [].
Proof.
  clear. revert ls. induction cs as [|c cs IH]; intros ls Hf; cbn.
  - intros [= <-]. reflexivity.
  - destruct (f c _) as [l1|] eqn:H1; [|discriminate].
    destruct (for_each_child f cs) as [l2|] eqn:H2; [|discriminate].
    intros [= <-]. rewrite root_indices_app, (Hf _ _ _ H1).
    apply IH; [exact Hf|reflexivity].
Qed.

Lemma print_hierarchy_recursive_no_root (g : globals)
      (nodes : list hierarchy_node_t) (fuel : nat) :
  forall idx prefix is_last ls,
    print_hierarchy_recursive fuel g nodes idx prefix is_last = Some ls ->
    root_indices ls = [].
Proof.
  clear. induction fuel as [|fuel IH]; intros idx prefix is_last ls;
    cbn [print_hierarchy_recursive]; [discriminate|].
  destruct (for_each_child _ _) as [l1|] eqn:H1; [|discriminate].
  intros [= <-]. cbn [root_indices].
  eapply for_each_child_no_root; [|exact H1].
  intros c b ls' Hls'. eapply IH, Hls'.
Qed.

Lemma print_hierarchy_recursive_ok (g : globals) (section_count : Z)
      (nodes : list hierarchy_node_t) (fuel : nat) :
  (forall p c, In c (children (array_get zero_node nodes p)) ->
               0 <= parent_index (section_at g c) <= c /\ c < section_count) ->
  forall idx prefix is_last ls,
    0 <= parent_index (section_at g idx) <= idx /\ idx < section_count ->
    print_hierarchy_recursive fuel g nodes idx prefix is_last = Some ls ->
    Forall (hierarchy_line_ok g section_count) ls.
Proof.
  clear. intros Hch.
  induction fuel as [|fuel IH]; intros idx prefix is_last ls Hidx;
    cbn [print_hierarchy_recursive]; [discriminate|].
  destruct (for_each_child _ _) as [l1|] eqn:H1; [|discriminate].
  intros [= <-]. constructor; [exact Hidx|].
  eapply for_each_child_lines; [|exact H1].
  intros c b ls' Hc Hls'. cbv beta in Hls'.
  eapply IH; [|exact Hls']. eapply Hch, Hc.
Qed.

Lemma print_roots_shape (g : globals) (section_count : Z)
      (nodes : list hierarchy_node_t) (fuel : nat) (roots : list Z)
      (ls : list out_line) :
  (forall p c, In c (children (array_get zero_node nodes p)) ->
               0 <= parent_index (section_at g c) <= c /\ c < section_count) ->
  (forall r, In r roots -> parent_index (section_at g r) < 0) ->
  print_roots fuel g nodes roots = Some ls ->
  root_indices ls = List.filter (executed g) roots /\
  Forall (hierarchy_line_ok g section_count) ls.
Proof.
  clear. intros Hch. revert ls.
  induction roots as [|r roots IH]; intros ls Hro; cbn [print_roots].
  - intros [= <-]. split; [reflexivity|constructor].
  - fold (section_at g r). cbn [List.filter]. unfold executed at 1.
    assert (Hro' : forall r', In r' roots ->
                              parent_index (section_at g r') < 0)
      by (intros r' Hr'; apply Hro; right; exact Hr').
    destruct (Z.eqb_spec (entry_count (section_at g r)) 0) as [Hz|Hnz];
      cbn [negb].
    + destruct (print_roots fuel g nodes roots) as [l2|]; [|discriminate].
      intros [= <-]. cbn [app]. apply IH; [exact Hro'|reflexivity].
    + destruct (for_each_child _ _) as [l1|] eqn:H1; [|discriminate].
      destruct (print_roots fuel g nodes roots) as [l2|]; [|discriminate].
      intros [= <-]. destruct (IH l2 Hro' eq_refl) as [IHr IHo].
      split.
      * cbn [app root_indices]. rewrite !root_indices_app, IHr.
        rewrite (for_each_child_no_root _ _ _
                   (fun c b ls' H =>
                      print_hierarchy_recursive_no_root g nodes fuel c
                        EmptyString b ls' H) H1).
        reflexivity.
      * cbn [app]. constructor.
        { split; [apply Hro; left; reflexivity|exact Hnz]. }
        apply Forall_app. split; [|exact IHo].
        apply Forall_app. split; [|constructor; [exact I|constructor]].
        eapply for_each_child_lines; [|exact H1].
        intros c b ls' Hc Hls'. cbv beta in Hls'.
        eapply (print_hierarchy_recursive_ok g section_count);
          [exact Hch| |exact Hls'].
        eapply Hch, Hc.
Qed.

Lemma filter_filter_bool {A : Type} (f h : A -> bool) (l : list A) :
  List.filter h (List.filter f l) = List.filter (fun x => f x && h x) l.
Proof.
  clear. induction l as [|x l IH]; [reflexivity|]. cbn [List.filter].
  destruct (f x); cbn [andb List.filter]; [|exact IH].
  destruct (h x); rewrite IH; reflexivity.
Qed.

(** X16.  What the hierarchical view shows.  It is always produced.  Its
    roots are the sections without parent and with a non-zero entry count,
    in ascending index order.  Every node beneath a root is a section whose
    parent index is set and not above its own index: a section nested under
    a section of larger index is not shown, entered or not. *)
Theorem hierarchy_view_shape (section_count : Z) (g : globals) :
  0 <= section_count ->
  exists ls,
    print_hierarchy_view section_count g = Some ls /\
    root_indices ls
    = List.filter
        (fun r => (parent_index (section_at g r) <? 0) && executed g r)
        (seqZ 0 section_count) /\
    Forall (hierarchy_line_ok g section_count) ls.
Proof.
  clear. intros Hc.
  destruct (print_hierarchy_view_total section_count g) as [ls Hls].
  exists ls. split; [exact Hls|].
  unfold print_hierarchy_view in Hls.
  destruct (Z.eqb_spec section_count 0) as [->|Hne].
  { injection Hls as <-. split; [reflexivity|constructor]. }
  pose proof (build_hierarchy_prefix section_count g (Z.to_nat section_count)
                ltac:(lia)) as H.
  cbv zeta in H. rewrite Z2Nat.id in H by exact Hc.
  unfold build_hierarchy in Hls.
  destruct (fold_left _ (seqZ 0 section_count) _) as [nodes roots].
  cbn [fst snd] in H. destruct H as (Hlen & Hroots & Hch).
  destruct (print_roots _ g nodes roots) as [l|] eqn:Hl; [|discriminate].
  injection Hls as <-.
  assert (Hch' : forall p c,
            In c (children (array_get zero_node nodes p)) ->
            0 <= parent_index (section_at g c) <= c /\ c < section_count).
  { intros p c Hin.
    destruct (Z_lt_le_dec p 0) as [Hneg|Hnn].
    { unfold array_get in Hin. destruct (Z.ltb_spec p 0); [destruct Hin|lia]. }
    destruct (Z_lt_le_dec p section_count) as [Hlt|Hge].
    - rewrite (Hch p ltac:(lia)) in Hin.
      apply List.filter_In in Hin as [Hin Hk].
      apply list_elem_of_In, elem_of_seqZ in Hin.
      unfold child_kept in Hk. apply andb_prop in Hk as [Hp Hle].
      apply Z.eqb_eq in Hp.
      destruct (Z.leb_spec section_count p); [lia|].
      rewrite orb_false_r in Hle. apply Z.leb_le in Hle. lia.
    - exfalso. unfold array_get in Hin.
      destruct (Z.ltb_spec p 0); [lia|].
      destruct (nodes !! Z.to_nat p) eqn:Hn; [|destruct Hin].
      apply lookup_lt_Some in Hn. lia. }
  destruct (print_roots_shape g section_count nodes
              (Z.to_nat section_count) roots l Hch')
    as [Hr Ho]; [|exact Hl|].
  { intros r Hr. rewrite Hroots in Hr.
    apply List.filter_In in Hr as [_ Hr]. apply Z.ltb_lt in Hr. exact Hr. }
  split.
  - cbn [root_indices]. rewrite Hr, Hroots. apply filter_filter_bool.
  - repeat (constructor; [exact I|]). exact Ho.
Qed.

(** ** The contexts on a stack *)

(** X17.  The contexts of a stack are chained in stack order.  After any
    run from process start, on every thread, the [parent_context_index] of
    each context up to the top is the index directly beneath it, and -1 for
    the bottom context. *)
Theorem contexts_chained (cs : list call) (t : nat) (i : Z) :
  let tl := thread_of (snd (run cs initial_world)) t in
  0 <= i <= g_context_stack_top tl ->
  parent_context_index (context_at tl i) = i - 1.
Proof.
  cbv zeta. revert t i.
  apply (run_ind (fun _ w => forall t i,
           0 <= i <= g_context_stack_top (thread_of w t) ->
           parent_context_index (context_at (thread_of w t) i) = i - 1)).
  - intros t i Hi. unfold thread_of in Hi. cbn in Hi.
    rewrite lookup_empty in Hi. cbn in Hi. lia.
  - intros log w c Hw IH t' i.
    destruct Hw as [Hg Ht]. destruct w as [g m]. cbn [w_globals] in *.
    destruct c as [now|now nm fl ln|t now idx|t now ctx];
      cbn [step w_globals w_threads fst snd].
    + apply (IH t' i).
    + destruct (__narwhalyzer_register_section now nm fl ln g) as [r g'].
      apply (IH t' i).
    + pose proof (Ht t) as [Hslen Htop _].
      set (tl := thread_of (mk_world g m) t) in *.
      destruct (Z_lt_le_dec idx 0) as [Hneg|Hnn];
        [|destruct (Z_le_gt_dec (g_section_count g) idx) as [Hge|Hlt]].
      * rewrite section_enter_bad_index by lia. cbn [snd].
        rewrite (thread_of_insert g).
        destruct (decide (t' = t)) as [->|]; apply IH.
      * rewrite section_enter_bad_index by lia. cbn [snd].
        rewrite (thread_of_insert g).
        destruct (decide (t' = t)) as [->|]; apply IH.
      * destruct (Z_lt_le_dec (g_context_stack_top tl + 1)
                              NARWHALYZER_MAX_NESTING_DEPTH) as [Hroom|Hfull].
        2:{ rewrite section_enter_full by lia. cbn [snd].
            rewrite (thread_of_insert g).
            destruct (decide (t' = t)) as [->|]; apply IH. }
        rewrite section_enter_pushed by lia. cbv zeta. cbn [snd].
        rewrite (thread_of_insert g).
        destruct (decide (t' = t)) as [->|]; [|apply IH].
        cbn [g_context_stack_top]. intros Hi.
        unfold context_at. cbn [g_context_stack].
        destruct (Z.eq_dec i (g_context_stack_top tl + 1)) as [->|Hne].
        -- rewrite array_get_set_eq by lia. cbn [parent_context_index].
           destruct (Z.gtb_spec (g_context_stack_top tl + 1) 0); lia.
        -- rewrite array_get_set_ne by congruence. apply (IH t i). fold tl. lia.
    + pose proof (Ht t) as [Hslen Htop _].
      set (tl := thread_of (mk_world g m) t) in *.
      destruct (Z_lt_le_dec ctx 0) as [Hneg|Hnn];
        [|destruct (Z_lt_le_dec (g_context_stack_top tl) ctx) as [Hgt|Hle]].
      * rewrite section_exit_out_of_range by lia. cbn [snd].
        rewrite (thread_of_insert g).
        destruct (decide (t' = t)) as [->|]; apply IH.
      * rewrite section_exit_out_of_range by lia. cbn [snd].
        rewrite (thread_of_insert g).
        destruct (decide (t' = t)) as [->|]; apply IH.
      * rewrite section_exit_in_range by lia. cbv zeta. cbn [snd].
        rewrite (thread_of_insert g).
        destruct (decide (t' = t)) as [->|]; [|apply IH].
        cbn [g_context_stack_top]. intros Hi.
        unfold context_at. cbn [g_context_stack].
        apply (IH t i). fold tl.
        destruct (Z.eqb_spec ctx (g_context_stack_top tl)); lia.
Qed.

(** ** The rows of the flat summary *)

(** X18.  What a row of the flat summary shows.  Every row is about a
    section with a non-zero entry count and shows that section's entry
    count, cumulative time, minimum and maximum; the mean it shows is the
    cumulative time divided by the entry count, rounded down; and the share
    of the total is left at zero, not computed, exactly when the total
    program time is not positive. *)
Theorem flat_summary_row_values
        (qsort : (Z -> Z -> Z) -> list Z -> list Z)
        (section_count total_time_ns : Z) (g : globals) :
  forall idx width name_buf entries cumul mean mn mx percent,
    In (TableRow idx width name_buf entries cumul mean mn mx percent)
       (print_flat_summary qsort section_count total_time_ns g) ->
    entries = entry_count (section_at g idx) /\
    entries <> 0 /\
    cumul = cumulative_time_ns (section_at g idx) /\
    mn = min_time_ns (section_at g idx) /\
    mx = max_time_ns (section_at g idx) /\
    mean = cumul / entries /\
    (0 < entries -> 0 <= cumul ->
     mean * entries <= cumul < (mean + 1) * entries) /\
    (percent = None <-> total_time_ns <= 0) /\
    (0 < total_time_ns -> percent = Some (100 * cumul, total_time_ns)).
Proof.
  clear. intros idx width name_buf entries cumul mean mn mx percent Hin.
  unfold print_flat_summary in Hin.
  destruct (section_count =? 0); [destruct Hin as [Hin|[]]; discriminate|].
  apply in_app_or in Hin as [Hin|Hin].
  { cbn in Hin. repeat (destruct Hin as [Hin|Hin]; [discriminate|]).
    destruct Hin. }
  apply in_app_or in Hin as [Hin|[Hin|[]]]; [|discriminate].
  apply in_flat_map in Hin as (i & _ & Hin).
  unfold flat_row in Hin. fold (section_at g i) in Hin.
  destruct (Z.eqb_spec (entry_count (section_at g i)) 0) as [|Hnz];
    [destruct Hin|].
  destruct Hin as [Hin|[]].
  injection Hin as <- _ _ <- <- <- <- <- <-.
  split; [reflexivity|]. split; [exact Hnz|].
  split; [reflexivity|]. split; [reflexivity|]. split; [reflexivity|].
  split; [reflexivity|]. split.
  - intros Hpos Hcum.
    pose proof (Z.div_mod (cumulative_time_ns (section_at g i))
                  (entry_count (section_at g i)) Hnz) as Hdm.
    pose proof (Z.mod_pos_bound (cumulative_time_ns (section_at g i))
                  (entry_count (section_at g i)) Hpos) as Hmod.
    nia.
  - destruct (Z.gtb_spec total_time_ns 0) as [Hgt|Hle].
    + split; [split; [discriminate|lia]|]. intros _. reflexivity.
    + split; [split; [intros _; exact Hle|reflexivity]|]. intros; lia.
Qed.

(** ** The instrumentation macros *)

Lemma enter_then_exit (now1 now2 idx : Z) (g : globals) (tl : thread_local) :
  globals_ok g -> thread_ok g tl ->
  let '(r, g1, tl1) := __narwhalyzer_section_enter now1 idx g tl in
  let '(g2, tl2) := __narwhalyzer_section_exit now2 r g1 tl1 in
  g_context_stack_top tl2 = g_context_stack_top tl /\
  (forall i, i <= g_context_stack_top tl ->
             context_at tl2 i = context_at tl i) /\
  g_section_count g2 = g_section_count g /\
  (r = -1 /\ g_sections g2 = g_sections g \/
   r = g_context_stack_top tl + 1 /\
   0 <= idx < g_section_count g /\
   entry_count (section_at g2 idx)
   = wrap64 (entry_count (section_at g idx) + 1) /\
   cumulative_time_ns (section_at g2 idx)
   = wrap64 (cumulative_time_ns (section_at g idx) + wrap64 (now2 - now1)) /\
   (forall j, j <> idx -> section_at g2 j = section_at g j)).
Proof.
  clear. intros Hg Ht.
  pose proof Hg as [Hlen Hcnt _ _ _ _].
  pose proof Ht as [Hslen Htop _].
  assert (Hbad : forall g0, __narwhalyzer_section_exit now2 (-1) g0 tl
                            = (g0, tl))
    by (intros g0; apply section_exit_out_of_range; lia).
  destruct (Z_lt_le_dec idx 0) as [Hneg|Hnn];
    [|destruct (Z_le_gt_dec (g_section_count g) idx) as [Hge|Hlt]].
  - rewrite section_enter_bad_index by lia. rewrite Hbad.
    repeat split; try reflexivity. left. split; reflexivity.
  - rewrite section_enter_bad_index by lia. rewrite Hbad.
    repeat split; try reflexivity. left. split; reflexivity.
  - destruct (Z_lt_le_dec (g_context_stack_top tl + 1)
                          NARWHALYZER_MAX_NESTING_DEPTH) as [Hroom|Hfull].
    2:{ rewrite section_enter_full by lia. rewrite Hbad.
        repeat split; try reflexivity. left. split; reflexivity. }
    rewrite section_enter_pushed by lia. cbv beta iota zeta.
    set (r := g_context_stack_top tl + 1).
    set (e1 := entered_section r _ (section_at g idx)).
    set (g1 := set_g_sections (array_set (g_sections g) idx e1) g).
    set (tl1 := mk_thread_local _ r).
    assert (Hc : context_at tl1 r
                 = mk_context idx now1 (if r >? 0 then r - 1 else -1)).
    { unfold context_at, tl1. cbn [g_context_stack].
      apply array_get_set_eq. lia. }
    rewrite section_exit_in_range by (cbn; lia). cbv zeta.
    rewrite Hc. cbn [section_index start_time_ns g_context_stack_top tl1].
    rewrite Z.eqb_refl.
    assert (Hs1 : section_at g1 idx = e1)
      by (apply section_at_set_eq; lia).
    rewrite Hs1.
    assert (Hlen1 : 0 <= idx < Z.of_nat (length (g_sections g1))).
    { unfold g1. cbn. rewrite length_array_set. lia. }
    destruct (entered_section_fields r
                (section_index (context_at tl (g_context_stack_top tl)))
                (section_at g idx)) as (He1 & He2 & _).
    fold e1 in He1, He2.
    destruct (exited_section_fields (wrap64 (now2 - now1)) e1)
      as (Hx1 & _ & _ & Hx4 & _).
    split; [cbn; lia|]. split.
    { intros i Hi. unfold context_at. cbn [g_context_stack].
      apply array_get_set_ne. lia. }
    split; [reflexivity|]. right.
    split; [reflexivity|]. split; [lia|].
    rewrite section_at_set_eq by exact Hlen1.
    rewrite Hx1, Hx4, He1, He2.
    split; [reflexivity|]. split; [reflexivity|].
    intros j Hj. rewrite section_at_set_ne by congruence.
    apply section_at_set_ne. congruence.
Qed.

Lemma register_fresh_or_known (now : Z) (a_name : string) (a_file : c_string)
      (a_line : Z) (g : globals) :
  globals_ok g ->
  let '(r, g') := __narwhalyzer_register_section now a_name a_file a_line g in
  r = -1 /\ g_section_count g' = g_section_count g \/
  0 <= r < g_section_count g /\ g_section_count g' = g_section_count g \/
  r = g_section_count g /\ g_section_count g' = g_section_count g + 1 /\
  entry_count (section_at g' r) = 0.
Proof.
  clear. intros Hg.
  destruct (init_effect now g Hg) as (Hg1 & _ & Hc1 & _ & _ & _).
  set (g1 := __narwhalyzer_init now g) in *.
  pose proof Hg1 as [Hlen Hcnt _ _ _ _].
  destruct (find_section a_name a_file a_line g1) as [i|] eqn:Hfind.
  - rewrite (register_found _ _ _ _ _ _ Hfind). fold g1.
    apply find_section_Some in Hfind as [Hi _].
    right. left. lia.
  - destruct (Z_lt_le_dec (g_section_count g1) NARWHALYZER_MAX_SECTIONS)
      as [Hlt|Hge].
    + pose proof (register_new now a_name a_file a_line g) as Hnew.
      cbv zeta in Hnew. rewrite (Hnew Hfind Hlt). fold g1. right. right.
      split; [lia|]. split; [cbn; lia|].
      unfold section_at. cbn [g_sections set_g_sections].
      rewrite array_get_set_eq by lia. reflexivity.
    + pose proof (register_full now a_name a_file a_line g) as Hfull.
      cbv zeta in Hfull. rewrite (Hfull Hfind Hge). left.
      split; [reflexivity|exact Hc1].
Qed.

(** X19.  An instrumented function with an empty body leaves the thread as
    it found it.  In a state reached from process start, on any thread and
    whatever the static index holds, the statements of
    [NARWHALYZER_FUNCTION] followed by the cleanup of the guard they
    declare (no call of another thread in between) put the top of the stack
    back where it was and leave every cell up to it as it was; the guard
    ends up invalid; at most one section is added to the registry.  The
    guard's context is either -1, and then no section that was registered
    has changed, or the cell above the old top, and then the section of the
    returned index has one more entry than before (one entry when the call
    has just registered it) and no other registered section has changed. *)
Theorem function_macro_balanced (cs : list call) (t : nat)
        (now_register now_enter now_exit : Z) (a_name a_file : string)
        (a_line : Z) (_nw_func_idx_ : Z) :
  let w := snd (run cs initial_world) in
  let g := w_globals w in
  let tl := thread_of w t in
  let '(idx, guard, g1, tl1) :=
    NARWHALYZER_FUNCTION now_register now_enter a_name a_file a_line
                         _nw_func_idx_ g tl in
  let '(guard2, g2, tl2) :=
    __narwhalyzer_scope_guard_cleanup now_exit (Some guard) g1 tl1 in
  g_context_stack_top tl2 = g_context_stack_top tl /\
  (forall i, i <= g_context_stack_top tl ->
             context_at tl2 i = context_at tl i) /\
  guard2 = Some (mk_scope_guard (context_index guard) 0) /\
  g_section_count g <= g_section_count g2 <= g_section_count g + 1 /\
  (context_index guard = -1 /\
   (forall j, 0 <= j < g_section_count g ->
              section_at g2 j = section_at g j)
   \/
   context_index guard = g_context_stack_top tl + 1 /\
   0 <= idx < g_section_count g2 /\
   entry_count (section_at g2 idx)
   = (if idx <? g_section_count g
      then wrap64 (entry_count (section_at g idx) + 1) else 1) /\
   (forall j, 0 <= j < g_section_count g -> j <> idx ->
              section_at g2 j = section_at g j)).
Proof.
  intros w g tl.
  pose proof (run_ok cs _ initial_world_ok) as [Hg Ht]. fold w in Hg, Ht.
  fold g in Hg. specialize (Ht t). fold g tl in Ht.
  unfold NARWHALYZER_FUNCTION.
  assert (Hreg :
    let '(idx, g0) :=
      if _nw_func_idx_ <? 0
      then __narwhalyzer_register_section now_register a_name (Some a_file)
                                          a_line g
      else (_nw_func_idx_, g) in
    globals_ok g0 /\
    g_section_count g <= g_section_count g0 <= g_section_count g + 1 /\
    (forall i, 0 <= i < g_section_count g ->
               section_at g0 i = section_at g i) /\
    (0 <= idx < g_section_count g0 -> g_section_count g <= idx ->
     entry_count (section_at g0 idx) = 0)).
  { destruct (_nw_func_idx_ <? 0).
    - pose proof (register_effect now_register a_name (Some a_file) a_line
                    g Hg) as He.
      pose proof (register_fresh_or_known now_register a_name (Some a_file)
                    a_line g Hg) as Hf.
      destruct (__narwhalyzer_register_section now_register a_name
                  (Some a_file) a_line g) as [idx g0].
      destruct He as (Hg0 & _ & Hle & Hsame).
      split; [exact Hg0|]. split; [lia|]. split; [exact Hsame|].
      intros Hi Hge. destruct Hf as [Hf|[Hf|Hf]]; [lia|lia|apply Hf].
    - split; [exact Hg|]. split; [lia|]. split; [reflexivity|]. lia. }
  destruct (if _nw_func_idx_ <? 0
            then __narwhalyzer_register_section now_register a_name
                   (Some a_file) a_line g
            else (_nw_func_idx_, g)) as [idx g0].
  destruct Hreg as (Hg0 & Hcnt0 & Hsame & Hfresh).
  assert (Ht0 : thread_ok g0 tl)
    by (apply (thread_ok_same_count g); [lia|exact Ht]).
  pose proof (enter_then_exit now_enter now_exit idx g0 tl Hg0 Ht0) as Hee.
  destruct (__narwhalyzer_section_enter now_enter idx g0 tl)
    as [[ctx g1] tl1].
  unfold __narwhalyzer_scope_guard_cleanup.
  cbn [valid context_index Z.eqb negb].
  destruct (__narwhalyzer_section_exit now_exit ctx g1 tl1) as [g2 tl2].
  destruct Hee as (Htop & Hcells & Hc2 & Hcases).
  split; [exact Htop|]. split; [exact Hcells|]. split; [reflexivity|].
  split; [lia|].
  destruct Hcases as [[Hr Hs]|(Hr & Hidx & He & _ & Hother)].
  - left. split; [exact Hr|]. intros j Hj.
    rewrite <- (Hsame j Hj). unfold section_at. rewrite Hs. reflexivity.
  - right. split; [exact Hr|]. split; [lia|]. split.
    + rewrite He. destruct (Z.ltb_spec idx (g_section_count g)) as [Hlt|Hge].
      * rewrite (Hsame idx) by lia. reflexivity.
      * rewrite Hfresh by lia. reflexivity.
    + intros j Hj Hne. rewrite (Hother j Hne). apply Hsame, Hj.
Qed.

Lemma function_macro_full_step (now_register now_enter now_exit : Z)
      (a_name a_file : string) (a_line : Z) (g : globals)
      (tl : thread_local) :
  g_initialized g <> 0 ->
  (Z.to_nat (g_section_count g) <= length (g_sections g))%nat ->
  g_section_count g = NARWHALYZER_MAX_SECTIONS ->
  (forall j, 0 <= j < g_section_count g ->
     section_matches a_name (Some a_file) a_line (section_at g j) = false) ->
  NARWHALYZER_FUNCTION now_register now_enter a_name a_file a_line (-1) g tl
  = (-1, mk_scope_guard (-1) 1, fprintf_stderr warn_max_sections g, tl) /\
  __narwhalyzer_scope_guard_cleanup now_exit (Some (mk_scope_guard (-1) 1))
    (fprintf_stderr warn_max_sections g) tl
  = (Some (mk_scope_guard (-1) 0), fprintf_stderr warn_max_sections g, tl).
Proof.
  clear. intros Hinit Hlen Hcnt Hnone.
  assert (Hg1 : __narwhalyzer_init now_register g = g).
  { unfold __narwhalyzer_init.
    destruct (Z.eqb_spec (g_initialized g) 0); [contradiction|reflexivity]. }
  split.
  - unfold NARWHALYZER_FUNCTION. cbn [Z.ltb Z.compare].
    pose proof (register_full now_register a_name (Some a_file) a_line g)
      as Hfull.
    cbv zeta in Hfull. rewrite Hg1 in Hfull. rewrite Hfull.
    + rewrite section_enter_bad_index by lia. reflexivity.
    + apply find_section_None; assumption.
    + lia.
  - unfold __narwhalyzer_scope_guard_cleanup.
    cbn [valid context_index Z.eqb negb].
    rewrite section_exit_out_of_range by lia. reflexivity.
Qed.

(** X20.  With the registry full, an instrumented function measures
    nothing and warns at every execution.  In a state reached from process
    start in which every slot is taken and none holds the function's
    triple, the statements of [NARWHALYZER_FUNCTION] leave the static index
    at -1 and get context -1, and with the cleanup of the guard the only
    change is one more warning on stderr: no section and no stack is
    touched.  As the static index is still negative, the next execution
    registers again and adds the warning again. *)
Theorem function_macro_registry_full (cs : list call) (t : nat)
        (now_register now_enter now_exit : Z)
        (now_register' now_enter' now_exit' : Z)
        (a_name a_file : string) (a_line : Z) :
  let w := snd (run cs initial_world) in
  let g := w_globals w in
  let tl := thread_of w t in
  g_section_count g = NARWHALYZER_MAX_SECTIONS ->
  (forall j, 0 <= j < NARWHALYZER_MAX_SECTIONS ->
     section_matches a_name (Some a_file) a_line (section_at g j) = false) ->
  let '(idx, guard, g1, tl1) :=
    NARWHALYZER_FUNCTION now_register now_enter a_name a_file a_line
                         (-1) g tl in
  let '(guard2, g2, tl2) :=
    __narwhalyzer_scope_guard_cleanup now_exit (Some guard) g1 tl1 in
  idx = -1 /\ context_index guard = -1 /\
  tl2 = tl /\ g2 = fprintf_stderr warn_max_sections g /\
  let '(idx', guard', g1', tl1') :=
    NARWHALYZER_FUNCTION now_register' now_enter' a_name a_file a_line
                         idx g2 tl2 in
  let '(guard2', g2', tl2') :=
    __narwhalyzer_scope_guard_cleanup now_exit' (Some guard') g1' tl1' in
  idx' = -1 /\ tl2' = tl /\
  g_sections g2' = g_sections g /\
  g_stderr g2' = g_stderr g ++ [warn_max_sections; warn_max_sections].
Proof.
  intros w g tl Hcnt Hnone.
  pose proof (run_ok cs _ initial_world_ok) as [Hg _]. fold w in Hg.
  fold g in Hg.
  pose proof Hg as [Hlen _ Hinit _ _ _].
  assert (Hi : g_initialized g <> 0) by (intros Hz; specialize (Hinit Hz); lia).
  assert (Hl : (Z.to_nat (g_section_count g) <= length (g_sections g))%nat)
    by lia.
  rewrite <- Hcnt in Hnone.
  destruct (function_macro_full_step now_register now_enter now_exit
              a_name a_file a_line g tl Hi Hl Hcnt Hnone) as [-> ->].
  destruct (function_macro_full_step now_register' now_enter' now_exit'
              a_name a_file a_line (fprintf_stderr warn_max_sections g) tl
              Hi Hl Hcnt Hnone) as [-> ->].
  cbn [context_index]. repeat split.
  cbn [g_stderr fprintf_stderr]. rewrite <- app_assoc. reflexivity.
Qed.

(** ** A stable qsort *)

Lemma insert_before_perm (cmp : Z -> Z -> Z) (x : Z) (l : list Z) :
  Permutation (x :: l) (insert_before cmp x l).
Proof.
  clear. induction l as [|y l IH]; cbn; [apply Permutation_refl|].
  destruct (cmp x y <=? 0); [apply Permutation_refl|].
  eapply Permutation_trans; [apply perm_swap|].
  apply perm_skip, IH.
Qed.

Lemma insert_before_sorted (cmp : Z -> Z -> Z) (x : Z) (l : list Z) :
  (forall a b, cmp a b <= 0 \/ cmp b a <= 0) ->
  (forall a b c, cmp a b <= 0 -> cmp b c <= 0 -> cmp a c <= 0) ->
  StronglySorted (fun a b => cmp a b <= 0) l ->
  StronglySorted (fun a b => cmp a b <= 0) (insert_before cmp x l).
Proof.
  clear. intros Htotal Htrans. induction 1 as [|y l Hs IH Hall]; cbn.
  - constructor; constructor.
  - destruct (Z.leb_spec (cmp x y) 0) as [Hle|Hgt].
    + constructor; [constructor; assumption|].
      constructor; [exact Hle|].
      eapply Forall_impl; [exact Hall|].
      intros z Hz. cbn in Hz. eapply Htrans; eassumption.
    + assert (Hyx : cmp y x <= 0) by (destruct (Htotal x y); lia).
      constructor; [exact IH|].
      eapply Permutation_Forall; [apply insert_before_perm|].
      constructor; assumption.
Qed.

Lemma insert_before_ties (cmp : Z -> Z -> Z) (z x : Z) (l : list Z) :
  (forall a b c, cmp a b <= 0 -> cmp b c <= 0 -> cmp a c <= 0) ->
  List.filter (fun y => (cmp z y <=? 0) && (cmp y z <=? 0))
              (insert_before cmp x l)
  = List.filter (fun y => (cmp z y <=? 0) && (cmp y z <=? 0)) (x :: l).
Proof.
  clear. intros Htrans. induction l as [|y l IH]; [reflexivity|].
  cbn [insert_before].
  destruct (Z.leb_spec (cmp x y) 0) as [Hle|Hgt]; [reflexivity|].
  cbn [List.filter] in *. rewrite IH.
  destruct ((cmp z x <=? 0) && (cmp x z <=? 0)) eqn:Hx;
    destruct ((cmp z y <=? 0) && (cmp y z <=? 0)) eqn:Hy; try reflexivity.
  apply andb_true_iff in Hx as [_ Hxz]. apply andb_true_iff in Hy as [Hzy _].
  apply Z.leb_le in Hxz, Hzy.
  pose proof (Htrans x z y Hxz Hzy). lia.
Qed.

Lemma stable_qsort_conforms : qsort_contract stable_qsort.
Proof.
  clear. intros cmp l Htotal Htrans. unfold stable_qsort.
  induction l as [|x l [IHp IHs]]; cbn.
  - split; constructor.
  - split.
    + eapply Permutation_trans; [apply perm_skip, IHp|].
      apply insert_before_perm.
    + apply insert_before_sorted; assumption.
Qed.

Lemma stable_qsort_stable : qsort_stable stable_qsort.
Proof.
  clear. intros cmp l _ Htrans z. unfold stable_qsort.
  induction l as [|x l IH]; [reflexivity|].
  cbn [fold_right]. rewrite insert_before_ties by exact Htrans.
  cbn [List.filter]. rewrite IH. reflexivity.
Qed.

End Runtime.


(** * The statements on the sample runs *)

Lemma section_enter_result_witness :
  fst (fst (__narwhalyzer_section_enter 2 100 0
              (w_globals (demo_registered 2 2))
              (thread_of 2 (demo_registered 2 2) 0%nat)))
  = 0.
Proof.
  pose proof (section_enter_result 2 2 100 0 (w_globals (demo_registered 2 2))
                (thread_of 2 (demo_registered 2 2) 0%nat)
                eq_refl ltac:(decide_by_evaluation) eq_refl
                ltac:(decide_by_evaluation)) as H.
  destruct (__narwhalyzer_section_enter 2 100 0
              (w_globals (demo_registered 2 2))
              (thread_of 2 (demo_registered 2 2) 0%nat)) as [[r g'] tl'].
  destruct H as (_ & _ & H).
  destruct H as [H _]; [decide_by_evaluation|decide_by_evaluation|]. exact H.
Defined.

Lemma section_exit_result_witness :
  g_context_stack_top
    (snd (__narwhalyzer_section_exit 150 0 (w_globals (demo_entered 2 2))
            (thread_of 2 (demo_entered 2 2) 0%nat)))
  = -1.
Proof.
  pose proof (section_exit_result 150 0 (w_globals (demo_entered 2 2))
                (thread_of 2 (demo_entered 2 2) 0%nat)) as H.
  destruct (__narwhalyzer_section_exit 150 0 (w_globals (demo_entered 2 2))
              (thread_of 2 (demo_entered 2 2) 0%nat)) as [g' tl'].
  destruct H as [_ H].
  destruct H as (_ & H & _); [decide_by_evaluation|].
  exact H.
Defined.

Lemma demo_registered_reachable : reachable 2 2 (demo_registered 2 2).
Proof. exists [demo_register_outer; demo_register_inner]. reflexivity. Qed.

Lemma register_at_capacity_witness :
  fst (__narwhalyzer_register_section 2 5 "third"%string
         (Some "demo.c"%string) 30 (w_globals (demo_registered 2 2))) = -1.
Proof.
  pose proof (register_at_capacity 2 2 ltac:(lia) ltac:(lia)
                (demo_registered 2 2) 5 "third"%string (Some "demo.c"%string)
                30 demo_registered_reachable eq_refl) as H.
  destruct (__narwhalyzer_register_section 2 5 "third"%string
              (Some "demo.c"%string) 30 (w_globals (demo_registered 2 2)))
    as [r g'].
  apply H. intros i Hi.
  assert (i = 0 \/ i = 1) as [->| ->] by lia; vm_compute; discriminate.
Defined.

Lemma register_null_file_witness :
  fst (__narwhalyzer_register_section 2048 1 "anon"%string None 7
         (w_globals (initial_world 2048))) = 0 /\
  fst (__narwhalyzer_register_section 2048 2 "anon"%string None 7
         (snd (__narwhalyzer_register_section 2048 1 "anon"%string None 7
                 (w_globals (initial_world 2048))))) = 1.
Proof.
  assert (Hreach : reachable 2048 128 (initial_world 2048))
    by (exists []; reflexivity).
  pose proof (register_null_file 2048 128 ltac:(lia) ltac:(lia)
                (initial_world 2048) 1 2 "anon"%string 7 Hreach) as H.
  cbv zeta in H.
  destruct (__narwhalyzer_register_section 2048 1 "anon"%string None 7
              (w_globals (initial_world 2048))) as [r g'].
  cbn [fst snd].
  destruct (__narwhalyzer_register_section 2048 2 "anon"%string None 7 g')
    as [r' g''].
  destruct H as (_ & H1 & H2 & _).
  destruct H1 as (Hr & _); [decide_by_evaluation|].
  destruct H2 as (Hr' & _); [decide_by_evaluation|].
  cbn [fst snd]. rewrite Hr', Hr. split; reflexivity.
Defined.

Lemma register_idempotent_injective_witness :
  (("outer"%string, Some "demo.c"%string, 10)
   = ("outer"%string, Some "demo.c"%string, 10) ->
   Some "demo.c"%string <> None -> 0 = 0) /\
  (("outer"%string, Some "demo.c"%string, 10)
   <> ("inner"%string, Some "demo.c"%string, 20) ->
   0 <> -1 -> 0 <> 1).
Proof.
  split.
  - apply (register_idempotent_injective 2 2 ltac:(lia) ltac:(lia)
             demo_twice 0 2 0 0 "outer"%string "outer"%string
             (Some "demo.c"%string) (Some "demo.c"%string) 10 10 0 0);
      reflexivity.
  - apply (register_idempotent_injective 2 2 ltac:(lia) ltac:(lia)
             demo_twice 0 1 0 0 "outer"%string "inner"%string
             (Some "demo.c"%string) (Some "demo.c"%string) 10 20 0 1);
      reflexivity.
Defined.

(** With the default capacities, registering the same name and line with a
    null file twice returns 0 and then 1. *)
Lemma register_null_file_not_idempotent :
  fst (run 2048 128 [register_anonymous; register_anonymous]
           (initial_world 2048))
  = [(register_anonymous, Some 0); (register_anonymous, Some 1)] /\
  0 <> 1.
Proof. split; [vm_compute; reflexivity|discriminate]. Qed.

Lemma parent_first_writer_wins_witness :
  parent_index
    (section_at
       (w_globals
          (snd (run 2 2 demo_nest_after
                  (snd (step 2 2 (CallEnter 0 110 1)
                          (snd (run 2 2 demo_nest_before
                                  (initial_world 2)))))))) 1)
  = 0.
Proof.
  destruct (parent_first_writer_wins 2 2 ltac:(lia) ltac:(lia)
              demo_nest_before demo_nest_after 0%nat 110 1 1)
    as (_ & _ & H).
  - intros t' now' r' Hin. vm_compute in Hin.
    destruct Hin as [Hin|[Hin|[Hin|[Hin|[Hin|[]]]]]]; try discriminate Hin.
    injection Hin as _ _ <-. discriminate.
  - reflexivity.
  - lia.
  - exact H.
Defined.

Lemma balanced_statistics_witness :
  let g := w_globals (snd (run 2 2 demo_calls (initial_world 2))) in
  entry_count (section_at g 1) = 1 /\
  cumulative_time_ns (section_at g 1) = 40 /\
  is_minimum (min_time_ns (section_at g 1)) [40] /\
  is_maximum (max_time_ns (section_at g 1)) [40].
Proof.
  destruct (balanced_statistics 2 2 ltac:(lia) ltac:(lia)
              demo_calls demo_ledger 1)
    as (_ & _ & H1 & H2 & H3).
  - reflexivity.
  - reflexivity.
  - decide_by_evaluation.
  - cbv zeta. split; [apply H1; decide_by_evaluation|].
    split; [apply H2; decide_by_evaluation|].
    apply H3. discriminate.
Defined.

Lemma flat_summary_sorted_witness :
  StronglySorted
    (fun a b =>
       cumulative_time_ns (section_at (demo_tie 2048 128) b)
       < cumulative_time_ns (section_at (demo_tie 2048 128) a) \/
       (cumulative_time_ns (section_at (demo_tie 2048 128) a)
        = cumulative_time_ns (section_at (demo_tie 2048 128) b) /\ a < b))
    (row_indices
       (print_flat_summary stable_qsort 2 1000 (demo_tie 2048 128))) /\
  row_indices (print_flat_summary stable_qsort 2 1000 (demo_tie 2048 128))
  = [0; 1].
Proof.
  destruct (flat_summary_sorted stable_qsort 2 1000 (demo_tie 2048 128)
              stable_qsort_conforms) as (_ & _ & _ & H).
  split; [exact (H stable_qsort_stable)|vm_compute; reflexivity].
Defined.

(** The default capacities, 300 sections with 50 ns each, and the C
    library sorting in place because it could not allocate its merge
    buffer: the second row is section 198, and section 1, with the same
    cumulative time, is printed 197 rows further down. *)
Lemma flat_summary_ties_out_of_index_order :
  let g := demo_equal_times 2048 128 in
  let rows := row_indices (print_flat_summary _quicksort 300 30000 g) in
  executed g 1 = true /\ executed g 198 = true /\
  cumulative_time_ns (section_at g 1) = 50 /\
  cumulative_time_ns (section_at g 198) = 50 /\
  take 8 rows = [0; 198; 199; 200; 201; 202; 203; 204] /\
  rows !! 1%nat = Some 198 /\
  rows !! 198%nat = Some 1 /\
  1 < 198.
Proof. vm_compute. repeat split. Qed.

Lemma unexecuted_sections_not_reported_witness :
  exists g',
    __narwhalyzer_fini insertion_qsort 1000
      (w_globals (snd (run 2 2 demo_calls (initial_world 2)))) = Some g' /\
    forall o s, In o (g_stdout g') -> line_section o = Some s ->
      entry_count
        (section_at (w_globals (snd (run 2 2 demo_calls (initial_world 2)))) s)
      <> 0.
Proof.
  apply (unexecuted_sections_not_reported 2 2 ltac:(lia) ltac:(lia)
           insertion_qsort demo_calls 1000).
  decide_by_evaluation.
Defined.

Lemma report_without_executed_sections_witness :
  exists g',
    __narwhalyzer_fini insertion_qsort 1000 (demo_never_entered 2 2)
    = Some g' /\
    g_stdout g' = report_frame 1000 (demo_never_entered 2 2) /\
    ~ In NoSectionsExecuted (g_stdout g').
Proof.
  apply (report_without_executed_sections 2 2 ltac:(lia) ltac:(lia)
           insertion_qsort [demo_register_outer] 1000
           insertion_qsort_conforms).
  - decide_by_evaluation.
  - intros i Hi.
    change (g_section_count
              (w_globals (snd (run 2 2 [demo_register_outer]
                                   (initial_world 2)))))
      with 1 in Hi.
    assert (i = 0) as -> by lia. reflexivity.
Defined.

(** With the default capacities: a section that is registered and never
    entered gets the whole frame of the report, the titles of the
    hierarchical view and of the section details included, and no line
    saying that nothing was executed. *)
Lemma report_of_never_entered_section :
  option_map g_stdout
    (__narwhalyzer_fini insertion_qsort 1000 (demo_never_entered 2048 128))
  = Some [BlankLine; Banner; BlankLine;
          TotalProgramTime 1000; SectionsInstrumented 1;
          BlankLine; FlatSummaryTitle; BlankLine;
          TableSeparator 12; TableHeader 12; TableSeparator 12;
          TableSeparator 12;
          BlankLine; HierarchyTitle; BlankLine;
          SectionDetailsTitle; BlankLine;
          EndOfReport; BlankLine].
Proof. vm_compute. reflexivity. Qed.

(** * The further properties on the sample runs *)

Lemma compare_sections_consistent_witness :
  compare_sections_by_time (demo_run 2 2) 1 0
  = - compare_sections_by_time (demo_run 2 2) 0 1.
Proof.
  exact (proj1 (proj2 (compare_sections_consistent (demo_run 2 2) 0 1 0))).
Defined.

Lemma timestamp_difference_witness :
  wrap64 (__narwhalyzer_get_timestamp_ns 2 0
          - __narwhalyzer_get_timestamp_ns 1 999999999)
  = (2 - 1) * 1000000000 + (0 - 999999999) /\
  __narwhalyzer_get_timestamp_ns 1 999999999
  <= __narwhalyzer_get_timestamp_ns 2 0.
Proof. apply (timestamp_difference 1 999999999 2 0); lia. Defined.

Lemma initialization_happens_once_witness :
  g_program_start_time_ns
    (w_globals
       (snd (run 2 2 [CallInit 77]
               (snd (run 2 2 [CallInit 5; demo_register_outer]
                       (initial_world 2))))))
  = g_program_start_time_ns
      (w_globals
         (snd (run 2 2 [CallInit 5; demo_register_outer] (initial_world 2)))).
Proof.
  destruct (initialization_happens_once 2 2 ltac:(lia) ltac:(lia)
              [CallInit 5; demo_register_outer] [CallInit 77]) as [_ H].
  destruct H as (_ & H & _); [decide_by_evaluation|]. exact H.
Defined.

Lemma register_initializes_witness :
  fst (__narwhalyzer_register_section 2 5 "outer"%string
         (Some "demo.c"%string) 10 (w_globals (initial_world 2))) = 0.
Proof.
  pose proof (register_initializes 2 2 ltac:(lia) ltac:(lia) [] 5
                "outer"%string (Some "demo.c"%string) 10) as H.
  cbv zeta in H.
  change (snd (run 2 2 [] (initial_world 2))) with (initial_world 2) in H.
  destruct (__narwhalyzer_register_section 2 5 "outer"%string
              (Some "demo.c"%string) 10 (w_globals (initial_world 2)))
    as [r g'].
  destruct H as (_ & H & _).
  destruct H as (_ & H & _); [reflexivity|]. exact H.
Defined.

Lemma report_printed_once_witness :
  exists g',
    __narwhalyzer_fini insertion_qsort 1000 (demo_never_entered 2 2)
    = Some g' /\
    __narwhalyzer_fini insertion_qsort 2000 g' = Some g'.
Proof.
  destruct (report_printed_once insertion_qsort 1000 2000
              (demo_never_entered 2 2) ltac:(vm_compute; reflexivity))
    as (g' & H1 & _ & _ & _ & _ & _ & _ & H2).
  exists g'. split; [exact H1|exact H2].
Defined.

Lemma scope_guard_exits_once_witness :
  let '(guard1, g1, tl1) :=
    __narwhalyzer_scope_guard_cleanup 150 (Some (mk_scope_guard 0 1))
      (w_globals (demo_entered 2 2))
      (thread_of 2 (demo_entered 2 2) 0%nat) in
  __narwhalyzer_scope_guard_cleanup 160 guard1 g1 tl1 = (guard1, g1, tl1).
Proof.
  pose proof (scope_guard_exits_once 150 160 (Some (mk_scope_guard 0 1))
                (w_globals (demo_entered 2 2))
                (thread_of 2 (demo_entered 2 2) 0%nat)) as H.
  destruct (__narwhalyzer_scope_guard_cleanup 150 (Some (mk_scope_guard 0 1))
              (w_globals (demo_entered 2 2))
              (thread_of 2 (demo_entered 2 2) 0%nat)) as [[guard1 g1] tl1].
  exact (proj1 H).
Defined.

Lemma enter_exit_round_trip_witness :
  let '(r, g1, tl1) :=
    __narwhalyzer_section_enter 2 100 0
      (w_globals (snd (run 2 2 [demo_register_outer; demo_register_inner]
                         (initial_world 2))))
      (thread_of 2 (snd (run 2 2 [demo_register_outer; demo_register_inner]
                           (initial_world 2))) 0%nat) in
  let '(g2, tl2) := __narwhalyzer_section_exit 150 r g1 tl1 in
  g_context_stack_top tl2
  = g_context_stack_top
      (thread_of 2 (snd (run 2 2 [demo_register_outer; demo_register_inner]
                           (initial_world 2))) 0%nat) /\
  entry_count (section_at g2 0)
  = wrap64 (entry_count
              (section_at
                 (w_globals
                    (snd (run 2 2 [demo_register_outer; demo_register_inner]
                            (initial_world 2)))) 0) + 1).
Proof.
  pose proof (enter_exit_round_trip 2 2 ltac:(lia) ltac:(lia)
                [demo_register_outer; demo_register_inner] 0%nat 100 150 0
                ltac:(decide_by_evaluation) ltac:(decide_by_evaluation)) as H.
  destruct (__narwhalyzer_section_enter 2 100 0
      (w_globals (snd (run 2 2 [demo_register_outer; demo_register_inner]
                         (initial_world 2))))
      (thread_of 2 (snd (run 2 2 [demo_register_outer; demo_register_inner]
                           (initial_world 2))) 0%nat)) as [[r g1] tl1].
  destruct (__narwhalyzer_section_exit 150 r g1 tl1) as [g2 tl2].
  destruct H as (H1 & _ & H3 & _). split; [exact H1|exact H3].
Defined.

Lemma runtime_stays_in_bounds_witness :
  -1 <= g_context_stack_top
          (thread_of 2 (snd (run 2 2 demo_calls (initial_world 2))) 0%nat)
     < 2.
Proof.
  destruct (runtime_stays_in_bounds 2 2 ltac:(lia) ltac:(lia) demo_calls
              0%nat) as (_ & _ & _ & H & _).
  exact H.
Defined.

Lemma registered_index_stays_witness :
  name (section_at (w_globals (snd (run 2 2 demo_calls (initial_world 2)))) 1)
  = Some "inner"%string.
Proof.
  destruct (registered_index_stays 2 2 ltac:(lia) ltac:(lia) demo_calls
              1%nat 0 "inner"%string (Some "demo.c"%string) 20 1
              ltac:(vm_compute; reflexivity) ltac:(discriminate))
    as (_ & H & _).
  exact H.
Defined.

Lemma section_indices_dense_witness :
  exists (now : Z) (a_name : string) (a_file : c_string) (a_line : Z),
    In (CallRegister now a_name a_file a_line, Some 1)
       (fst (run 2 2 demo_calls (initial_world 2))) /\
    name (section_at (w_globals (snd (run 2 2 demo_calls (initial_world 2))))
            1) = Some a_name /\
    file (section_at (w_globals (snd (run 2 2 demo_calls (initial_world 2))))
            1) = a_file /\
    line (section_at (w_globals (snd (run 2 2 demo_calls (initial_world 2))))
            1) = a_line.
Proof.
  apply (section_indices_dense 2 2 ltac:(lia) ltac:(lia) demo_calls 1).
  decide_by_evaluation.
Defined.

Lemma reregistration_changes_nothing_witness :
  __narwhalyzer_register_section 2 999 "outer"%string (Some "demo.c"%string)
    10 (w_globals (snd (run 2 2 demo_calls (initial_world 2))))
  = (0, w_globals (snd (run 2 2 demo_calls (initial_world 2)))).
Proof.
  apply (reregistration_changes_nothing 2 2 ltac:(lia) ltac:(lia) demo_calls
           0%nat 0 999 "outer"%string (Some "demo.c"%string) 10 0).
  - vm_compute. reflexivity.
  - discriminate.
  - discriminate.
Defined.

Lemma statistics_stay_sane_witness :
  counters_sane
    (section_at (w_globals (snd (run 2 2 demo_calls (initial_world 2)))) 1).
Proof.
  apply (statistics_stay_sane 2 2 ltac:(lia) ltac:(lia) demo_calls 1).
  decide_by_evaluation.
Defined.

Lemma section_details_listing_witness :
  detail_indices (print_section_details 2 (demo_run 2 2))
  = List.filter (executed (demo_run 2 2)) (seqZ 0 2).
Proof. exact (proj1 (section_details_listing 2 (demo_run 2 2))). Defined.

Lemma flat_summary_name_column_witness :
  12 <= max_name_width 1 (demo_long_name 2 2) <= 40 /\
  "a_section_name_that_is_longer_than_th..."%string
  = (substring 0 (Z.to_nat (40 - 3))
               (c_str (name (section_at (demo_long_name 2 2) 0)))
     ++ "...")%string /\
  Z.of_nat (String.length "a_section_name_that_is_longer_than_th...") = 40.
Proof.
  destruct (flat_summary_name_column insertion_qsort 1 1000
              (demo_long_name 2 2)) as [Hw H].
  split; [exact Hw|].
  destruct (H 0 40 "a_section_name_that_is_longer_than_th..."%string
              1 50 50 50 50 (Some (5000, 1000))) as (_ & _ & _ & Hcut).
  - vm_compute. repeat (first [left; reflexivity | right]).
  - apply Hcut. decide_by_evaluation.
Defined.

Lemma hierarchy_built_witness :
  let '(nodes, roots) := build_hierarchy 2 (demo_child_first 2 2) in
  roots = List.filter
            (fun r => parent_index (section_at (demo_child_first 2 2) r) <? 0)
            (seqZ 0 2) /\
  children (array_get zero_node nodes 1)
  = List.filter
      (fun c => (parent_index (section_at (demo_child_first 2 2) c) =? 1)
                && (1 <=? c))
      (seqZ 0 2).
Proof.
  pose proof (hierarchy_built 2 (demo_child_first 2 2) ltac:(lia)) as H.
  destruct (build_hierarchy 2 (demo_child_first 2 2)) as [nodes roots].
  destruct H as [H1 H2]. split; [exact H1|]. apply H2. lia.
Defined.

Lemma hierarchy_view_shape_witness :
  exists ls,
    print_hierarchy_view 2 (demo_child_first 2 2) = Some ls /\
    root_indices ls
    = List.filter
        (fun r => (parent_index (section_at (demo_child_first 2 2) r) <? 0)
                  && executed (demo_child_first 2 2) r)
        (seqZ 0 2) /\
    Forall (hierarchy_line_ok (demo_child_first 2 2) 2) ls.
Proof. apply (hierarchy_view_shape 2 (demo_child_first 2 2)). lia. Defined.

Lemma contexts_chained_witness :
  parent_context_index
    (context_at
       (thread_of 2 (snd (run 2 2 demo_nest_before (initial_world 2))) 0%nat)
       0)
  = 0 - 1.
Proof.
  apply (contexts_chained 2 2 ltac:(lia) ltac:(lia) demo_nest_before 0%nat 0).
  decide_by_evaluation.
Defined.

Lemma flat_summary_row_values_witness :
  1 = entry_count (section_at (demo_run 2 2) 0) /\
  100 = 100 / 1 /\
  Some (10000, 1000) = Some (100 * 100, 1000).
Proof.
  destruct (flat_summary_row_values insertion_qsort 2 1000 (demo_run 2 2)
              0 12 "outer"%string 1 100 100 100 100 (Some (10000, 1000)))
    as (H1 & _ & _ & _ & _ & H2 & _ & _ & H3).
  - vm_compute. repeat (first [left; reflexivity | right]).
  - split; [exact H1|]. split; [exact H2|]. apply H3. lia.
Defined.

Lemma function_macro_balanced_witness :
  let '(idx, guard, g1, tl1) :=
    NARWHALYZER_FUNCTION 2 2 1 2 "f"%string "demo.c"%string 5 (-1)
      (w_globals (snd (run 2 2 [] (initial_world 2))))
      (thread_of 2 (snd (run 2 2 [] (initial_world 2))) 0%nat) in
  let '(guard2, g2, tl2) :=
    __narwhalyzer_scope_guard_cleanup 3 (Some guard) g1 tl1 in
  g_context_stack_top tl2
  = g_context_stack_top
      (thread_of 2 (snd (run 2 2 [] (initial_world 2))) 0%nat) /\
  guard2 = Some (mk_scope_guard (context_index guard) 0).
Proof.
  pose proof (function_macro_balanced 2 2 ltac:(lia) ltac:(lia) [] 0%nat
                1 2 3 "f"%string "demo.c"%string 5 (-1)) as H.
  cbv zeta in H.
  destruct (NARWHALYZER_FUNCTION 2 2 1 2 "f"%string "demo.c"%string 5 (-1)
      (w_globals (snd (run 2 2 [] (initial_world 2))))
      (thread_of 2 (snd (run 2 2 [] (initial_world 2))) 0%nat))
    as [[[idx guard] g1] tl1].
  destruct (__narwhalyzer_scope_guard_cleanup 3 (Some guard) g1 tl1)
    as [[guard2 g2] tl2].
  destruct H as (H1 & _ & H3 & _). split; [exact H1|exact H3].
Defined.

Lemma function_macro_registry_full_witness :
  let '(idx, guard, g1, tl1) :=
    NARWHALYZER_FUNCTION 2 2 5 6 "third"%string "demo.c"%string 30 (-1)
      (w_globals (snd (run 2 2 [demo_register_outer; demo_register_inner]
                         (initial_world 2))))
      (thread_of 2 (snd (run 2 2 [demo_register_outer; demo_register_inner]
                           (initial_world 2))) 0%nat) in
  idx = -1 /\ context_index guard = -1.
Proof.
  pose proof (function_macro_registry_full 2 2 ltac:(lia) ltac:(lia)
                [demo_register_outer; demo_register_inner] 0%nat
                5 6 7 8 9 10 "third"%string "demo.c"%string 30) as H.
  cbv zeta in H.
  assert (H' := H ltac:(vm_compute; reflexivity)). clear H.
  destruct (NARWHALYZER_FUNCTION 2 2 5 6 "third"%string "demo.c"%string 30
      (-1)
      (w_globals (snd (run 2 2 [demo_register_outer; demo_register_inner]
                         (initial_world 2))))
      (thread_of 2 (snd (run 2 2 [demo_register_outer; demo_register_inner]
                           (initial_world 2))) 0%nat))
    as [[[idx guard] g1] tl1].
  destruct (__narwhalyzer_scope_guard_cleanup 7 (Some guard) g1 tl1)
    as [[guard2 g2] tl2].
  destruct H' as (H1 & H2 & _).
  - intros j Hj.
    assert (j = 0 \/ j = 1) as [->| ->] by lia; vm_compute; reflexivity.
  - split; [exact H1|exact H2].
Defined.
